(** * virSim: stochastic virus population dynamics (virSim.py)

    A shallow embedding of the simulation engine of [virSim.py]: the two
    virus classes ([SimpleVirus], [ResistantVirus]) and the two patient
    classes ([SimplePatient], [Patient]).

    - Python floats are Rocq's primitive binary64 floats, so [<=], [*], [-]
      and [/] are the operations the interpreter performs.
    - [random.random()] reads the next entry of an injected sequence of
      draws; the world records how many draws have been consumed.
    - Objects live in a store indexed by identity.  List objects and patient
      objects are mutable cells of the store; virus objects are never
      mutated after construction and are carried as values tagged with their
      identity (which is what [list.remove] compares).
    - Exceptions are an explicit result; a raised exception keeps the
      store as it was when it was raised.
    - [print] statements and the plotting drivers ([problem2] .. [problem7])
      are not part of the model. *)

From Stdlib Require Import ZArith Floats.
From stdpp Require Import gmap strings list fin_maps.

Local Open Scope nat_scope.

(** ** Exceptions and results *)

Inductive exn : Type :=
| NoChildException
| KeyError (key : string)
| ZeroDivisionError
| OverflowError
| ValueError
| TypeError
| AttributeError
| OutOfFuel.

Inductive result (A : Type) : Type :=
| Ok (a : A)
| Raise (e : exn).
Arguments Ok {A} a.
Arguments Raise {A} e.

Definition is_Ok {A} (r : result A) : Prop := ∃ a, r = Ok a.

(** ** The object store *)

(** Mutable objects.  A patient object holds a reference to its list of
    viruses ([self.viruses]), which the caller of the constructor holds too.
    The drug list of a [Patient] is created by its constructor and the
    methods of the classes reach it through the patient only, so it is kept
    inside the patient object. *)
Inductive obj (V : Type) : Type :=
| ListObj (items : list V)
| SimplePatientObj (viruses : nat) (maxPop : Z)
| PatientObj (viruses : nat) (maxPop : Z) (drugs : list string).
Arguments ListObj {V} items.
Arguments SimplePatientObj {V} viruses maxPop.
Arguments PatientObj {V} viruses maxPop drugs.

Record World (V : Type) : Type := mkWorld {
  draws : nat → float;        (* the values random.random() will return *)
  pos : nat;                  (* number of draws consumed so far *)
  next_oid : nat;             (* identity of the next object created *)
  heap : gmap nat (obj V)     (* the mutable objects, by identity *)
}.
Arguments mkWorld {V} draws pos next_oid heap.
Arguments draws {V} w n.
Arguments pos {V} w.
Arguments next_oid {V} w.
Arguments heap {V} w.

(** Identity of a virus object. *)
Class Identity (V : Type) := oid : V → nat.

(** ** Computations: state and exceptions *)

Definition M (V A : Type) : Type := World V → result A * World V.

Definition ret {V A} (a : A) : M V A := λ w, (Ok a, w).

Definition bind {V A B} (m : M V A) (k : A → M V B) : M V B :=
  λ w, match m w with
       | (Ok a, w') => k a w'
       | (Raise e, w') => (Raise e, w')
       end.

Definition raise {V A} (e : exn) : M V A := λ w, (Raise e, w).

Notation "'let!' x ':=' m 'in' k" := (bind m (λ x, k))
  (at level 10, x name, m at level 100, k at level 200).
Notation "'do!' m 'in' k" := (bind m (λ _, k))
  (at level 10, m at level 100, k at level 200).

(** [try: body except NoChildException: continue] *)
Definition except_NoChild {V} (body : M V unit) : M V unit :=
  λ w, match body w with
       | (Raise NoChildException, w') => (Ok tt, w')
       | r => r
       end.

(** The world after [n] more draws, and after [n] more objects. *)
Definition consume {V} (n : nat) (w : World V) : World V :=
  mkWorld (draws w) (n + pos w) (next_oid w) (heap w).

Definition created {V} (n : nat) (w : World V) : World V :=
  mkWorld (draws w) (pos w) (n + next_oid w) (heap w).

(** [random.random()] *)
Definition random {V} : M V float :=
  λ w, (Ok (draws w (pos w)), consume 1 w).

(** Identity of a freshly created object. *)
Definition fresh {V} : M V nat :=
  λ w, (Ok (next_oid w), created 1 w).

Definition store {V} (l : nat) (o : obj V) : M V unit :=
  λ w, (Ok tt, mkWorld (draws w) (pos w) (next_oid w) (<[l := o]> (heap w))).

Definition alloc {V} (o : obj V) : M V nat :=
  let! l := fresh in
  do! store l o in
  ret l.

(** ** Python lists in the store *)

Definition read_list {V} (l : nat) : M V (list V) :=
  λ w, match heap w !! l with
       | Some (ListObj vs) => (Ok vs, w)
       | _ => (Raise TypeError, w)
       end.

(** [l[:]] : a new list object with the same items *)
Definition list_copy {V} (l : nat) : M V nat :=
  let! vs := read_list l in
  alloc (ListObj vs).

(** [len(l)] *)
Definition list_len {V} (l : nat) : M V nat :=
  let! vs := read_list l in
  ret (length vs).

(** [l.append(v)] *)
Definition list_append {V} (l : nat) (v : V) : M V unit :=
  let! vs := read_list l in
  store l (ListObj (vs ++ [v])).

(** The items left when the first item that is the object [x] is dropped;
    [None] when no item is [x].  The virus classes define no [__eq__], so
    [==] on them is identity. *)
Fixpoint remove_first {V} `{Identity V} (x : V) (vs : list V) : option (list V) :=
  match vs with
  | [] => None
  | v :: vs' =>
      if Nat.eqb (oid v) (oid x) then Some vs'
      else match remove_first x vs' with
           | Some r => Some (v :: r)
           | None => None
           end
  end.

(** [l.remove(x)] *)
Definition list_remove {V} `{Identity V} (l : nat) (x : V) : M V unit :=
  let! vs := read_list l in
  match remove_first x vs with
  | Some vs' => store l (ListObj vs')
  | None => raise ValueError
  end.

(** [for v in l: body], on the list object [l]: the iterator keeps an index
    and, before each round, compares it with the current length of the
    list, so items appended to [l] by the body are visited too.  [fuel]
    bounds the number of rounds. *)
Fixpoint for_in {V} (fuel : nat) (l : nat) (i : nat) (body : V → M V unit)
  : M V unit :=
  match fuel with
  | O => raise OutOfFuel
  | S fuel' =>
      let! vs := read_list l in
      match vs !! i with
      | None => ret tt
      | Some v => do! body v in for_in fuel' l (S i) body
      end
  end.

(** A loop over items that the body cannot reach (a local snapshot). *)
Fixpoint foldM {V A B} (f : B → A → M V B) (xs : list A) (acc : B) : M V B :=
  match xs with
  | [] => ret acc
  | x :: xs' => let! acc' := f acc x in foldM f xs' acc'
  end.

(** ** Float helpers *)

(** The float nearest to an integer (ties to even); infinite when the
    integer is too large. *)
Definition float_of_int (z : Z) : float :=
  SF2Prim (binary_normalize prec emax z 0 false).

(** [float(z)] of an integer: [OverflowError] when out of range. *)
Definition to_float (z : Z) : result float :=
  let f := float_of_int z in
  if is_infinity f then Raise OverflowError else Ok f.

(** [x / y] on floats: [ZeroDivisionError] when [y] is zero. *)
Definition float_div (x y : float) : result float :=
  if (y =? 0)%float then Raise ZeroDivisionError else Ok (x / y)%float.

(** A computation that only returns or raises. *)
Definition lift {V A} (r : result A) : M V A := λ w, (r, w).

Definition py_float {V} (z : Z) : M V float := lift (to_float z).

Definition py_div {V} (x y : float) : M V float := lift (float_div x y).

(** [x <= y] on floats, as a proposition. *)
Definition fle (x y : float) : Prop := (x <=? y)%float = true.

#[global] Instance fle_dec x y : Decision (fle x y).
Proof. unfold fle. apply _. Defined.

(** A value [random.random()] can return: a float in [0, 1). *)
Definition is_draw (r : float) : Prop :=
  (0 <=? r)%float = true ∧ (r <? 1)%float = true.

(** ** class SimpleVirus *)

Module SimpleVirus.

Record t : Type := mk {
  id : nat;
  maxBirthProb : float;
  clearProb : float
}.

#[global] Instance identity : Identity t := id.

Definition __init__ {V} (maxBirthProb clearProb : float) : M V t :=
  let! self := fresh in
  ret (mk self maxBirthProb clearProb).

Definition doesClear {V} (self : t) : M V bool :=
  let! random_float := random in
  if (random_float <=? clearProb self)%float then ret true else ret false.

Definition reproduce {V} (self : t) (popDensity : float) : M V t :=
  let probability := (maxBirthProb self * (1 - popDensity))%float in
  let! random_float := random in
  if (random_float <=? probability)%float
  then __init__ (maxBirthProb self) (clearProb self)
  else raise NoChildException.

End SimpleVirus.

(** ** class ResistantVirus(SimpleVirus) *)

Module ResistantVirus.

(** [resistances] is a dict from drug names to flags.  Several viruses may
    hold the same dict object; no method writes to a dict after it has been
    handed to a constructor, so dicts are carried as values. *)
Record t : Type := mk {
  id : nat;
  maxBirthProb : float;
  clearProb : float;
  resistances : gmap string bool;
  mutProb : float
}.

#[global] Instance identity : Identity t := id.

Definition __init__ {V} (maxBirthProb clearProb : float)
    (resistances : gmap string bool) (mutProb : float) : M V t :=
  let! self := fresh in
  ret (mk self maxBirthProb clearProb resistances mutProb).

(** The inherited methods see the object as a [SimpleVirus]. *)
Definition as_simple (self : t) : SimpleVirus.t :=
  SimpleVirus.mk (id self) (maxBirthProb self) (clearProb self).

(** inherited from [SimpleVirus] *)
Definition doesClear {V} (self : t) : M V bool :=
  SimpleVirus.doesClear (as_simple self).

Definition getResistance {V} (self : t) (drug : string) : M V bool :=
  match resistances self !! drug with
  | None => raise (KeyError drug)
  | Some flag => if flag : bool then ret true else ret false
  end.

(** The dict [offres] built by the inner loop of [reproduce]. *)
Definition flipped (res : gmap string bool) : gmap string bool :=
  map_fold (λ (resistance : string) (flag : bool) (offres : gmap string bool),
              if flag then <[resistance := false]> offres
              else <[resistance := true]> offres) ∅ res.

Definition reproduce {V} (self : t) (popDensity : float)
    (activeDrugs : list string) : M V t :=
  let! resistance :=
    foldM (λ (resistance : bool) drug,
             let! r := getResistance self drug in
             if negb r then ret false else ret resistance)
          activeDrugs true in
  if resistance || Nat.eqb (length activeDrugs) 0 then
    let probability := (maxBirthProb self * (1 - popDensity))%float in
    let! randomFloat := random in
    if (randomFloat <=? probability)%float then
      let! randomRes := random in
      if (randomRes <=? mutProb self)%float then
        let offres := flipped (resistances self) in
        __init__ (maxBirthProb self) (clearProb self) offres (mutProb self)
      else
        __init__ (maxBirthProb self) (clearProb self) (resistances self)
                 (mutProb self)
    else raise NoChildException
  else raise NoChildException.

End ResistantVirus.

(** ** Attributes of patient objects *)

(** [self.viruses] *)
Definition get_viruses {V} (self : nat) : M V nat :=
  λ w, match heap w !! self with
       | Some (SimplePatientObj viruses _) => (Ok viruses, w)
       | Some (PatientObj viruses _ _) => (Ok viruses, w)
       | _ => (Raise AttributeError, w)
       end.

(** [self.maxPop] *)
Definition get_maxPop {V} (self : nat) : M V Z :=
  λ w, match heap w !! self with
       | Some (SimplePatientObj _ maxPop) => (Ok maxPop, w)
       | Some (PatientObj _ maxPop _) => (Ok maxPop, w)
       | _ => (Raise AttributeError, w)
       end.

(** [self.drugs] *)
Definition get_drugs {V} (self : nat) : M V (list string) :=
  λ w, match heap w !! self with
       | Some (PatientObj _ _ drugs) => (Ok drugs, w)
       | _ => (Raise AttributeError, w)
       end.

(** [self.viruses = l] *)
Definition set_viruses {V} (self : nat) (l : nat) : M V unit :=
  λ w, match heap w !! self with
       | Some (SimplePatientObj _ maxPop) =>
           store self (SimplePatientObj l maxPop) w
       | Some (PatientObj _ maxPop drugs) =>
           store self (PatientObj l maxPop drugs) w
       | _ => (Raise AttributeError, w)
       end.

(** [self.drugs.append(d)] *)
Definition append_drug {V} (self : nat) (d : string) : M V unit :=
  λ w, match heap w !! self with
       | Some (PatientObj viruses maxPop drugs) =>
           store self (PatientObj viruses maxPop (drugs ++ [d])) w
       | _ => (Raise AttributeError, w)
       end.

(** ** class SimplePatient *)

Module SimplePatient.

Definition __init__ {V} (viruses : nat) (maxPop : Z) : M V nat :=
  alloc (SimplePatientObj viruses maxPop).

Definition getTotalPop {V} (self : nat) : M V nat :=
  let! viruses := get_viruses self in
  list_len viruses.

Definition update (fuel : nat) (self : nat) : M SimpleVirus.t nat :=
  let! viruses := get_viruses self in
  let! virus_pop := list_copy viruses in
  let! viruses := get_viruses self in
  do! for_in fuel viruses 0 (λ virus,
        let! cleared := SimpleVirus.doesClear virus in
        if cleared then list_remove virus_pop virus else ret tt) in
  let! n := list_len virus_pop in
  let! maxPop := get_maxPop self in
  let! m := py_float maxPop in
  let! popDensity := py_div (float_of_int (Z.of_nat n)) m in
  let! copy := list_copy virus_pop in
  do! set_viruses self copy in
  do! for_in fuel virus_pop 0 (λ virus,
        except_NoChild (
          let! offspring := SimpleVirus.reproduce virus popDensity in
          let! viruses := get_viruses self in
          list_append viruses offspring)) in
  getTotalPop self.

End SimplePatient.

(** ** class Patient(SimplePatient) *)

Module Patient.

Definition __init__ {V} (viruses : nat) (maxPop : Z) : M V nat :=
  alloc (PatientObj viruses maxPop []).

(** inherited from [SimplePatient] *)
Definition getTotalPop {V} (self : nat) : M V nat :=
  SimplePatient.getTotalPop self.

Definition addPrescription {V} (self : nat) (newDrug : string)
  : M V (list string) :=
  let! drugs := get_drugs self in
  do! (if bool_decide (newDrug ∈ drugs) then ret tt
       else append_drug self newDrug) in
  get_drugs self.

Definition getPrescriptions {V} (self : nat) : M V (list string) :=
  get_drugs self.

(** The flag [resistance] after the inner loop over [drugResist]. *)
Definition resist_flag {V} (virus : ResistantVirus.t)
    (drugResist : list string) : M V bool :=
  foldM (λ (resistance : bool) drug,
           let! r := ResistantVirus.getResistance virus drug in
           if r then ret true else ret false)
        drugResist false.

Definition getResistPop (self : nat) (drugResist : list string)
  : M ResistantVirus.t nat :=
  let! viruses := get_viruses self in
  let! vs := read_list viruses in
  let! resistPop :=
    foldM (λ (resistPop : list ResistantVirus.t) virus,
             let! resistance := resist_flag virus drugResist in
             if resistance then ret (resistPop ++ [virus])
             else ret resistPop)
          vs [] in
  ret (length resistPop).

(** The counter [count] of the source is written and never read. *)
Definition update (fuel : nat) (self : nat) : M ResistantVirus.t nat :=
  let! viruses := get_viruses self in
  let! virus_pop := list_copy viruses in
  let! viruses := get_viruses self in
  do! for_in fuel viruses 0 (λ virus,
        let! cleared := ResistantVirus.doesClear virus in
        if cleared then list_remove virus_pop virus else ret tt) in
  let! n := list_len virus_pop in
  let! maxPop := get_maxPop self in
  let! m := py_float maxPop in
  let! popDensity := py_div (float_of_int (Z.of_nat n)) m in
  let! copy := list_copy virus_pop in
  do! set_viruses self copy in
  do! for_in fuel virus_pop 0 (λ virus,
        except_NoChild (
          let! offspring :=
            (let! drugs := get_drugs self in
             ResistantVirus.reproduce virus popDensity drugs) in
          let! viruses := get_viruses self in
          list_append viruses offspring)) in
  getTotalPop self.

End Patient.

(** ** The two [update] methods, as one

    [SimplePatient.update] and [Patient.update] are the same statements but
    for the call of [reproduce]; [reproduce_call self virus popDensity] stands
    for that call. *)

Section Update.
Context {V : Type} `{Identity V}.
Variable doesClear : V → M V bool.
Variable reproduce_call : nat → V → float → M V V.

Definition clear_body (virus_pop : nat) (virus : V) : M V unit :=
  let! cleared := doesClear virus in
  if cleared then list_remove virus_pop virus else ret tt.

Definition reproduce_body (self : nat) (popDensity : float) (virus : V)
  : M V unit :=
  except_NoChild (
    let! offspring := reproduce_call self virus popDensity in
    let! viruses := get_viruses self in
    list_append viruses offspring).

Definition update_with (fuel : nat) (self : nat) : M V nat :=
  let! viruses := get_viruses self in
  let! virus_pop := list_copy viruses in
  let! viruses := get_viruses self in
  do! for_in fuel viruses 0 (clear_body virus_pop) in
  let! n := list_len virus_pop in
  let! maxPop := get_maxPop self in
  let! m := py_float maxPop in
  let! popDensity := py_div (float_of_int (Z.of_nat n)) m in
  let! copy := list_copy virus_pop in
  do! set_viruses self copy in
  do! for_in fuel virus_pop 0 (reproduce_body self popDensity) in
  SimplePatient.getTotalPop self.

End Update.

(** The call [virus.reproduce(popDensity, self.drugs)] of [Patient.update]. *)
Definition Patient_reproduce_call (self : nat) (virus : ResistantVirus.t)
    (popDensity : float) : M ResistantVirus.t ResistantVirus.t :=
  let! drugs := get_drugs self in
  ResistantVirus.reproduce virus popDensity drugs.

(** A loop over a fixed sequence of items. *)
Fixpoint for_each {V A} (xs : list A) (body : A → M V unit) : M V unit :=
  match xs with
  | [] => ret tt
  | x :: xs' => do! body x in for_each xs' body
  end.

(** The density [len(virus_pop) / float(maxPop)] computed by [update]. *)
Definition density (n : nat) (maxPop : Z) : result float :=
  match to_float maxPop with
  | Ok m => float_div (float_of_int (Z.of_nat n)) m
  | Raise e => Raise e
  end.

(** * Vocabulary of the properties *)

(** The list reference held by a patient object. *)
Definition viruses_of {V} (o : option (obj V)) : option nat :=
  match o with
  | Some (SimplePatientObj viruses _) => Some viruses
  | Some (PatientObj viruses _ _) => Some viruses
  | _ => None
  end.

(** The viruses a patient currently holds: the items of the list object
    its [viruses] attribute refers to. *)
Definition population {V} (w : World V) (self : nat) : option (list V) :=
  match viruses_of (heap w !! self) with
  | Some l => match heap w !! l with
              | Some (ListObj vs) => Some vs
              | _ => None
              end
  | None => None
  end.

(** The constructor raised instead of returning an object. *)
Definition rejected {V A} (r : result A * World V) : Prop :=
  ∃ e, fst r = Raise e.

(** [drugs] are all keys of the resistance dict of [self]. *)
Definition tracks (self : ResistantVirus.t) (drugs : list string) : Prop :=
  ∀ d, d ∈ drugs → is_Some (ResistantVirus.resistances self !! d).

Definition resistantb (self : ResistantVirus.t) (d : string) : bool :=
  match ResistantVirus.resistances self !! d with
  | Some true => true
  | _ => false
  end.

(** [self] is resistant to every drug of [drugs]. *)
Definition resistant_to_all (self : ResistantVirus.t) (drugs : list string)
  : Prop :=
  ∀ d, d ∈ drugs → ResistantVirus.resistances self !! d = Some true.

(** The probability [maxBirthProb * (1 - popDensity)] of a birth. *)
Definition birth_prob (maxBirthProb popDensity : float) : float :=
  (maxBirthProb * (1 - popDensity))%float.

(** The offspring profile the specification describes: every trait has a
    draw of its own, [draw_of k] for the key [k], and is negated exactly when
    that draw is [<=] [mutProb]. *)
Definition spec_offspring_profile (res : gmap string bool) (mutProb : float)
    (draw_of : string → float) : gmap string bool :=
  map_imap (λ k (flag : bool),
              Some (if (draw_of k <=? mutProb)%float then negb flag else flag))
           res.

(** The count the specification describes: the viruses resistant to every
    drug of [drugs]. *)
Definition count_resistant_to_all (vs : list ResistantVirus.t)
    (drugs : list string) : nat :=
  length (filter (λ v, forallb (resistantb v) drugs = true) vs).

(** The flag [getResistPop] ends its inner loop with: the resistance to the
    last drug of the list, [False] for an empty list. *)
Definition last_resistant (v : ResistantVirus.t) (drugs : list string) : bool :=
  match last drugs with
  | Some d => resistantb v d
  | None => false
  end.

(** The capacity held by a patient object. *)
Definition maxPop_of {V} (o : option (obj V)) : option Z :=
  match o with
  | Some (SimplePatientObj _ maxPop) => Some maxPop
  | Some (PatientObj _ maxPop _) => Some maxPop
  | _ => None
  end.

(** The patient object [o] once its [viruses] refers to [l]. *)
Definition rebind {V} (o : obj V) (l : nat) : obj V :=
  match o with
  | SimplePatientObj _ maxPop => SimplePatientObj l maxPop
  | PatientObj _ maxPop drugs => PatientObj l maxPop drugs
  | ListObj items => ListObj items
  end.

(** ** What a computation may change *)

(** Every object of the store was created before. *)
Definition wf {V} (w : World V) : Prop :=
  ∀ k, is_Some (heap w !! k) → k < next_oid w.

(** [w'] differs from [w] by draws consumed and objects created only. *)
Definition quiet {V} (w w' : World V) : Prop :=
  draws w' = draws w ∧ heap w' = heap w ∧
  pos w ≤ pos w' ∧ next_oid w ≤ next_oid w'.

Definition quiet_M {V A} (m : M V A) : Prop := ∀ w, quiet w (snd (m w)).

(** A computation that leaves the world as it is. *)
Definition reader {V A} (m : M V A) : Prop := ∀ w, snd (m w) = w.

(** The same patient object, up to the list it refers to. *)
Definition same_patient {V} (o o' : option (obj V)) : Prop :=
  match o, o' with
  | Some (SimplePatientObj _ m), Some (SimplePatientObj _ m') => m = m'
  | Some (PatientObj _ m ds), Some (PatientObj _ m' ds') => m = m' ∧ ds = ds'
  | _, _ => o = o'
  end.

(** What a method called on the patient [self] may do to a world in which
    the objects below [n0] exist: consume draws, create objects, rebind
    [self.viruses] to a list created since, and write to objects created
    since.  Every other object below [n0] is left as it is. *)
Record footprint {V} (self n0 : nat) (w w' : World V) : Prop := {
  fp_draws : draws w' = draws w;
  fp_pos : pos w ≤ pos w';
  fp_oid : next_oid w ≤ next_oid w';
  fp_others : ∀ k, k < n0 → k ≠ self → heap w' !! k = heap w !! k;
  fp_self : same_patient (heap w !! self) (heap w' !! self);
  fp_viruses :
    viruses_of (heap w' !! self) = viruses_of (heap w !! self) ∨
    ∃ l, viruses_of (heap w' !! self) = Some l ∧ n0 ≤ l ∧ l < next_oid w'
}.

(** [m], started where [P] holds, ends where [Q] holds of its value, or
    raises where [E] holds. *)
Definition hoare {V A} (P : World V → Prop) (m : M V A)
    (Q : A → World V → Prop) (E : World V → Prop) : Prop :=
  ∀ w, P w → match m w with
             | (Ok a, w') => Q a w'
             | (Raise _, w') => E w'
             end.

(** The invariant of [update], called on [self] in the world [w0] whose
    objects lie below [n0]; [rebound] is set once [self.viruses] refers to
    the list created by the call. *)
Definition update_inv {V} (self n0 : nat) (w0 : World V) (rebound : bool)
    (w : World V) : Prop :=
  wf w ∧ footprint self n0 w0 w ∧
  (rebound = true → ∃ l, viruses_of (heap w !! self) = Some l ∧ n0 ≤ l).

(** ** The interface of a drug-treated patient *)

Inductive call : Type :=
| CallGetTotalPop
| CallUpdate (fuel : nat)
| CallAddPrescription (newDrug : string)
| CallGetPrescriptions
| CallGetResistPop (drugResist : list string).

(** The world after a call on the patient [self]. *)
Definition perform (self : nat) (c : call) (w : World ResistantVirus.t)
  : World ResistantVirus.t :=
  match c with
  | CallGetTotalPop => snd (Patient.getTotalPop self w)
  | CallUpdate fuel => snd (Patient.update fuel self w)
  | CallAddPrescription newDrug => snd (Patient.addPrescription self newDrug w)
  | CallGetPrescriptions => snd (Patient.getPrescriptions self w)
  | CallGetResistPop drugResist => snd (Patient.getResistPop self drugResist w)
  end.

(** The drugs a patient is treated with. *)
Definition drugs_of {V} (w : World V) (self : nat) : option (list string) :=
  match heap w !! self with
  | Some (PatientObj _ _ drugs) => Some drugs
  | _ => None
  end.

(** The world after a sequence of [update] calls, each given by the patient
    it is called on and its fuel. *)
Definition run_updates (steps : list (nat * nat))
    (w : World ResistantVirus.t) : World ResistantVirus.t :=
  fold_left (λ w step, snd (Patient.update (snd step) (fst step) w)) steps w.

(** ** Two patients seeded with one list *)

(** The patient [p] refers to a list that exists, and that is the seed list
    [l] or was created after the objects below [n1]. *)
Definition refers_safely {V} (n1 l : nat) (w : World V) (p : nat) : Prop :=
  ∃ lp, viruses_of (heap w !! p) = Some lp ∧ lp < next_oid w ∧
        (lp = l ∨ n1 ≤ lp).

(** The invariant of any run of [update] calls on two patients [x] and [y]
    that were both given the list [l], holding [vs]. *)
Definition pair_inv {V} (x y l n1 : nat) (vs : list V) (w : World V) : Prop :=
  wf w ∧ n1 ≤ next_oid w ∧ heap w !! l = Some (ListObj vs) ∧
  refers_safely n1 l w x ∧ refers_safely n1 l w y.

(** ** What one [update] computes *)

(** The world [w] with the store [h]. *)
Definition with_heap {V} (h : gmap nat (obj V)) (w : World V) : World V :=
  mkWorld (draws w) (pos w) (next_oid w) h.

(** The viruses the first loop of [update] keeps: those whose clearance
    draw, the draw at position [p] for the first virus, [p + 1] for the
    second and so on, is not [<=] their [clearProb]. *)
Fixpoint survivors {V} (clearProb_of : V → float) (draws : nat → float)
    (p : nat) (vs : list V) : list V :=
  match vs with
  | [] => []
  | v :: vs' =>
      if (draws p <=? clearProb_of v)%float
      then survivors clearProb_of draws (S p) vs'
      else v :: survivors clearProb_of draws (S p) vs'
  end.

(** The second loop of [update] without the store: the offspring of
    [parents] in order, the exception other than [NoChildException] that
    stopped the loop, if any, and the world the calls of [reproduce] leave. *)
Fixpoint births {V} (call : V → M V V) (parents : list V) (w : World V)
  : list V * option exn * World V :=
  match parents with
  | [] => ([], None, w)
  | v :: parents' =>
      match call v w with
      | (Ok child, w') =>
          let '(children, e, w'') := births call parents' w' in
          (child :: children, e, w'')
      | (Raise NoChildException, w') => births call parents' w'
      | (Raise e, w') => ([], Some e, w')
      end
  end.

(** A patient whose viruses are distinct objects created before. *)
Definition healthy {V} `{Identity V} (w : World V) (self : nat)
    (vs : list V) : Prop :=
  wf w ∧ population w self = Some vs ∧ NoDup (oid <$> vs) ∧
  Forall (λ v, oid v < next_oid w) vs.

(** The counts returned by [steps] calls of [SimplePatient.update] in a row. *)
Fixpoint run_steps (steps fuel self : nat) : M SimpleVirus.t (list nat) :=
  match steps with
  | O => ret []
  | S steps' =>
      let! n := SimplePatient.update fuel self in
      let! rest := run_steps steps' fuel self in
      ret (n :: rest)
  end.

(** ** Sample data *)

(** A sequence of draws given by its first entries (then 0.5 for ever). *)
Definition tape (l : list float) : nat → float := λ n, nth n l 0.5%float.

(** A world without mutable objects, where [n] objects exist already. *)
Definition empty_world {V} (l : list float) (n : nat) : World V :=
  mkWorld (tape l) 0 n ∅.

Definition profile (guttagonol grimpex : bool) : gmap string bool :=
  <["guttagonol" := guttagonol]> (<["grimpex" := grimpex]> ∅).

(** A resistant virus with [maxBirthProb = 0.5], [clearProb = 0.25] and
    [mutProb = 0.5]. *)
Definition sample_virus (i : nat) (guttagonol grimpex : bool)
  : ResistantVirus.t :=
  ResistantVirus.mk i 0.5 0.25 (profile guttagonol grimpex) 0.5.

(** A world with one drug-treated patient, object 101, of capacity 1000,
    whose list of viruses, object 100, holds [vs]. *)
Definition sample_world (l : list float) (vs : list ResistantVirus.t)
    (drugs : list string) : World ResistantVirus.t :=
  mkWorld (tape l) 0 102
    (<[100 := ListObj vs]> (<[101 := PatientObj 100 1000 drugs]> ∅)).

(** A world with one basic patient, object 101, of capacity [maxPop], whose
    list of viruses, object 100, holds [vs]. *)
Definition simple_world (l : list float) (vs : list SimpleVirus.t)
    (maxPop : Z) : World SimpleVirus.t :=
  mkWorld (tape l) 0 102
    (<[100 := ListObj vs]> (<[101 := SimplePatientObj 100 maxPop]> ∅)).

(** * Properties *)

(** ** Running computations *)

Lemma bind_Ok {V A B} (m : M V A) (k : A → M V B) w a w' :
  m w = (Ok a, w') → bind m k w = k a w'.
Proof. intros E. unfold bind. by rewrite E. Qed.

Lemma bind_Raise {V A B} (m : M V A) (k : A → M V B) w e w' :
  m w = (Raise e, w') → bind m k w = (Raise e, w').
Proof. intros E. unfold bind. by rewrite E. Qed.

Lemma consume_consume {V} n m (w : World V) :
  consume n (consume m w) = consume (n + m) w.
Proof. unfold consume. simpl. f_equal. lia. Qed.

Lemma consume_0 {V} (w : World V) : consume 0 w = w.
Proof. by destruct w. Qed.

Lemma created_0 {V} (w : World V) : created 0 w = w.
Proof. by destruct w. Qed.

(** ** Floats *)

Lemma SFleb_refl x : x ≠ S754_nan → SFleb x x = true.
Proof.
  destruct x as [s|s| |s m e]; intros Hx; try done; unfold SFleb, SFcompare.
  - by destruct s.
  - rewrite Z.compare_refl, Pos.compare_cont_refl. by destruct s.
Qed.

Lemma draw_leb_refl r : is_draw r → fle r r.
Proof.
  intros [H0 _]. unfold fle. rewrite leb_spec in *.
  apply SFleb_refl. intros E. rewrite E in H0.
  by destruct (Prim2SF 0).
Qed.

(** ** The virus classes *)

Lemma SimpleVirus_doesClear_run {V} (self : SimpleVirus.t) (w : World V) :
  SimpleVirus.doesClear self w =
  (Ok (draws w (pos w) <=? SimpleVirus.clearProb self)%float, consume 1 w).
Proof.
  unfold SimpleVirus.doesClear, bind, random, ret.
  by destruct (_ <=? _)%float.
Qed.

Lemma SimpleVirus_reproduce_born {V} (self : SimpleVirus.t) d (w : World V) :
  fle (draws w (pos w)) (birth_prob (SimpleVirus.maxBirthProb self) d) →
  SimpleVirus.reproduce self d w =
  (Ok (SimpleVirus.mk (next_oid w) (SimpleVirus.maxBirthProb self)
         (SimpleVirus.clearProb self)),
   created 1 (consume 1 w)).
Proof.
  unfold fle, birth_prob. intros Hr.
  unfold SimpleVirus.reproduce, bind, random. by rewrite Hr.
Qed.

Lemma SimpleVirus_reproduce_not_born {V} (self : SimpleVirus.t) d
    (w : World V) :
  ¬ fle (draws w (pos w)) (birth_prob (SimpleVirus.maxBirthProb self) d) →
  SimpleVirus.reproduce self d w = (Raise NoChildException, consume 1 w).
Proof.
  unfold fle, birth_prob. intros Hr.
  unfold SimpleVirus.reproduce, bind, random.
  by destruct (_ <=? _)%float.
Qed.

(** C6: both threshold checks are inclusive.  [doesClear] returns [True]
    exactly when the draw is [<=] [clearProb].  [reproduce] produces an
    offspring exactly when the draw is [<=] [maxBirthProb * (1 - popDensity)]:
    it then returns a new object with the [maxBirthProb] and the [clearProb]
    of the parent, which is not the parent; otherwise it raises
    [NoChildException].  Either way one draw is consumed.  A draw equal to
    the threshold clears, respectively produces the offspring. *)
Theorem threshold_checks_inclusive :
  (∀ V (self : SimpleVirus.t) (w : World V),
     ∃ cleared, SimpleVirus.doesClear self w = (Ok cleared, consume 1 w) ∧
       (cleared = true ↔ fle (draws w (pos w)) (SimpleVirus.clearProb self))) ∧
  (∀ V (self : SimpleVirus.t) (d : float) (w : World V),
     let p := birth_prob (SimpleVirus.maxBirthProb self) d in
     let offspring := SimpleVirus.mk (next_oid w)
                        (SimpleVirus.maxBirthProb self)
                        (SimpleVirus.clearProb self) in
     (fle (draws w (pos w)) p →
      SimpleVirus.reproduce self d w
      = (Ok offspring, created 1 (consume 1 w))) ∧
     (¬ fle (draws w (pos w)) p →
      SimpleVirus.reproduce self d w = (Raise NoChildException, consume 1 w)) ∧
     (is_Ok (fst (SimpleVirus.reproduce self d w)) ↔ fle (draws w (pos w)) p) ∧
     (SimpleVirus.id self < next_oid w → offspring ≠ self)) ∧
  (∀ V (self : SimpleVirus.t) (d : float) (w : World V),
     is_draw (draws w (pos w)) →
     (draws w (pos w) = SimpleVirus.clearProb self →
      fst (SimpleVirus.doesClear self w) = Ok true) ∧
     (draws w (pos w) = birth_prob (SimpleVirus.maxBirthProb self) d →
      SimpleVirus.reproduce self d w
      = (Ok (SimpleVirus.mk (next_oid w) (SimpleVirus.maxBirthProb self)
               (SimpleVirus.clearProb self)),
         created 1 (consume 1 w)))).
Proof.
  split; [|split].
  - intros V self w. eexists. split; [apply SimpleVirus_doesClear_run|].
    unfold fle. done.
  - intros V self d w p offspring. split; [|split; [|split; [split|]]].
    + apply SimpleVirus_reproduce_born.
    + apply SimpleVirus_reproduce_not_born.
    + intros [child Hc].
      destruct (decide (fle (draws w (pos w)) p)) as [|Hn]; [done|].
      rewrite (SimpleVirus_reproduce_not_born _ _ _ Hn) in Hc. done.
    + intros Hr. rewrite (SimpleVirus_reproduce_born _ _ _ Hr). by eexists.
    + intros Hlt Heq. rewrite <- Heq in Hlt. simpl in Hlt. lia.
  - intros V self d w Hd. split; intros E.
    + rewrite SimpleVirus_doesClear_run. simpl. rewrite <- E.
      by rewrite (draw_leb_refl _ Hd).
    + apply SimpleVirus_reproduce_born.
      rewrite <- E. by apply draw_leb_refl.
Qed.

(** A draw of exactly [0.25 = 0.5 * (1 - 0.5)] produces an offspring: a new
    object, 1, with the parameters of its parent, object 0. *)
Lemma threshold_checks_inclusive_witness :
  SimpleVirus.reproduce (SimpleVirus.mk 0 0.5 0.125) 0.5
    (empty_world (V := SimpleVirus.t) [0.25%float] 1)
  = (Ok (SimpleVirus.mk 1 0.5 0.125),
     created 1 (consume 1 (empty_world [0.25%float] 1))).
Proof.
  refine (proj2 (proj2 (proj2 threshold_checks_inclusive) SimpleVirus.t
            (SimpleVirus.mk 0 0.5 0.125) 0.5%float
            (empty_world [0.25%float] 1) _) _).
  - split; reflexivity.
  - reflexivity.
Defined.

(** C7 as stated fails: the probabilities 2 and -1 are accepted for a
    virus, and the capacities 0 and -5 for a patient. *)
Lemma construction_unchecked_counterexample :
  ¬ rejected (SimpleVirus.__init__ 2 (-1) (simple_world [] [] 4)) ∧
  ¬ rejected (SimplePatient.__init__ 100 0 (simple_world [] [] 4)) ∧
  ¬ rejected (Patient.__init__ 100 (-5) (sample_world [] [] [])).
Proof. repeat split; intros [e He]; discriminate He. Qed.

(** C7, amended: the constructors check nothing.  Whatever the
    probabilities and the capacity, they return an object that stores the
    arguments as given; nothing is rejected, clamped or replaced. *)
Theorem construction_stores_arguments :
  (∀ V b c (w : World V),
     SimpleVirus.__init__ b c w =
     (Ok (SimpleVirus.mk (next_oid w) b c), created 1 w)) ∧
  (∀ V b c res m (w : World V),
     ResistantVirus.__init__ b c res m w =
     (Ok (ResistantVirus.mk (next_oid w) b c res m), created 1 w)) ∧
  (∀ V viruses maxPop (w : World V),
     ∃ w', SimplePatient.__init__ viruses maxPop w = (Ok (next_oid w), w') ∧
       heap w' !! next_oid w = Some (SimplePatientObj viruses maxPop)) ∧
  (∀ V viruses maxPop (w : World V),
     ∃ w', Patient.__init__ viruses maxPop w = (Ok (next_oid w), w') ∧
       heap w' !! next_oid w = Some (PatientObj viruses maxPop [])).
Proof.
  repeat split.
  - intros. eexists. split; [reflexivity|]. simpl. apply lookup_insert_eq.
  - intros. eexists. split; [reflexivity|]. simpl. apply lookup_insert_eq.
Qed.

(** ** Resistant viruses *)

Lemma getResistance_tracked {V} (self : ResistantVirus.t) drug (w : World V) :
  is_Some (ResistantVirus.resistances self !! drug) →
  ResistantVirus.getResistance self drug w = (Ok (resistantb self drug), w).
Proof.
  intros [flag Hf]. unfold ResistantVirus.getResistance, resistantb.
  rewrite Hf. by destruct flag.
Qed.

Lemma getResistance_missing {V} (self : ResistantVirus.t) drug (w : World V) :
  ResistantVirus.resistances self !! drug = None →
  ResistantVirus.getResistance self drug w = (Raise (KeyError drug), w).
Proof. intros Hf. unfold ResistantVirus.getResistance. by rewrite Hf. Qed.

(** The loop of [reproduce] over [activeDrugs]: with every drug tracked it
    ends with the conjunction of the flags, and draws nothing. *)
Lemma eligibility_loop {V} (self : ResistantVirus.t) drugs acc (w : World V) :
  tracks self drugs →
  foldM (λ (resistance : bool) drug,
           let! r := ResistantVirus.getResistance self drug in
           if negb r then ret false else ret resistance) drugs acc w
  = (Ok (acc && forallb (resistantb self) drugs), w).
Proof.
  revert acc. induction drugs as [|d drugs IH]; intros acc Ht; simpl.
  - by rewrite andb_true_r.
  - erewrite bind_Ok; last first.
    { erewrite bind_Ok; [|apply getResistance_tracked, Ht; left].
      instantiate (1 := w). instantiate (1 := acc && resistantb self d).
      by destruct (resistantb self d), acc. }
    rewrite IH; [by rewrite andb_assoc|].
    intros d' Hd'. apply Ht. by right.
Qed.

(** With an untracked drug in [activeDrugs] the loop raises [KeyError]. *)
Lemma eligibility_loop_missing {V} (self : ResistantVirus.t) drugs acc
    (w : World V) drug :
  drug ∈ drugs → ResistantVirus.resistances self !! drug = None →
  ∃ k, k ∈ drugs ∧ ResistantVirus.resistances self !! k = None ∧
    foldM (λ (resistance : bool) drug,
             let! r := ResistantVirus.getResistance self drug in
             if negb r then ret false else ret resistance) drugs acc w
    = (Raise (KeyError k), w).
Proof.
  revert acc. induction drugs as [|d drugs IH]; intros acc Hin Hnone.
  - by apply elem_of_nil in Hin.
  - destruct (ResistantVirus.resistances self !! d) as [flag|] eqn:Hd.
    + apply elem_of_cons in Hin as [->|Hin]; [congruence|].
      destruct (IH (acc && resistantb self d) Hin Hnone) as (k & Hk & Hkn & Hrun).
      exists k. split; [by right|]. split; [done|].
      simpl. erewrite bind_Ok; [exact Hrun|].
      erewrite bind_Ok; [|apply getResistance_tracked; by rewrite Hd].
      by destruct (resistantb self d), acc.
    + exists d. split; [by left|]. split; [done|].
      simpl. erewrite bind_Raise; [done|].
      erewrite bind_Raise; [done|]. by apply getResistance_missing.
Qed.

Lemma forallb_resistantb self drugs :
  forallb (resistantb self) drugs = true ↔ resistant_to_all self drugs.
Proof.
  rewrite forallb_forall. unfold resistant_to_all, resistantb.
  split; intros H d Hd.
  - apply list_elem_of_In in Hd. specialize (H d Hd).
    by destruct (ResistantVirus.resistances self !! d) as [[]|].
  - apply list_elem_of_In in Hd. by rewrite (H d Hd).
Qed.

(** The dict built by the mutation branch negates every flag. *)
Lemma flipped_fmap (res : gmap string bool) :
  ResistantVirus.flipped res = negb <$> res.
Proof.
  unfold ResistantVirus.flipped.
  induction res as [|k flag res Hk Hfold IH] using map_first_key_ind.
  - by rewrite map_fold_empty, fmap_empty.
  - rewrite map_fold_insert_first_key by done.
    rewrite IH, fmap_insert. by destruct flag.
Qed.

(** What [reproduce] does once the virus has passed the drug check. *)
Lemma reproduce_eligible {V} (self : ResistantVirus.t) d drugs (w : World V) :
  tracks self drugs →
  drugs = [] ∨ resistant_to_all self drugs →
  ResistantVirus.reproduce self d drugs w =
  if decide (fle (draws w (pos w))
               (birth_prob (ResistantVirus.maxBirthProb self) d))
  then (Ok (ResistantVirus.mk (next_oid w)
              (ResistantVirus.maxBirthProb self)
              (ResistantVirus.clearProb self)
              (if decide (fle (draws w (S (pos w)))
                            (ResistantVirus.mutProb self))
               then negb <$> ResistantVirus.resistances self
               else ResistantVirus.resistances self)
              (ResistantVirus.mutProb self)),
        created 1 (consume 2 w))
  else (Raise NoChildException, consume 1 w).
Proof.
  intros Ht Hel. unfold ResistantVirus.reproduce.
  erewrite bind_Ok; [|by apply eligibility_loop].
  rewrite andb_true_l.
  assert (forallb (resistantb self) drugs || Nat.eqb (length drugs) 0 = true)
    as ->.
  { destruct Hel as [->|Hel]; [done|].
    apply forallb_resistantb in Hel. by rewrite Hel. }
  unfold bind, random. simpl.
  destruct (decide (fle _ (birth_prob _ _))) as [Hb|Hb];
    unfold fle, birth_prob in Hb.
  - rewrite Hb. simpl.
    destruct (decide (fle _ (ResistantVirus.mutProb _))) as [Hm|Hm];
      unfold fle in Hm.
    + rewrite Hm, flipped_fmap. reflexivity.
    + apply not_true_is_false in Hm. rewrite Hm. reflexivity.
  - apply not_true_is_false in Hb. rewrite Hb. reflexivity.
Qed.

(** What [reproduce] does when the virus fails the drug check. *)
Lemma reproduce_ineligible {V} (self : ResistantVirus.t) d drugs (w : World V) :
  tracks self drugs →
  drugs ≠ [] → ¬ resistant_to_all self drugs →
  ResistantVirus.reproduce self d drugs w = (Raise NoChildException, w).
Proof.
  intros Ht Hne Hnot. unfold ResistantVirus.reproduce.
  erewrite bind_Ok; [|by apply eligibility_loop].
  rewrite andb_true_l.
  destruct (forallb (resistantb self) drugs) eqn:Hall.
  { by apply forallb_resistantb in Hall. }
  by destruct drugs.
Qed.

(** C4: the drug check of [ResistantVirus.reproduce].  With every active
    drug tracked by the virus: a non-empty [activeDrugs] the virus is not
    fully resistant to makes [reproduce] raise [NoChildException] without
    consuming a draw; an empty [activeDrugs], or resistance to every listed
    drug, leads to the birth draw, whose comparison with
    [maxBirthProb * (1 - popDensity)] alone decides the outcome, whatever
    else the resistance dict holds. *)
Theorem reproduce_eligibility V (self : ResistantVirus.t) (d : float)
    (activeDrugs : list string) (w : World V) :
  tracks self activeDrugs →
  (activeDrugs ≠ [] → ¬ resistant_to_all self activeDrugs →
   ResistantVirus.reproduce self d activeDrugs w
   = (Raise NoChildException, w)) ∧
  (activeDrugs = [] ∨ resistant_to_all self activeDrugs →
   let p := birth_prob (ResistantVirus.maxBirthProb self) d in
   (fle (draws w (pos w)) p →
    ∃ child w', ResistantVirus.reproduce self d activeDrugs w = (Ok child, w')
      ∧ pos w' = 2 + pos w) ∧
   (¬ fle (draws w (pos w)) p →
    ResistantVirus.reproduce self d activeDrugs w
    = (Raise NoChildException, consume 1 w))).
Proof.
  intros Ht. split.
  - by apply reproduce_ineligible.
  - intros Hel p. rewrite (reproduce_eligible _ _ _ _ Ht Hel).
    fold p. split; intros Hp; case_decide; try done. by eexists _, _.
Qed.

(** A virus resistant to guttagonol only, under guttagonol and grimpex. *)
Lemma reproduce_eligibility_witness :
  ResistantVirus.reproduce (sample_virus 0 true false) 0
    ["guttagonol"; "grimpex"] (empty_world (V := ResistantVirus.t) [] 1)
  = (Raise NoChildException, empty_world [] 1).
Proof.
  refine (proj1 (reproduce_eligibility ResistantVirus.t
                   (sample_virus 0 true false) 0%float
                   ["guttagonol"; "grimpex"] (empty_world [] 1) _) _ _).
  - intros d Hd. apply list_elem_of_In in Hd.
    destruct Hd as [<-|[<-|[]]]; by eexists.
  - discriminate.
  - intros H. specialize (H "grimpex").
    assert (Hin : "grimpex" ∈ ["guttagonol"; "grimpex"]) by (right; left).
    specialize (H Hin). vm_compute in H. discriminate H.
Defined.

(** C1, at a failing input.  The parent is resistant to guttagonol and not
    to grimpex, with [mutProb = 0.5]; the draws are 0.25 (birth), then 0.25
    and 0.75.  [reproduce] compares one draw, the second, with [mutProb] and
    negates both flags, consuming two draws in all; with a draw per trait one
    of the draws 0.25 and 0.75 flips its trait and the other does not,
    whichever trait gets which. *)
Theorem reproduce_one_draw_flips_every_trait :
  let w := empty_world (V := ResistantVirus.t) [0.25; 0.25; 0.75]%float 1 in
  let parent := sample_virus 0 true false in
  ResistantVirus.reproduce parent 0 [] w
  = (Ok (sample_virus 1 false true), created 1 (consume 2 w)) ∧
  spec_offspring_profile (profile true false) 0.5
    (λ k, if String.eqb k "guttagonol" then 0.25 else 0.75)%float
  = profile false false ∧
  spec_offspring_profile (profile true false) 0.5
    (λ k, if String.eqb k "guttagonol" then 0.75 else 0.25)%float
  = profile true true.
Proof.
  split; [|split]; by vm_compute.
Qed.

(** In general the offspring holds either the parent's dict or its
    negation on every key: one draw decides for all traits. *)
Lemma reproduce_offspring_profile {V} (self : ResistantVirus.t) d drugs
    (w w' : World V) child :
  tracks self drugs →
  ResistantVirus.reproduce self d drugs w = (Ok child, w') →
  pos w' = 2 + pos w ∧
  (ResistantVirus.resistances child = ResistantVirus.resistances self ∨
   ResistantVirus.resistances child = negb <$> ResistantVirus.resistances self).
Proof.
  intros Ht Hrun.
  assert (Hdec : (drugs = [] ∨ resistant_to_all self drugs) ∨
                 ¬ (drugs = [] ∨ resistant_to_all self drugs)).
  { destruct (forallb (resistantb self) drugs) eqn:Hall.
    - left. right. by apply forallb_resistantb.
    - destruct drugs; [by left; left|]. right. intros [?|Hr]; [done|].
      apply forallb_resistantb in Hr. congruence. }
  destruct Hdec as [Hel|Hel].
  - rewrite (reproduce_eligible _ _ _ _ Ht Hel) in Hrun.
    case_decide; [|done]. injection Hrun as <- <-. split; [done|].
    simpl. case_decide; auto.
  - rewrite reproduce_ineligible in Hrun; [done..| |];
      intros ?; apply Hel; auto.
Qed.

(** ** Counting resistant viruses *)

Lemma resist_flag_loop {V} (v : ResistantVirus.t) drugs acc (w : World V) :
  tracks v drugs →
  foldM (λ (resistance : bool) drug,
           let! r := ResistantVirus.getResistance v drug in
           if r then ret true else ret false) drugs acc w
  = (Ok (match last drugs with Some d => resistantb v d | None => acc end), w).
Proof.
  revert acc. induction drugs as [|d drugs IH]; intros acc Ht; [done|].
  simpl foldM. erewrite bind_Ok; last first.
  { erewrite bind_Ok; [|apply getResistance_tracked, Ht; left].
    instantiate (1 := w). instantiate (1 := resistantb v d).
    by destruct (resistantb v d). }
  rewrite IH by (intros d' Hd'; apply Ht; by right).
  rewrite last_cons. by destruct (last drugs).
Qed.

Lemma resist_flag_tracked {V} (v : ResistantVirus.t) drugs (w : World V) :
  tracks v drugs →
  Patient.resist_flag v drugs w = (Ok (last_resistant v drugs), w).
Proof. intros Ht. unfold Patient.resist_flag. by rewrite resist_flag_loop. Qed.

(** Whatever the dict holds, the inner loop leaves the world alone and
    either ends or raises [KeyError] for a listed drug; it raises when a
    listed drug is untracked. *)
Lemma resist_flag_loop_cases {V} (v : ResistantVirus.t) drugs acc
    (w : World V) :
  let run := foldM (λ (resistance : bool) drug,
                      let! r := ResistantVirus.getResistance v drug in
                      if r then ret true else ret false) drugs acc w in
  (tracks v drugs ∧ ∃ b, run = (Ok b, w)) ∨
  (∃ k, k ∈ drugs ∧ ResistantVirus.resistances v !! k = None ∧
        run = (Raise (KeyError k), w)).
Proof.
  revert acc. induction drugs as [|d drugs IH]; intros acc; simpl.
  - left. split; [|by eexists]. intros d Hd. by apply elem_of_nil in Hd.
  - destruct (ResistantVirus.resistances v !! d) as [flag|] eqn:Hd.
    + erewrite bind_Ok; last first.
      { erewrite bind_Ok; [|apply getResistance_tracked; by rewrite Hd].
        instantiate (1 := w). instantiate (1 := resistantb v d).
        by destruct (resistantb v d). }
      destruct (IH (resistantb v d)) as [[Ht Hb]|(k & Hk & Hkn & Hrun)].
      * left. split; [|done]. intros d' Hd'.
        apply elem_of_cons in Hd' as [->|Hd']; [by rewrite Hd|by apply Ht].
      * right. exists k. split; [by right|]. done.
    + right. exists d. split; [by left|]. split; [done|].
      erewrite bind_Raise; [done|].
      erewrite bind_Raise; [done|]. by apply getResistance_missing.
Qed.

(** The outer loop of [getResistPop] when every drug is tracked by every
    virus: it keeps the viruses whose flag is [True]. *)
Lemma getResistPop_loop {V} (vs : list ResistantVirus.t) drugs acc
    (w : World V) :
  (∀ v, v ∈ vs → tracks v drugs) →
  foldM (λ (resistPop : list ResistantVirus.t) virus,
           let! resistance := Patient.resist_flag virus drugs in
           if resistance then ret (resistPop ++ [virus]) else ret resistPop)
        vs acc w
  = (Ok (acc ++ filter (λ v, last_resistant v drugs = true) vs), w).
Proof.
  revert acc. induction vs as [|v vs IH]; intros acc Ht; simpl foldM.
  - by rewrite app_nil_r.
  - erewrite bind_Ok; last first.
    { erewrite bind_Ok; [|apply resist_flag_tracked, Ht; left].
      instantiate (1 := w).
      instantiate (1 := if last_resistant v drugs then acc ++ [v] else acc).
      by destruct (last_resistant v drugs). }
    rewrite IH by (intros v' Hv'; apply Ht; by right).
    rewrite filter_cons.
    destruct (last_resistant v drugs); case_decide; try done.
    by rewrite <- app_assoc.
Qed.

(** With a virus of the list that does not track a listed drug, the outer
    loop raises [KeyError]. *)
Lemma getResistPop_loop_missing {V} (vs : list ResistantVirus.t) drugs acc
    (w : World V) v drug :
  v ∈ vs → drug ∈ drugs → ResistantVirus.resistances v !! drug = None →
  ∃ k, k ∈ drugs ∧
    foldM (λ (resistPop : list ResistantVirus.t) virus,
             let! resistance := Patient.resist_flag virus drugs in
             if resistance then ret (resistPop ++ [virus]) else ret resistPop)
          vs acc w
    = (Raise (KeyError k), w).
Proof.
  intros Hv Hdrug Hnone. revert acc.
  induction vs as [|v0 vs IH]; intros acc; [by apply elem_of_nil in Hv|].
  simpl foldM. unfold Patient.resist_flag at 1.
  destruct (resist_flag_loop_cases v0 drugs false w)
    as [[Ht [b Hb]]|(k & Hk & _ & Hrun)].
  - apply elem_of_cons in Hv as [->|Hv].
    { destruct (Ht drug Hdrug) as [? ?]. congruence. }
    destruct (IH Hv (if b then acc ++ [v0] else acc)) as (k & Hk & Hrun).
    exists k. split; [done|].
    erewrite bind_Ok; [exact Hrun|].
    erewrite bind_Ok; [|exact Hb]. by destruct b.
  - exists k. split; [done|].
    erewrite bind_Raise; [done|]. erewrite bind_Raise; [done|]. exact Hrun.
Qed.

Lemma population_get_viruses {V} (w : World V) self vs :
  population w self = Some vs →
  ∃ l, get_viruses self w = (Ok l, w) ∧ read_list l w = (Ok vs, w) ∧
       viruses_of (heap w !! self) = Some l ∧ heap w !! l = Some (ListObj vs).
Proof.
  unfold population, get_viruses, read_list, viruses_of. intros Hp.
  destruct (heap w !! self) as [[| |]|]; try done;
    match goal with |- context [Ok ?l] => exists l end;
    destruct (heap w !! _) as [[| |]|]; naive_solver.
Qed.

Lemma getTotalPop_population {V} (w : World V) self vs :
  population w self = Some vs →
  SimplePatient.getTotalPop self w = (Ok (length vs), w).
Proof.
  intros (l & Hg & Hr & _)%population_get_viruses.
  unfold SimplePatient.getTotalPop, list_len.
  erewrite bind_Ok by exact Hg. by erewrite bind_Ok by exact Hr.
Qed.

(** What [getResistPop] counts when every listed drug is tracked by every
    virus: the viruses resistant to the last drug of the list. *)
Lemma getResistPop_tracked (w : World ResistantVirus.t) self vs drugs :
  population w self = Some vs →
  (∀ v, v ∈ vs → tracks v drugs) →
  Patient.getResistPop self drugs w
  = (Ok (length (filter (λ v, last_resistant v drugs = true) vs)), w).
Proof.
  intros (l & Hg & Hr & _)%population_get_viruses Ht.
  unfold Patient.getResistPop.
  erewrite bind_Ok by exact Hg. erewrite bind_Ok by exact Hr.
  by erewrite bind_Ok by (by apply getResistPop_loop).
Qed.

(** C2, at a failing input.  One virus, resistant to grimpex and not to
    guttagonol, is counted as resistant to [guttagonol, grimpex]: the flag
    of the inner loop is overwritten at every drug, so the last drug alone
    decides.  No virus of the population is resistant to both drugs. *)
Theorem getResistPop_last_drug_decides :
  let vs := [sample_virus 0 false true] in
  let w := sample_world [] vs [] in
  Patient.getResistPop 101 ["guttagonol"; "grimpex"] w = (Ok 1, w) ∧
  count_resistant_to_all vs ["guttagonol"; "grimpex"] = 0.
Proof. split; by vm_compute. Qed.

(** For an empty drug list [getResistPop] returns 0, whatever the
    population: the flag starts as [False] and no drug sets it. *)
Lemma getResistPop_empty_is_zero (w : World ResistantVirus.t) self vs :
  population w self = Some vs →
  Patient.getResistPop self [] w = (Ok 0, w).
Proof.
  intros Hp. rewrite (getResistPop_tracked w self vs []); [|done|].
  - clear Hp. induction vs as [|v vs IH]; [done|].
    rewrite filter_cons. by case_decide.
  - intros v _ d Hd. by apply elem_of_nil in Hd.
Qed.

(** C3, at a failing input.  A patient holding two viruses is asked for the
    viruses resistant to every drug of the empty list: [getResistPop]
    returns 0, where the population count is 2 and every virus is resistant
    to all of no drugs. *)
Theorem getResistPop_empty_list_counts_none :
  let vs := [sample_virus 0 true true; sample_virus 1 true false] in
  let w := sample_world [] vs [] in
  Patient.getResistPop 101 [] w = (Ok 0, w) ∧
  Patient.getTotalPop 101 w = (Ok 2, w) ∧
  count_resistant_to_all vs [] = 2.
Proof. split; [|split]; by vm_compute. Qed.

(** C10: a drug that is not a key of the resistance dict.  [getResistance]
    raises [KeyError]; [reproduce] with such a drug among [activeDrugs]
    raises [KeyError] for an untracked drug of the list with no draw
    consumed; [getResistPop] naming such a drug, for a patient holding the
    virus, raises [KeyError] for a listed drug.  The world is left as it
    was in all three. *)
Theorem untracked_drug_raises_KeyError :
  (∀ V (self : ResistantVirus.t) drug (w : World V),
     ResistantVirus.resistances self !! drug = None →
     ResistantVirus.getResistance self drug w = (Raise (KeyError drug), w)) ∧
  (∀ V (self : ResistantVirus.t) d activeDrugs drug (w : World V),
     drug ∈ activeDrugs →
     ResistantVirus.resistances self !! drug = None →
     ∃ k, k ∈ activeDrugs ∧ ResistantVirus.resistances self !! k = None ∧
       ResistantVirus.reproduce self d activeDrugs w
       = (Raise (KeyError k), w)) ∧
  (∀ (w : World ResistantVirus.t) patient vs virus drugResist drug,
     population w patient = Some vs → virus ∈ vs →
     drug ∈ drugResist →
     ResistantVirus.resistances virus !! drug = None →
     ∃ k, k ∈ drugResist ∧
       Patient.getResistPop patient drugResist w = (Raise (KeyError k), w)).
Proof.
  split; [|split].
  - intros. by apply getResistance_missing.
  - intros V self d activeDrugs drug w Hin Hnone.
    destruct (eligibility_loop_missing self activeDrugs true w drug Hin Hnone)
      as (k & Hk & Hkn & Hrun).
    exists k. split; [done|]. split; [done|].
    unfold ResistantVirus.reproduce. by erewrite bind_Raise.
  - intros w patient vs virus drugResist drug Hp Hv Hd Hnone.
    apply population_get_viruses in Hp as (l & Hg & Hr & _).
    destruct (getResistPop_loop_missing vs drugResist [] w virus drug
                Hv Hd Hnone) as (k & Hk & Hrun).
    exists k. split; [done|]. unfold Patient.getResistPop.
    erewrite bind_Ok by exact Hg. erewrite bind_Ok by exact Hr.
    by erewrite bind_Raise.
Qed.

(** A virus tracking guttagonol and grimpex, asked about ["zidovudine"]. *)
Lemma untracked_drug_raises_KeyError_witness :
  let v := sample_virus 0 true false in
  let w := sample_world [] [sample_virus 1 true true; v] [] in
  ResistantVirus.getResistance v "zidovudine" w
  = (Raise (KeyError "zidovudine"), w) ∧
  (∃ k, k ∈ ["guttagonol"; "zidovudine"] ∧
     ResistantVirus.resistances v !! k = None ∧
     ResistantVirus.reproduce v 0 ["guttagonol"; "zidovudine"] w
     = (Raise (KeyError k), w)) ∧
  (∃ k, k ∈ ["zidovudine"] ∧
     Patient.getResistPop 101 ["zidovudine"] w = (Raise (KeyError k), w)).
Proof.
  intros v w.
  assert (Hnone : ResistantVirus.resistances v !! "zidovudine" = None)
    by reflexivity.
  destruct untracked_drug_raises_KeyError as (H1 & H2 & H3).
  split; [|split].
  - exact (H1 _ v "zidovudine" w Hnone).
  - refine (H2 _ v 0%float ["guttagonol"; "zidovudine"] "zidovudine" w _ Hnone).
    right; left.
  - refine (H3 w 101 [sample_virus 1 true true; v] v ["zidovudine"]
              "zidovudine" _ _ _ Hnone).
    + reflexivity.
    + right; left.
    + left.
Defined.

(** ** The [update] methods *)

Lemma SimplePatient_update_with :
  SimplePatient.update
  = update_with SimpleVirus.doesClear (λ _ virus d, SimpleVirus.reproduce virus d).
Proof. reflexivity. Qed.

Lemma Patient_update_with :
  Patient.update = update_with ResistantVirus.doesClear Patient_reproduce_call.
Proof. reflexivity. Qed.

(** ** Reasoning about computations *)

Section Hoare.
Context {V : Type}.
Implicit Types (w : World V) (P E : World V → Prop).

Lemma hoare_bind {A B} P (m : M V A) (k : A → M V B) Q R E :
  hoare P m Q E → (∀ a, hoare (Q a) (k a) R E) → hoare P (bind m k) R E.
Proof.
  intros Hm Hk w HP. specialize (Hm w HP). unfold bind.
  destruct (m w) as [[a|e] w']; [|done]. by apply Hk.
Qed.

Lemma hoare_conseq {A} P P' (m : M V A) (Q Q' : A → World V → Prop) E E' :
  hoare P' m Q' E' → (∀ w, P w → P' w) → (∀ a w, Q' a w → Q a w) →
  (∀ w, E' w → E w) → hoare P m Q E.
Proof.
  intros Hm HP HQ HE w Hw. specialize (Hm w (HP w Hw)).
  destruct (m w) as [[a|e] w']; auto.
Qed.

Lemma hoare_reader {A} P (m : M V A) :
  reader m → hoare P m (λ a w, P w ∧ m w = (Ok a, w)) P.
Proof.
  intros Hr w HP. specialize (Hr w).
  destruct (m w) as [[a|e] w'] eqn:Hm; simpl in *; by subst.
Qed.

Lemma hoare_ret {A} P (a : A) : hoare P (ret a) (λ _, P) P.
Proof. by intros w HP. Qed.

Lemma hoare_raise {A} P (Q : A → World V → Prop) e : hoare P (raise e) Q P.
Proof. by intros w HP. Qed.

Lemma hoare_except_NoChild P (body : M V unit) E :
  hoare P body (λ _, E) E → hoare P (except_NoChild body) (λ _, E) E.
Proof.
  intros Hb w HP. specialize (Hb w HP). unfold except_NoChild.
  destruct (body w) as [[[]|e] w']; [exact Hb|]. destruct e; exact Hb.
Qed.

Lemma read_list_reader l : reader (read_list (V := V) l).
Proof. intros w. unfold read_list. by destruct (heap w !! l) as [[| |]|]. Qed.

Lemma hoare_for_in fuel l i (body : V → M V unit) E :
  (∀ v, hoare E (body v) (λ _, E) E) →
  hoare E (for_in fuel l i body) (λ _, E) E.
Proof.
  intros Hb. revert i. induction fuel as [|fuel IH]; intros i; simpl.
  - apply hoare_raise.
  - eapply hoare_bind; [apply hoare_reader, read_list_reader|].
    intros vs. simpl.
    apply hoare_conseq with (P' := E) (Q' := λ _, E) (E' := E);
      [|intros w HE; apply HE|done|done].
    destruct (vs !! i) as [v|]; [|apply hoare_ret].
    eapply hoare_bind; [apply Hb|]. intros []. apply IH.
Qed.

End Hoare.

(** ** Readers and quiet computations *)

Section Quiet.
Context {V : Type}.
Implicit Types (w : World V).

Lemma reader_bind {A B} (m : M V A) (k : A → M V B) :
  reader m → (∀ a, reader (k a)) → reader (bind m k).
Proof.
  intros Hm Hk w. unfold bind. specialize (Hm w).
  destruct (m w) as [[a|e] w']; simpl in *; subst; [apply Hk|done].
Qed.

Lemma reader_lift {A} (r : result A) : reader (lift (V := V) r).
Proof. done. Qed.

Lemma get_viruses_reader self : reader (get_viruses (V := V) self).
Proof. intros w. unfold get_viruses. by destruct (heap w !! self) as [[| |]|]. Qed.

Lemma get_maxPop_reader self : reader (get_maxPop (V := V) self).
Proof. intros w. unfold get_maxPop. by destruct (heap w !! self) as [[| |]|]. Qed.

Lemma get_drugs_reader self : reader (get_drugs (V := V) self).
Proof. intros w. unfold get_drugs. by destruct (heap w !! self) as [[| |]|]. Qed.

Lemma list_len_reader l : reader (list_len (V := V) l).
Proof. apply reader_bind; [apply read_list_reader|done]. Qed.

Lemma getTotalPop_reader self : reader (SimplePatient.getTotalPop (V := V) self).
Proof.
  apply reader_bind; [apply get_viruses_reader|intros; apply list_len_reader].
Qed.

Lemma quiet_refl w : quiet w w.
Proof. by repeat split. Qed.

Lemma quiet_trans w1 w2 w3 : quiet w1 w2 → quiet w2 w3 → quiet w1 w3.
Proof.
  intros (?&?&?&?) (?&?&?&?). repeat split; try congruence; lia.
Qed.

Lemma reader_quiet {A} (m : M V A) : reader m → quiet_M m.
Proof. intros Hm w. rewrite Hm. apply quiet_refl. Qed.

Lemma quiet_bind {A B} (m : M V A) (k : A → M V B) :
  quiet_M m → (∀ a, quiet_M (k a)) → quiet_M (bind m k).
Proof.
  intros Hm Hk w. unfold bind. specialize (Hm w).
  destruct (m w) as [[a|e] w']; simpl in *; [|done].
  eapply quiet_trans; [done|apply Hk].
Qed.

Lemma quiet_ret {A} (a : A) : quiet_M (ret (V := V) a).
Proof. intros w. apply quiet_refl. Qed.

Lemma quiet_raise {A} e : quiet_M (raise (V := V) (A := A) e).
Proof. intros w. apply quiet_refl. Qed.

Lemma quiet_random : quiet_M (random (V := V)).
Proof. intros w. repeat split; simpl; lia. Qed.

Lemma quiet_fresh : quiet_M (fresh (V := V)).
Proof. intros w. repeat split; simpl; lia. Qed.

Lemma quiet_foldM {A B} (f : B → A → M V B) xs acc :
  (∀ b a, quiet_M (f b a)) → quiet_M (foldM f xs acc).
Proof.
  intros Hf. revert acc. induction xs as [|x xs IH]; intros acc; simpl.
  - apply quiet_ret.
  - apply quiet_bind; [apply Hf|intros; apply IH].
Qed.

Lemma SimpleVirus_doesClear_quiet self :
  quiet_M (SimpleVirus.doesClear (V := V) self).
Proof.
  apply quiet_bind; [apply quiet_random|].
  intros r. destruct (_ <=? _)%float; apply quiet_ret.
Qed.

Lemma SimpleVirus_init_quiet b c : quiet_M (SimpleVirus.__init__ (V := V) b c).
Proof. apply quiet_bind; [apply quiet_fresh|intros; apply quiet_ret]. Qed.

Lemma SimpleVirus_reproduce_quiet self d :
  quiet_M (SimpleVirus.reproduce (V := V) self d).
Proof.
  apply quiet_bind; [apply quiet_random|].
  intros r. destruct (_ <=? _)%float;
    [apply SimpleVirus_init_quiet|apply quiet_raise].
Qed.

Lemma ResistantVirus_doesClear_quiet self :
  quiet_M (ResistantVirus.doesClear (V := V) self).
Proof. apply SimpleVirus_doesClear_quiet. Qed.

Lemma ResistantVirus_init_quiet b c res m :
  quiet_M (ResistantVirus.__init__ (V := V) b c res m).
Proof. apply quiet_bind; [apply quiet_fresh|intros; apply quiet_ret]. Qed.

Lemma getResistance_reader self drug :
  reader (ResistantVirus.getResistance (V := V) self drug).
Proof.
  intros w. unfold ResistantVirus.getResistance.
  by destruct (_ !! _) as [[]|].
Qed.

Lemma ResistantVirus_reproduce_quiet self d drugs :
  quiet_M (ResistantVirus.reproduce (V := V) self d drugs).
Proof.
  apply quiet_bind.
  - apply quiet_foldM. intros b drug. apply quiet_bind.
    + apply reader_quiet, getResistance_reader.
    + intros r. destruct (negb r); apply quiet_ret.
  - intros resistance. destruct (_ || _); [|apply quiet_raise].
    apply quiet_bind; [apply quiet_random|].
    intros r. destruct (_ <=? _)%float; [|apply quiet_raise].
    apply quiet_bind; [apply quiet_random|].
    intros r'. destruct (_ <=? _)%float; apply ResistantVirus_init_quiet.
Qed.

End Quiet.

Lemma Patient_reproduce_call_quiet self virus d :
  quiet_M (Patient_reproduce_call self virus d).
Proof.
  apply quiet_bind; [apply reader_quiet, get_drugs_reader|].
  intros drugs. apply ResistantVirus_reproduce_quiet.
Qed.

(** ** The footprint of [update] *)

Section Footprint.
Context {V : Type} {Hid : Identity V}.
Implicit Types (w : World V).

Lemma same_patient_refl (o : option (obj V)) : same_patient o o.
Proof. by destruct o as [[| |]|]. Qed.

Lemma same_patient_trans (o1 o2 o3 : option (obj V)) :
  same_patient o1 o2 → same_patient o2 o3 → same_patient o1 o3.
Proof.
  destruct o1 as [[| |]|], o2 as [[| |]|], o3 as [[| |]|]; simpl;
    intuition congruence.
Qed.

Lemma same_patient_drugs w w' self :
  same_patient (heap w !! self) (heap w' !! self) →
  drugs_of w' self = drugs_of w self.
Proof.
  unfold drugs_of.
  destruct (heap w !! self) as [[| |]|], (heap w' !! self) as [[| |]|];
    simpl; intuition congruence.
Qed.

Lemma footprint_refl self n0 w : footprint self n0 w w.
Proof. split; auto using same_patient_refl. Qed.

Lemma footprint_trans self n0 w1 w2 w3 :
  footprint self n0 w1 w2 → footprint self n0 w2 w3 → footprint self n0 w1 w3.
Proof.
  intros [Hd1 Hp1 Ho1 Hk1 Hs1 Hv1] [Hd2 Hp2 Ho2 Hk2 Hs2 Hv2]. split.
  - congruence.
  - lia.
  - lia.
  - intros k Hk Hne. rewrite Hk2, Hk1; done.
  - by eapply same_patient_trans.
  - destruct Hv2 as [Hv2|Hv2]; [|by right]. rewrite Hv2.
    destruct Hv1 as [Hv1|(l & Hl & ? & ?)]; [by left|].
    right. exists l. split; [done|]. lia.
Qed.

Lemma footprint_quiet self n0 w w' : quiet w w' → footprint self n0 w w'.
Proof.
  intros (Hd & Hh & Hp & Ho). split; auto; rewrite ?Hh;
    auto using same_patient_refl.
Qed.

Lemma wf_quiet w w' : wf w → quiet w w' → wf w'.
Proof.
  intros Hwf (_ & Hh & _ & Ho) k Hk. rewrite Hh in Hk.
  specialize (Hwf k Hk). lia.
Qed.

Lemma wf_store w l o : wf w → l < next_oid w → wf (snd (store l o w)).
Proof.
  intros Hwf Hl k. simpl. destruct (decide (k = l)) as [->|Hne]; [done|].
  rewrite lookup_insert_ne by done. apply Hwf.
Qed.

Section Inv.
Variables (self n0 : nat) (w0 : World V).
Hypothesis Hself : self < n0.
Hypothesis Hn0 : n0 ≤ next_oid w0.

Abbreviation inv := (update_inv self n0 w0).

Lemma inv_start : wf w0 → inv false w0.
Proof. intros Hwf. split; [done|]. split; [apply footprint_refl|done]. Qed.

Lemma inv_false w : wf w → footprint self n0 w0 w → inv false w.
Proof. intros. split; [done|]. by split. Qed.

Lemma inv_weaken b w : inv b w → inv false w.
Proof. intros (?&?&?). split; [done|]. by split. Qed.

Lemma inv_quiet b w w' : inv b w → quiet w w' → inv b w'.
Proof.
  intros (Hwf & Hfp & Hb) Hq. split; [by eapply wf_quiet|]. split.
  - eapply footprint_trans; [done|by apply footprint_quiet].
  - destruct Hq as (_ & -> & _). done.
Qed.

Lemma inv_store b w l o :
  inv b w → n0 ≤ l → l < next_oid w → inv b (snd (store l o w)).
Proof.
  intros (Hwf & Hfp & Hb) Hl Hlt. split; [by apply wf_store|]. split.
  - eapply footprint_trans; [done|]. split; simpl; auto.
    + intros k Hk _. apply lookup_insert_ne. lia.
    + rewrite lookup_insert_ne by lia. apply same_patient_refl.
    + left. rewrite lookup_insert_ne by lia. done.
  - simpl. rewrite lookup_insert_ne by lia. done.
Qed.

Lemma hoare_quiet {A} b (m : M V A) :
  quiet_M m → hoare (inv b) m (λ _, inv b) (inv b).
Proof.
  intros Hm w Hw. specialize (Hm w).
  destruct (m w) as [[a|e] w']; by eapply inv_quiet.
Qed.

Lemma hoare_pure {A} (φ : Prop) P (m : M V A) Q E :
  (φ → hoare P m Q E) → hoare (λ w, P w ∧ φ) m Q E.
Proof. intros Hm w [HP Hφ]. by apply Hm. Qed.

Lemma hoare_alloc b (o : obj V) :
  hoare (inv b) (alloc o) (λ r w, inv b w ∧ n0 ≤ r ∧ r < next_oid w) (inv b).
Proof.
  intros w Hw. unfold alloc, bind. simpl.
  assert (n0 ≤ next_oid w).
  { destruct Hw as (_ & [] & _). lia. }
  split; [|lia].
  apply (inv_store b (created 1 w) (next_oid w) o); [|done|simpl; lia].
  eapply inv_quiet; [done|]. apply quiet_fresh.
Qed.

Lemma hoare_list_copy b l :
  hoare (inv b) (list_copy l)
    (λ r w, inv b w ∧ n0 ≤ r ∧ r < next_oid w) (inv b).
Proof.
  eapply hoare_bind; [apply hoare_reader, read_list_reader|].
  intros vs.
  eapply hoare_conseq; [apply (hoare_alloc b)|by intros w [? _]|done|done].
Qed.

Lemma read_list_Some w l vs :
  read_list l w = (Ok vs, w) → heap w !! l = Some (ListObj vs).
Proof.
  unfold read_list. destruct (heap w !! l) as [[| |]|]; naive_solver.
Qed.

Lemma hoare_list_append b l v :
  n0 ≤ l → hoare (inv b) (list_append l v) (λ _, inv b) (inv b).
Proof.
  intros Hl. eapply hoare_bind; [apply hoare_reader, read_list_reader|].
  intros vs w [Hw Hr%read_list_Some]. simpl.
  apply inv_store; [done..|]. destruct Hw as (Hwf & _). apply Hwf.
  by rewrite Hr.
Qed.

Lemma hoare_list_remove b l v :
  n0 ≤ l → hoare (inv b) (list_remove l v) (λ _, inv b) (inv b).
Proof.
  intros Hl. eapply hoare_bind; [apply hoare_reader, read_list_reader|].
  intros vs w [Hw Hr%read_list_Some].
  destruct (remove_first v vs) as [vs'|]; [|done]. simpl.
  apply inv_store; [done..|]. destruct Hw as (Hwf & _). apply Hwf.
  by rewrite Hr.
Qed.

Lemma hoare_set_viruses l :
  n0 ≤ l →
  hoare (λ w, inv false w ∧ l < next_oid w) (set_viruses self l)
    (λ _, inv true) (inv false).
Proof.
  intros Hl w [(Hwf & Hfp & _) Hlt]. unfold set_viruses.
  destruct (heap w !! self) as [o|] eqn:Hs; [|by apply inv_false].
  assert (Hlt' : self < next_oid w) by (apply Hwf; by rewrite Hs).
  assert (Hstep : ∀ o', same_patient (Some o) (Some o') →
            viruses_of (Some o') = Some l →
            inv true (snd (store self o' w))).
  { intros o' Hsame Hv. split; [by apply wf_store|]. split.
    - eapply footprint_trans; [done|]. split; simpl; auto.
      + intros k _ Hne. by apply lookup_insert_ne.
      + by rewrite Hs, lookup_insert_eq.
      + right. exists l. by rewrite lookup_insert_eq.
    - intros _. exists l. simpl. by rewrite lookup_insert_eq. }
  destruct o as [vs|l' mp|l' mp ds]; [by apply inv_false|..]; by apply Hstep.
Qed.

Variable doesClear : V → M V bool.
Variable reproduce_call : nat → V → float → M V V.
Hypothesis doesClear_quiet : ∀ v, quiet_M (doesClear v).
Hypothesis reproduce_call_quiet : ∀ p v d, quiet_M (reproduce_call p v d).

Lemma hoare_clear_body b virus_pop v :
  n0 ≤ virus_pop →
  hoare (inv b) (clear_body doesClear virus_pop v) (λ _, inv b) (inv b).
Proof.
  intros Hl. eapply hoare_bind; [by apply hoare_quiet|].
  intros [|]; [by apply hoare_list_remove|apply hoare_ret].
Qed.

Lemma hoare_reproduce_body d v :
  hoare (inv true) (reproduce_body reproduce_call self d v)
    (λ _, inv true) (inv true).
Proof.
  apply hoare_except_NoChild.
  eapply hoare_bind; [by apply hoare_quiet|]. intros offspring.
  eapply hoare_bind; [apply hoare_reader, get_viruses_reader|].
  intros l w [Hw Hg].
  assert (n0 ≤ l) as Hl.
  { destruct Hw as (_ & _ & Hb). destruct (Hb eq_refl) as (l' & Hl' & ?).
    unfold get_viruses in Hg.
    destruct (heap w !! self) as [[| |]|]; naive_solver. }
  by apply hoare_list_append.
Qed.

Lemma hoare_update_with fuel :
  hoare (inv false) (update_with doesClear reproduce_call fuel self)
    (λ _, inv false) (inv false).
Proof.
  unfold update_with.
  eapply hoare_bind; [apply hoare_reader, get_viruses_reader|].
  intros viruses.
  eapply hoare_bind.
  { eapply hoare_conseq;
      [apply (hoare_list_copy false)|by intros w [? _]|done|done]. }
  intros virus_pop.
  apply hoare_conseq with
    (P' := λ w, inv false w ∧ n0 ≤ virus_pop)
    (Q' := λ _, inv false) (E' := inv false);
    [|by intros w (?&?&?)|done|done].
  apply hoare_pure. intros Hvp.
  eapply hoare_bind; [apply hoare_reader, get_viruses_reader|].
  intros viruses'.
  apply hoare_conseq with
    (P' := inv false) (Q' := λ _, inv false) (E' := inv false);
    [|by intros w [? _]|done|done].
  eapply hoare_bind; [apply hoare_for_in; intros v; by apply hoare_clear_body|].
  intros [].
  eapply hoare_bind; [apply hoare_reader, list_len_reader|]. intros n.
  eapply hoare_bind.
  { eapply hoare_conseq; [apply hoare_reader, get_maxPop_reader|
      by intros w [? _]|done|done]. }
  intros maxPop.
  eapply hoare_bind.
  { eapply hoare_conseq; [apply hoare_reader, (reader_lift (to_float maxPop))|
      by intros w [? _]|done|done]. }
  intros m.
  eapply hoare_bind.
  { eapply hoare_conseq; [apply hoare_reader, (reader_lift (float_div _ m))|
      by intros w [? _]|done|done]. }
  intros popDensity.
  eapply hoare_bind.
  { eapply hoare_conseq;
      [apply (hoare_list_copy false)|by intros w [? _]|done|done]. }
  intros copy.
  apply hoare_conseq with
    (P' := λ w, (inv false w ∧ copy < next_oid w) ∧ n0 ≤ copy)
    (Q' := λ _, inv false) (E' := inv false);
    [|by intros w (?&?&?)|done|done].
  apply hoare_pure. intros Hcopy.
  eapply hoare_bind; [by apply hoare_set_viruses|]. intros [].
  apply hoare_conseq with
    (P' := inv true) (Q' := λ _, inv true) (E' := inv true);
    [|done|intros _; apply inv_weaken|apply inv_weaken].
  eapply hoare_bind;
    [apply hoare_for_in; intros v; apply hoare_reproduce_body|].
  intros [].
  eapply hoare_conseq; [apply hoare_reader, getTotalPop_reader|
    done|by intros a w [? _]|done].
Qed.

End Inv.

(** [update] keeps the store well formed and stays within its footprint,
    whatever its outcome. *)
Lemma update_with_footprint doesClear reproduce_call fuel self w :
  (∀ v, quiet_M (doesClear v)) →
  (∀ p v d, quiet_M (reproduce_call p v d)) →
  wf w →
  let w' := snd (update_with doesClear reproduce_call fuel self w) in
  wf w' ∧ footprint self (next_oid w) w w'.
Proof.
  intros Hc Hr Hwf w'.
  destruct (heap w !! self) as [o|] eqn:Hs.
  - assert (Hlt : self < next_oid w) by (apply Hwf; by rewrite Hs).
    pose proof (hoare_update_with self (next_oid w) w Hlt (le_n _)
                  doesClear reproduce_call Hc Hr fuel w (inv_start _ _ _ Hwf))
      as Hh.
    subst w'. destruct (update_with _ _ _ _ _) as [[a|e] w']; simpl;
      by destruct Hh as (? & ? & _).
  - subst w'. unfold update_with, bind, get_viruses. rewrite Hs. simpl.
    split; [done|apply footprint_refl].
Qed.

End Footprint.

(** ** Prescriptions *)

Lemma addPrescription_present {V} (w : World V) self l mp ds d :
  heap w !! self = Some (PatientObj l mp ds) → d ∈ ds →
  Patient.addPrescription self d w = (Ok ds, w).
Proof.
  intros Hs Hd. unfold Patient.addPrescription, bind, get_drugs.
  rewrite Hs. rewrite bool_decide_eq_true_2 by done. simpl. by rewrite Hs.
Qed.

Lemma addPrescription_new {V} (w : World V) self l mp ds d :
  heap w !! self = Some (PatientObj l mp ds) → d ∉ ds →
  Patient.addPrescription self d w
  = (Ok (ds ++ [d]),
     mkWorld (draws w) (pos w) (next_oid w)
       (<[self := PatientObj l mp (ds ++ [d])]> (heap w))).
Proof.
  intros Hs Hd. unfold Patient.addPrescription, bind, get_drugs, append_drug.
  rewrite Hs. rewrite bool_decide_eq_false_2 by done. simpl.
  rewrite Hs. simpl. by rewrite lookup_insert_eq.
Qed.

Lemma reader_foldM {V A B} (f : B → A → M V B) xs acc :
  (∀ b a, reader (f b a)) → reader (foldM f xs acc).
Proof.
  intros Hf. revert acc. induction xs as [|x xs IH]; intros acc; [done|].
  simpl. apply reader_bind; [apply Hf|intros; apply IH].
Qed.

Lemma getResistPop_reader self drugResist :
  reader (Patient.getResistPop self drugResist).
Proof.
  apply reader_bind; [apply get_viruses_reader|]. intros l.
  apply reader_bind; [apply read_list_reader|]. intros vs.
  apply reader_bind; [|done].
  apply reader_foldM. intros resistPop virus.
  apply reader_bind.
  - apply reader_foldM. intros b drug.
    apply reader_bind; [apply getResistance_reader|]. by intros [|].
  - by intros [|].
Qed.

(** A call on [target] leaves the drug list of [self] alone or extends it. *)
Lemma perform_drugs w target c self ds :
  wf w → drugs_of w self = Some ds →
  ∃ ds', drugs_of (perform target c w) self = Some ds' ∧ ds `prefix_of` ds'.
Proof.
  intros Hwf Hds.
  assert (Hsame : ∀ w', heap w' !! self = heap w !! self →
            ∃ ds', drugs_of w' self = Some ds' ∧ ds `prefix_of` ds').
  { intros w' Hh. exists ds. unfold drugs_of in *. by rewrite Hh. }
  destruct c as [|fuel|d| |drugResist]; simpl.
  - apply Hsame. by rewrite getTotalPop_reader.
  - rewrite Patient_update_with.
    destruct (update_with_footprint ResistantVirus.doesClear
                Patient_reproduce_call fuel target w
                ResistantVirus_doesClear_quiet Patient_reproduce_call_quiet Hwf)
      as [_ Hfp].
    destruct (decide (self = target)) as [->|Hne].
    + exists ds. split; [|done]. rewrite <- Hds.
      apply same_patient_drugs, Hfp.
    + apply Hsame. apply Hfp; [|done]. apply Hwf.
      unfold drugs_of in Hds. by destruct (heap w !! self).
  - destruct (heap w !! target) as [[vs|l mp|l mp dt]|] eqn:Ht;
      try (apply Hsame; unfold Patient.addPrescription, bind, get_drugs;
           by rewrite Ht).
    destruct (decide (d ∈ dt)) as [Hin|Hin].
    + apply Hsame. by rewrite (addPrescription_present w target l mp dt d).
    + rewrite (addPrescription_new w target l mp dt d) by done.
      unfold drugs_of in *. simpl.
      destruct (decide (self = target)) as [->|Hne].
      * rewrite lookup_insert_eq. rewrite Ht in Hds. injection Hds as <-.
        eexists. split; [done|]. by apply prefix_app_r.
      * rewrite lookup_insert_ne by done. by exists ds.
  - apply Hsame. unfold Patient.getPrescriptions. by rewrite get_drugs_reader.
  - apply Hsame. by rewrite getResistPop_reader.
Qed.

(** C8: [addPrescription] is idempotent.  A drug already administered
    leaves the list and the world unchanged; a new drug is appended at the
    end; a second call with the same drug returns the same list and changes
    nothing.  No call of the interface, on this or another patient, removes a
    drug: the list before a call is a prefix of the list after it. *)
Theorem addPrescription_idempotent :
  (∀ V (w : World V) self l mp ds d,
     heap w !! self = Some (PatientObj l mp ds) →
     (d ∈ ds → Patient.addPrescription self d w = (Ok ds, w)) ∧
     (d ∉ ds →
      Patient.addPrescription self d w
      = (Ok (ds ++ [d]),
         mkWorld (draws w) (pos w) (next_oid w)
           (<[self := PatientObj l mp (ds ++ [d])]> (heap w)))) ∧
     (let first := Patient.addPrescription self d w in
      Patient.addPrescription self d (snd first) = first)) ∧
  (∀ w target c self ds,
     wf w → drugs_of w self = Some ds →
     ∃ ds', drugs_of (perform target c w) self = Some ds' ∧
            ds `prefix_of` ds').
Proof.
  split; [|apply perform_drugs].
  intros V w self l mp ds d Hs.
  split; [by apply (addPrescription_present w self l mp)|].
  split; [by apply (addPrescription_new w self l mp)|].
  destruct (decide (d ∈ ds)) as [Hin|Hin]; simpl.
  - rewrite (addPrescription_present w self l mp ds d) by done. simpl.
    by rewrite (addPrescription_present w self l mp ds d).
  - rewrite (addPrescription_new w self l mp ds d) by done. simpl.
    erewrite addPrescription_present; [done|by apply lookup_insert_eq|].
    apply elem_of_app. right. by left.
Qed.

(** Guttagonol prescribed twice; an [update] keeps the prescription. *)
Lemma addPrescription_idempotent_witness :
  let w := sample_world [] [sample_virus 0 true true] ["guttagonol"] in
  Patient.addPrescription 101 "guttagonol" w = (Ok ["guttagonol"], w) ∧
  ∃ ds', drugs_of (perform 101 (CallUpdate 2) w) 101 = Some ds' ∧
         ["guttagonol"] `prefix_of` ds'.
Proof.
  intros w. destruct addPrescription_idempotent as [Hadd Hcall]. split.
  - refine (proj1 (Hadd _ w 101 100 1000%Z ["guttagonol"] "guttagonol" _) _).
    + reflexivity.
    + left.
  - refine (Hcall w 101 (CallUpdate 2) 101 ["guttagonol"] _ _).
    + intros k [o Hk]. unfold w, sample_world in *. simpl in *.
      destruct (decide (k = 100)) as [->|]; [lia|].
      destruct (decide (k = 101)) as [->|]; [lia|].
      by rewrite !lookup_insert_ne, lookup_empty in Hk.
    + reflexivity.
Defined.

(** ** Isolation of patients *)

Lemma Patient_update_footprint fuel self (w : World ResistantVirus.t) :
  wf w →
  wf (snd (Patient.update fuel self w)) ∧
  footprint self (next_oid w) w (snd (Patient.update fuel self w)).
Proof.
  intros Hwf. rewrite Patient_update_with.
  apply update_with_footprint;
    auto using ResistantVirus_doesClear_quiet, Patient_reproduce_call_quiet.
Qed.

Lemma population_intro {V} (w : World V) p l vs :
  viruses_of (heap w !! p) = Some l → heap w !! l = Some (ListObj vs) →
  population w p = Some vs.
Proof. intros Hp Hl. unfold population. by rewrite Hp, Hl. Qed.

(** An [update] of [p] changes neither another patient [q] nor the list
    [q] refers to. *)
Lemma update_leaves_other fuel p q lq (w : World ResistantVirus.t) :
  wf w → p ≠ q → viruses_of (heap w !! q) = Some lq →
  lq < next_oid w → lq ≠ p →
  let w' := snd (Patient.update fuel p w) in
  heap w' !! q = heap w !! q ∧ heap w' !! lq = heap w !! lq ∧
  population w' q = population w q.
Proof.
  intros Hwf Hne Hq Hlq Hlqp w'.
  destruct (Patient_update_footprint fuel p w Hwf) as [_ Hfp].
  assert (Hq' : heap w' !! q = heap w !! q).
  { apply Hfp; [|done]. apply Hwf.
    by destruct (heap w !! q). }
  assert (Hl' : heap w' !! lq = heap w !! lq) by by apply Hfp.
  split; [done|]. split; [done|].
  unfold population. by rewrite Hq', Hq, Hl'.
Qed.

Lemma pair_inv_update x y l n1 vs fuel p (w : World ResistantVirus.t) :
  x < n1 → y < n1 → l < n1 → l ≠ x → l ≠ y → p = x ∨ p = y →
  pair_inv x y l n1 vs w →
  pair_inv x y l n1 vs (snd (Patient.update fuel p w)).
Proof.
  intros Hx Hy Hl Hlx Hly Hp (Hwf & Hn1 & Hseed & Hrx & Hry).
  destruct (Patient_update_footprint fuel p w Hwf) as [Hwf' Hfp].
  set (w' := snd (Patient.update fuel p w)) in *.
  assert (Hoid : next_oid w ≤ next_oid w') by apply Hfp.
  assert (Hkeep : ∀ q, refers_safely n1 l w q → q < n1 →
            refers_safely n1 l w' q).
  { intros q (lq & Hq & Hlq & Hor) Hqn.
    destruct (decide (q = p)) as [->|Hqp].
    - destruct (fp_viruses _ _ _ _ Hfp) as [Hv|(l' & Hv & Hge & Hlt)].
      + exists lq. rewrite Hv. split; [done|]. split; [lia|done].
      + exists l'. split; [done|]. split; [done|]. right. lia.
    - exists lq. rewrite (fp_others _ _ _ _ Hfp q) by (done || lia).
      split; [done|]. split; [lia|done]. }
  split; [done|]. split; [lia|]. split.
  - rewrite (fp_others _ _ _ _ Hfp l); [done|lia|]. destruct Hp; congruence.
  - split; by apply Hkeep.
Qed.

Lemma pair_inv_run x y l n1 vs steps (w : World ResistantVirus.t) :
  x < n1 → y < n1 → l < n1 → l ≠ x → l ≠ y →
  Forall (λ step, fst step = x ∨ fst step = y) steps →
  pair_inv x y l n1 vs w →
  pair_inv x y l n1 vs (run_updates steps w).
Proof.
  intros Hx Hy Hl Hlx Hly Hsteps. revert w.
  induction Hsteps as [|[p fuel] steps Hp _ IH]; intros w Hinv; [done|].
  simpl. apply IH. by apply pair_inv_update.
Qed.

(** C9: a patient built from the list of another.  [Patient(x.viruses,
    maxPop)] stores the very list object [l]; still, after any run of
    [update] calls on the two patients, the list [l] holds what it held when
    it was passed, and an [update] of either patient leaves the population of
    the other as it was.  (The first [update] of a patient rebinds its
    [viruses] to a copy and writes to the copy alone.) *)
Theorem patients_isolated (w0 : World ResistantVirus.t) x l vs maxPop :
  wf w0 →
  viruses_of (heap w0 !! x) = Some l →
  heap w0 !! l = Some (ListObj vs) →
  ∃ y w1,
    Patient.__init__ l maxPop w0 = (Ok y, w1) ∧ y ≠ x ∧
    population w1 x = Some vs ∧ population w1 y = Some vs ∧
    ∀ steps,
      Forall (λ step, fst step = x ∨ fst step = y) steps →
      let w := run_updates steps w1 in
      heap w !! l = Some (ListObj vs) ∧
      ∀ fuel,
        population (snd (Patient.update fuel x w)) y = population w y ∧
        population (snd (Patient.update fuel y w)) x = population w x.
Proof.
  intros Hwf Hx Hl.
  assert (Hxlt : x < next_oid w0).
  { apply Hwf. by destruct (heap w0 !! x). }
  assert (Hllt : l < next_oid w0) by (apply Hwf; by rewrite Hl).
  assert (Hlx : l ≠ x).
  { intros ->. rewrite Hl in Hx. done. }
  set (y := next_oid w0).
  set (w1 := snd (Patient.__init__ l maxPop w0)).
  assert (Hhx : heap w1 !! x = heap w0 !! x).
  { simpl. apply lookup_insert_ne. unfold y in *. lia. }
  assert (Hhl : heap w1 !! l = Some (ListObj vs)).
  { simpl. rewrite lookup_insert_ne by lia. done. }
  assert (Hhy : heap w1 !! y = Some (PatientObj l maxPop [])).
  { simpl. apply lookup_insert_eq. }
  exists y, w1. split; [done|]. split; [unfold y; lia|].
  split; [apply (population_intro _ _ l); [by rewrite Hhx|done]|].
  split; [apply (population_intro _ _ l); [by rewrite Hhy|done]|].
  assert (Hinv1 : pair_inv x y l (S y) vs w1).
  { split.
    { intros k Hk. simpl in *. destruct (decide (k = y)) as [->|Hne]; [lia|].
      rewrite lookup_insert_ne in Hk by done. specialize (Hwf k Hk). lia. }
    split; [done|]. split; [done|].
    split; exists l; [rewrite Hhx|rewrite Hhy]; simpl;
      (split; [done|]); (split; [lia|by left]). }
  intros steps Hsteps w.
  assert (Hinv : pair_inv x y l (S y) vs w).
  { apply pair_inv_run; [unfold y in *; lia..|done|done]. }
  destruct Hinv as (Hwfw & Hn & Hseed & (lx & Hvx & Hlxlt & Hlxor)
                    & (ly & Hvy & Hlylt & Hlyor)).
  split; [done|]. intros fuel. split.
  - apply (update_leaves_other fuel x y ly w); [done|unfold y; lia|done..|].
    destruct Hlyor as [->|?]; [done|lia].
  - apply (update_leaves_other fuel y x lx w); [done|unfold y; lia|done..|].
    destruct Hlxor as [->|?]; unfold y in *; lia.
Qed.

Lemma sample_world_wf l vs drugs : wf (sample_world l vs drugs).
Proof.
  intros k [o Hk]. unfold sample_world in *. simpl in *.
  destruct (decide (k = 100)) as [->|]; [lia|].
  destruct (decide (k = 101)) as [->|]; [lia|].
  by rewrite !lookup_insert_ne, lookup_empty in Hk.
Qed.

(** Two patients on the list of object 100, updated in turn. *)
Lemma patients_isolated_witness :
  let vs := [sample_virus 0 true false; sample_virus 1 false false] in
  ∃ y w1,
    Patient.__init__ 100 500 (sample_world [] vs []) = (Ok y, w1) ∧ y ≠ 101 ∧
    population w1 101 = Some vs ∧ population w1 y = Some vs ∧
    ∀ steps,
      Forall (λ step, fst step = 101 ∨ fst step = y) steps →
      let w := run_updates steps w1 in
      heap w !! 100 = Some (ListObj vs) ∧
      ∀ fuel,
        population (snd (Patient.update fuel 101 w)) y = population w y ∧
        population (snd (Patient.update fuel y w)) 101 = population w 101.
Proof.
  intros vs.
  apply (patients_isolated (sample_world [] vs []) 101 100 vs 500%Z).
  - apply sample_world_wf.
  - reflexivity.
  - reflexivity.
Defined.

(** ** Loops over list objects *)

(** A [for] loop whose body leaves the list it runs over as it is visits
    the items the list held at the start, once each. *)
Lemma for_in_snapshot {V} (Inv : World V → Prop) fuel l i
    (body : V → M V unit) vs w :
  (∀ v w, Inv w → heap w !! l = Some (ListObj vs) →
     Inv (snd (body v w)) ∧ heap (snd (body v w)) !! l = Some (ListObj vs)) →
  Inv w → heap w !! l = Some (ListObj vs) →
  length vs - i < fuel →
  for_in fuel l i body w = for_each (drop i vs) body w.
Proof.
  intros Hbody. revert i w.
  induction fuel as [|fuel IH]; intros i w Hinv Hl Hfuel; [lia|].
  simpl. unfold bind at 1. unfold read_list at 1. rewrite Hl.
  destruct (vs !! i) as [v|] eqn:Hi.
  - rewrite (drop_S _ _ _ Hi). simpl. unfold bind.
    destruct (Hbody v w Hinv Hl) as [Hinv' Hl'].
    destruct (body v w) as [[[]|e] w']; [|done].
    apply IH; [done..|].
    apply lookup_lt_Some in Hi. lia.
  - apply lookup_ge_None in Hi. by rewrite drop_ge.
Qed.

(** ** A step in which every virus survives and reproduces *)

Lemma get_viruses_run {V} (w : World V) self l :
  viruses_of (heap w !! self) = Some l → get_viruses self w = (Ok l, w).
Proof.
  unfold get_viruses, viruses_of.
  destruct (heap w !! self) as [[| |]|]; naive_solver.
Qed.

Lemma get_maxPop_run {V} (w : World V) self mp :
  maxPop_of (heap w !! self) = Some mp → get_maxPop self w = (Ok mp, w).
Proof.
  unfold get_maxPop, maxPop_of.
  destruct (heap w !! self) as [[| |]|]; naive_solver.
Qed.

Lemma read_list_run {V} (w : World V) l vs :
  heap w !! l = Some (ListObj vs) → read_list l w = (Ok vs, w).
Proof. intros Hl. unfold read_list. by rewrite Hl. Qed.

Lemma set_viruses_run {V} (w : World V) self o l0 l :
  heap w !! self = Some o → viruses_of (Some o) = Some l0 →
  set_viruses self l w = store self (rebind o l) w.
Proof.
  intros Hs Hv. unfold set_viruses. rewrite Hs. by destruct o.
Qed.

Section Doubling.
Context {V : Type} {Hid : Identity V}.
Variable as_simple : V → SimpleVirus.t.
Variable reproduce_call : nat → V → float → M V V.
Hypothesis reproduce_call_quiet : ∀ p v d, quiet_M (reproduce_call p v d).

Abbreviation doesClear := (λ v : V, SimpleVirus.doesClear (V := V) (as_simple v)).

(** The first loop when no draw clears: nothing is removed. *)
Lemma clear_pass_all_survive virus_pop rest (w : World V) :
  (∀ j v, rest !! j = Some v →
     ¬ fle (draws w (j + pos w)) (SimpleVirus.clearProb (as_simple v))) →
  for_each rest (clear_body doesClear virus_pop) w
  = (Ok tt, consume (length rest) w).
Proof.
  revert w. induction rest as [|v rest IH]; intros w Hdraws; simpl.
  - by rewrite consume_0.
  - unfold bind at 1, clear_body at 1, bind at 1.
    rewrite SimpleVirus_doesClear_run.
    pose proof (Hdraws 0 v eq_refl) as H0. unfold fle in H0. simpl in H0.
    apply not_true_is_false in H0. rewrite H0. simpl.
    rewrite IH.
    + f_equal. unfold consume. simpl. f_equal. lia.
    + intros j v' Hj. simpl.
      replace (j + S (pos w)) with (S j + pos w) by lia.
      by apply Hdraws.
Qed.

(** The body of the first loop never touches another list. *)
Lemma clear_body_frame virus_pop v l (w : World V) :
  l ≠ virus_pop →
  heap (snd (clear_body doesClear virus_pop v w)) !! l = heap w !! l.
Proof.
  intros Hne. unfold clear_body, bind. rewrite SimpleVirus_doesClear_run.
  destruct (_ <=? _)%float; [|done].
  unfold list_remove, bind, read_list. simpl.
  destruct (heap w !! virus_pop) as [[vs| |]|]; try done.
  destruct (remove_first v vs); [|done]. simpl.
  by apply lookup_insert_ne.
Qed.

(** The second loop when every call of [reproduce] returns an offspring,
    consuming [k] draws: one offspring per item is appended to the list
    [copy] the patient refers to. *)
Lemma reproduce_pass_all_born k self copy d rest cur (w : World V) :
  viruses_of (heap w !! self) = Some copy →
  heap w !! copy = Some (ListObj cur) →
  (∀ j v w', rest !! j = Some v →
     draws w' = draws w → pos w' = k * j + pos w →
     drugs_of w' self = drugs_of w self →
     ∃ c, reproduce_call self v d w' = (Ok c, created 1 (consume k w'))) →
  ∃ children w',
    for_each rest (reproduce_body reproduce_call self d) w = (Ok tt, w') ∧
    length children = length rest ∧
    heap w' = <[copy := ListObj (cur ++ children)]> (heap w) ∧
    pos w' = k * length rest + pos w.
Proof.
  revert cur w. induction rest as [|v rest IH]; intros cur w Hself Hcopy Hcall.
  - exists [], w. split; [done|]. split; [done|]. split; [|simpl; lia].
    rewrite app_nil_r. by rewrite insert_id.
  - assert (Hne : self ≠ copy).
    { intros ->. rewrite Hcopy in Hself. done. }
    destruct (Hcall 0 v w eq_refl eq_refl) as [c Hc]; [lia|done|].
    set (wb := mkWorld (draws w) (k + pos w) (S (next_oid w))
                 (<[copy := ListObj (cur ++ [c])]> (heap w))).
    assert (Hstep : reproduce_body reproduce_call self d v w = (Ok tt, wb)).
    { unfold reproduce_body, except_NoChild.
      erewrite bind_Ok by exact Hc.
      erewrite bind_Ok by (by apply get_viruses_run).
      unfold list_append.
      erewrite bind_Ok by (by apply read_list_run). done. }
    destruct (IH (cur ++ [c]) wb)
      as (children & w' & Hrun & Hlen & Hheap & Hpos).
    + simpl. by rewrite lookup_insert_ne.
    + simpl. apply lookup_insert_eq.
    + intros j v' w' Hj Hd Hp Hdr. apply (Hcall (S j) v' w' Hj).
      * done.
      * rewrite Hp. simpl. lia.
      * rewrite Hdr. unfold drugs_of. simpl. by rewrite lookup_insert_ne.
    + exists (c :: children), w'. split; [|split; [|split]].
      * simpl. erewrite bind_Ok by exact Hstep. done.
      * simpl. by rewrite Hlen.
      * rewrite Hheap. simpl. rewrite insert_insert_eq.
        by rewrite <- app_assoc.
      * rewrite Hpos. simpl. lia.
Qed.

(** The body of the second loop never touches a list other than the one
    the patient refers to. *)
Lemma reproduce_body_frame self copy d v l (w : World V) :
  viruses_of (heap w !! self) = Some copy → l ≠ copy → self ≠ copy →
  let w' := snd (reproduce_body reproduce_call self d v w) in
  viruses_of (heap w' !! self) = Some copy ∧ heap w' !! l = heap w !! l.
Proof.
  intros Hself Hl Hne. simpl.
  unfold reproduce_body, except_NoChild, bind.
  pose proof (reproduce_call_quiet self v d w) as (_ & Hh & _).
  destruct (reproduce_call self v d w) as [[c|e] wa]; simpl in Hh.
  - rewrite (get_viruses_run wa self copy) by (by rewrite Hh).
    unfold list_append, bind, read_list.
    destruct (heap wa !! copy) as [[vs| |]|]; simpl;
      rewrite ?lookup_insert_ne by done; by rewrite ?Hh.
  - destruct e; simpl; by rewrite Hh.
Qed.

Lemma viruses_of_rebind (o : obj V) l0 l :
  viruses_of (Some o) = Some l0 → viruses_of (Some (rebind o l)) = Some l.
Proof. by destruct o. Qed.

Lemma density_run n mp d (w : World V) :
  density n mp = Ok d →
  ∃ m, py_float mp w = (Ok m, w) ∧
       py_div (float_of_int (Z.of_nat n)) m w = (Ok d, w).
Proof.
  unfold density, py_float, py_div, lift. intros Hd.
  destruct (to_float mp) as [m|]; [|done]. exists m. by rewrite Hd.
Qed.

(** One [update] in which every clearance draw lets the virus survive and
    every call of [reproduce] returns an offspring. *)
Lemma update_with_doubles k fuel self o l mp vs d (w0 : World V) :
  wf w0 →
  heap w0 !! self = Some o →
  viruses_of (Some o) = Some l → maxPop_of (Some o) = Some mp →
  heap w0 !! l = Some (ListObj vs) →
  length vs < fuel →
  density (length vs) mp = Ok d →
  (∀ j v, vs !! j = Some v →
     ¬ fle (draws w0 (j + pos w0)) (SimpleVirus.clearProb (as_simple v))) →
  (∀ j v w', vs !! j = Some v →
     draws w' = draws w0 → pos w' = k * j + (length vs + pos w0) →
     drugs_of w' self = drugs_of w0 self →
     ∃ c, reproduce_call self v d w' = (Ok c, created 1 (consume k w'))) →
  ∃ children w',
    update_with doesClear reproduce_call fuel self w0
    = (Ok (length vs + length vs), w') ∧
    length children = length vs ∧
    population w' self = Some (vs ++ children) ∧
    pos w' = k * length vs + (length vs + pos w0).
Proof.
  intros Hwf Hs Hv Hmp Hl Hfuel Hd Hclear Hcall.
  set (n0 := next_oid w0).
  assert (Hself : self < n0) by (apply Hwf; by rewrite Hs).
  assert (Hllt : l < n0) by (apply Hwf; by rewrite Hl).
  set (w1 := mkWorld (draws w0) (pos w0) (S n0)
               (<[n0 := ListObj vs]> (heap w0))).
  set (w2 := consume (length vs) w1).
  set (w3 := mkWorld (draws w0) (length vs + pos w0) (S (S n0))
               (<[S n0 := ListObj vs]> (heap w1))).
  set (w4 := mkWorld (draws w0) (length vs + pos w0) (S (S n0))
               (<[self := rebind o (S n0)]> (heap w3))).
  assert (H1 : list_copy l w0 = (Ok n0, w1)).
  { unfold list_copy. by erewrite bind_Ok by (by apply read_list_run). }
  assert (H2 : for_in fuel l 0 (clear_body doesClear n0) w1 = (Ok tt, w2)).
  { rewrite (for_in_snapshot (λ _, True) fuel l 0 _ vs w1); [| |done| |lia].
    - rewrite drop_0. by apply clear_pass_all_survive.
    - intros v w _ Hw. split; [done|].
      rewrite clear_body_frame; [done|lia].
    - simpl. rewrite lookup_insert_ne by lia. done. }
  assert (H3 : list_len n0 w2 = (Ok (length vs), w2)).
  { unfold list_len.
    erewrite bind_Ok;
      [|apply read_list_run; simpl; apply lookup_insert_eq].
    done. }
  assert (H4 : get_maxPop self w2 = (Ok mp, w2)).
  { apply get_maxPop_run. simpl. rewrite lookup_insert_ne by lia.
    by rewrite Hs. }
  destruct (density_run _ _ _ w2 Hd) as (m & H5 & H6).
  assert (H7 : list_copy n0 w2 = (Ok (S n0), w3)).
  { unfold list_copy.
    erewrite bind_Ok;
      [|apply read_list_run; simpl; apply lookup_insert_eq].
    done. }
  assert (H8 : set_viruses self (S n0) w3 = (Ok tt, w4)).
  { rewrite (set_viruses_run w3 self o l); [done| |done].
    simpl. rewrite !lookup_insert_ne by lia. done. }
  assert (Hv4 : viruses_of (heap w4 !! self) = Some (S n0)).
  { simpl. rewrite lookup_insert_eq. by eapply viruses_of_rebind. }
  assert (Hc4 : heap w4 !! S n0 = Some (ListObj vs)).
  { simpl. rewrite lookup_insert_ne by lia. apply lookup_insert_eq. }
  assert (Hd4 : drugs_of w4 self = drugs_of w0 self).
  { unfold drugs_of. simpl. rewrite lookup_insert_eq, Hs. by destruct o. }
  destruct (reproduce_pass_all_born k self (S n0) d vs vs w4 Hv4 Hc4)
    as (children & w5 & H9 & Hlen & Hheap & Hpos).
  { intros j v w' Hj Hdr Hp Hdrugs. apply (Hcall j v w' Hj); [done|done|].
    by rewrite Hdrugs. }
  assert (H9' : for_in fuel n0 0 (reproduce_body reproduce_call self d) w4
                = (Ok tt, w5)).
  { rewrite (for_in_snapshot
               (λ w, viruses_of (heap w !! self) = Some (S n0))
               fuel n0 0 _ vs w4); [by rewrite drop_0| |done| |lia].
    - intros v w Hw Hn.
      destruct (reproduce_body_frame self (S n0) d v n0 w Hw) as [? Hsame];
        [lia..|].
      split; [done|]. by rewrite Hsame.
    - simpl. rewrite !lookup_insert_ne by lia. apply lookup_insert_eq. }
  assert (Hpop : population w5 self = Some (vs ++ children)).
  { apply (population_intro _ _ (S n0)).
    - rewrite Hheap, lookup_insert_ne by lia. done.
    - rewrite Hheap. apply lookup_insert_eq. }
  exists children, w5. split; [|done].
  unfold update_with.
  erewrite bind_Ok by (apply get_viruses_run; by rewrite Hs).
  erewrite bind_Ok by exact H1.
  erewrite bind_Ok
    by (apply get_viruses_run; simpl; rewrite lookup_insert_ne by lia;
        by rewrite Hs).
  erewrite bind_Ok by exact H2.
  erewrite bind_Ok by exact H3. erewrite bind_Ok by exact H4.
  erewrite bind_Ok by exact H5. erewrite bind_Ok by exact H6.
  erewrite bind_Ok by exact H7. erewrite bind_Ok by exact H8.
  erewrite bind_Ok by exact H9'.
  rewrite (getTotalPop_population _ _ _ Hpop).
  by rewrite length_app, Hlen.
Qed.

(** *** Enough fuel

    With more fuel than the patient has viruses, [update] never runs out of
    fuel: both loops run over lists their bodies leave alone. *)

Lemma for_each_fueled {A} (xs : list A) (body : A → M V unit) (w : World V) :
  (∀ x w, fst (body x w) ≠ Raise OutOfFuel) →
  fst (for_each xs body w) ≠ Raise OutOfFuel.
Proof.
  intros Hbody. revert w. induction xs as [|x xs IH]; intros w; [done|].
  simpl. unfold bind. specialize (Hbody x w).
  destruct (body x w) as [[[]|e] w']; [apply IH|done].
Qed.

Lemma for_each_inv {A} (I : World V → Prop) (xs : list A)
    (body : A → M V unit) (w : World V) :
  (∀ x w, I w → I (snd (body x w))) → I w → I (snd (for_each xs body w)).
Proof.
  intros Hbody. revert w. induction xs as [|x xs IH]; intros w Hw; [done|].
  simpl. unfold bind. specialize (Hbody x w Hw).
  destruct (body x w) as [[[]|e] w']; [by apply IH|done].
Qed.

Lemma remove_first_length (x : V) vs r :
  remove_first x vs = Some r → S (length r) = length vs.
Proof.
  revert r. induction vs as [|v vs IH]; intros r; simpl; [done|].
  destruct (Nat.eqb _ _); [by intros [= ->]|].
  destruct (remove_first x vs) as [r'|]; [|done].
  intros [= <-]. simpl. by rewrite (IH r').
Qed.

Lemma clear_body_fueled virus_pop v (w : World V) :
  fst (clear_body doesClear virus_pop v w) ≠ Raise OutOfFuel.
Proof.
  unfold clear_body, bind. rewrite SimpleVirus_doesClear_run.
  destruct (_ <=? _)%float; [|done].
  unfold list_remove, bind, read_list. simpl.
  destruct (heap w !! virus_pop) as [[vs| |]|]; try done.
  by destruct (remove_first v vs).
Qed.

Lemma clear_body_shrinks virus_pop self o n v (w : World V) :
  self ≠ virus_pop →
  let I := λ w : World V,
    (∃ vs', heap w !! virus_pop = Some (ListObj vs') ∧ length vs' ≤ n) ∧
    heap w !! self = Some o ∧ virus_pop < next_oid w in
  I w → I (snd (clear_body doesClear virus_pop v w)).
Proof.
  intros Hne I ((vs' & Hvp & Hlen) & Hs & Hoid).
  unfold clear_body, bind. rewrite SimpleVirus_doesClear_run.
  destruct (_ <=? _)%float; [|by repeat split; eauto].
  unfold list_remove, bind, read_list. simpl. rewrite Hvp.
  destruct (remove_first v vs') as [r|] eqn:Hr; [|by repeat split; eauto].
  apply remove_first_length in Hr. repeat split; simpl.
  - exists r. rewrite lookup_insert_eq. split; [done|lia].
  - by rewrite lookup_insert_ne.
  - done.
Qed.

Hypothesis reproduce_call_fueled :
  ∀ p v d w, fst (reproduce_call p v d w) ≠ Raise OutOfFuel.

Lemma reproduce_body_fueled self d v (w : World V) :
  fst (reproduce_body reproduce_call self d v w) ≠ Raise OutOfFuel.
Proof.
  unfold reproduce_body, except_NoChild, bind.
  pose proof (reproduce_call_fueled self v d w) as Hc.
  destruct (reproduce_call self v d w) as [[c|e] wa]; [|by destruct e].
  unfold get_viruses, list_append, bind, read_list.
  destruct (heap wa !! self) as [[| |]|]; try done;
    by destruct (heap wa !! _) as [[| |]|].
Qed.

Lemma update_with_fueled fuel self vs (w0 : World V) :
  wf w0 → population w0 self = Some vs → length vs < fuel →
  fst (update_with doesClear reproduce_call fuel self w0) ≠ Raise OutOfFuel.
Proof.
  intros Hwf (l & Hg & _ & Hv & Hl)%population_get_viruses Hfuel.
  destruct (heap w0 !! self) as [o|] eqn:Hs; [|done].
  set (n0 := next_oid w0).
  assert (Hself : self < n0) by (apply Hwf; by rewrite Hs).
  assert (Hllt : l < n0) by (apply Hwf; by rewrite Hl).
  set (w1 := mkWorld (draws w0) (pos w0) (S n0)
               (<[n0 := ListObj vs]> (heap w0))).
  assert (H1 : list_copy l w0 = (Ok n0, w1)).
  { unfold list_copy. by erewrite bind_Ok by (by apply read_list_run). }
  unfold update_with.
  erewrite bind_Ok by exact Hg. erewrite bind_Ok by exact H1.
  erewrite bind_Ok
    by (apply get_viruses_run; simpl; rewrite lookup_insert_ne by lia;
        by rewrite Hs).
  unfold bind at 1.
  rewrite (for_in_snapshot (λ _, True) fuel l 0 _ vs w1); [| |done| |lia].
  2:{ intros v w _ Hw. split; [done|].
      rewrite clear_body_frame; [done|lia]. }
  2:{ simpl. rewrite lookup_insert_ne by lia. done. }
  rewrite drop_0.
  pose proof (for_each_fueled vs (clear_body doesClear n0) w1
                (clear_body_fueled n0)) as Hf1.
  pose proof (for_each_inv _ vs (clear_body doesClear n0) w1
                (λ v w, clear_body_shrinks n0 self o (length vs) v w
                          ltac:(lia))) as Hi1.
  destruct (for_each vs (clear_body doesClear n0) w1) as [[[]|e] w2];
    [|simpl in *; congruence].
  destruct Hi1 as ((vs' & Hvp & Hlen) & Hs2 & Hoid2).
  { split; [|split].
    - exists vs. simpl. by rewrite lookup_insert_eq.
    - simpl. rewrite lookup_insert_ne by lia. done.
    - simpl. lia. }
  simpl in Hvp, Hs2, Hoid2.
  unfold list_len.
  erewrite bind_Ok by (erewrite bind_Ok by (by apply read_list_run); done).
  unfold bind at 1, get_maxPop at 1. rewrite Hs2.
  assert (∃ mp, maxPop_of (Some o) = Some mp) as [mp Hmp].
  { destruct o; simpl in *; eauto; done. }
  assert ((match o with
           | SimplePatientObj _ maxPop => (Ok maxPop, w2)
           | PatientObj _ maxPop _ => (Ok maxPop, w2)
           | _ => (Raise AttributeError, w2)
           end) = (Ok mp, w2)) as ->.
  { destruct o; simpl in *; congruence. }
  unfold bind at 1, py_float, lift, to_float.
  destruct (is_infinity _); [done|].
  unfold bind at 1, py_div, lift, float_div.
  destruct (_ =? 0)%float; [done|].
  set (d := (_ / _)%float).
  set (c := next_oid w2).
  set (w3 := mkWorld (draws w2) (pos w2) (S c)
               (<[c := ListObj vs']> (heap w2))).
  assert (H7 : list_copy n0 w2 = (Ok c, w3)).
  { unfold list_copy. by erewrite bind_Ok by (by apply read_list_run). }
  erewrite bind_Ok by exact H7.
  set (w4 := mkWorld (draws w2) (pos w2) (S c)
               (<[self := rebind o c]> (heap w3))).
  assert (H8 : set_viruses self c w3 = (Ok tt, w4)).
  { rewrite (set_viruses_run w3 self o l); [done| |done].
    simpl. rewrite lookup_insert_ne by (unfold c; lia). done. }
  erewrite bind_Ok by exact H8.
  assert (Hv4 : viruses_of (heap w4 !! self) = Some c).
  { simpl. rewrite lookup_insert_eq. by eapply viruses_of_rebind. }
  unfold bind at 1.
  rewrite (for_in_snapshot (λ w, viruses_of (heap w !! self) = Some c)
             fuel n0 0 _ vs' w4); [| |done| |lia].
  2:{ intros v w Hw Hn.
      destruct (reproduce_body_frame self c d v n0 w Hw) as [? Hsame];
        [unfold c; lia..|].
      split; [done|]. by rewrite Hsame. }
  2:{ simpl. rewrite !lookup_insert_ne by (unfold c; lia). done. }
  rewrite drop_0.
  pose proof (for_each_fueled vs' (reproduce_body reproduce_call self d) w4
                (reproduce_body_fueled self d)) as Hf2.
  destruct (for_each vs' _ w4) as [[[]|e] w5];
    [|simpl in *; congruence].
  unfold SimplePatient.getTotalPop, list_len, bind, get_viruses, read_list.
  destruct (heap w5 !! self) as [[| |]|]; try done;
    by destruct (heap w5 !! _) as [[| |]|].
Qed.

End Doubling.

Lemma foldM_fueled {V A B} (f : B → A → M V B) xs acc (w : World V) :
  (∀ b a w, fst (f b a w) ≠ Raise OutOfFuel) →
  fst (foldM f xs acc w) ≠ Raise OutOfFuel.
Proof.
  intros Hf. revert acc w. induction xs as [|x xs IH]; intros acc w; [done|].
  simpl. unfold bind. specialize (Hf acc x w).
  destruct (f acc x w) as [[b|e] w']; [apply IH|done].
Qed.

Lemma ResistantVirus_reproduce_fueled {V} self d drugs (w : World V) :
  fst (ResistantVirus.reproduce self d drugs w) ≠ Raise OutOfFuel.
Proof.
  unfold ResistantVirus.reproduce. unfold bind at 1.
  match goal with |- context [foldM ?f drugs true w] =>
    pose proof (foldM_fueled f drugs true w) as Hf end.
  destruct (foldM _ drugs true w) as [[r|e] w1].
  - destruct (_ || _); [|done]. unfold bind, random. simpl.
    destruct (_ <=? _)%float; [|done]. by destruct (_ <=? _)%float.
  - simpl in *. intros [= ->]. apply Hf; [|done].
    intros b drug w'. unfold bind, ResistantVirus.getResistance.
    by destruct (_ !! _) as [[]|].
Qed.

(** Both [update] methods return or raise a Python exception when given
    more fuel than the patient has viruses. *)
Lemma update_enough_fuel :
  (∀ fuel self vs (w : World SimpleVirus.t),
     wf w → population w self = Some vs → length vs < fuel →
     fst (SimplePatient.update fuel self w) ≠ Raise OutOfFuel) ∧
  (∀ fuel self vs (w : World ResistantVirus.t),
     wf w → population w self = Some vs → length vs < fuel →
     fst (Patient.update fuel self w) ≠ Raise OutOfFuel).
Proof.
  split; intros fuel self vs w Hwf Hp Hfuel.
  - apply (update_with_fueled (λ v, v) (λ _ v d, SimpleVirus.reproduce v d)
             (λ _ v d, SimpleVirus_reproduce_quiet v d)) with (vs := vs);
      [|done..].
    intros _ v d w'. unfold SimpleVirus.reproduce, bind, random.
    by destruct (_ <=? _)%float.
  - apply (update_with_fueled ResistantVirus.as_simple Patient_reproduce_call
             Patient_reproduce_call_quiet) with (vs := vs); [|done..].
    intros p v d w'. unfold Patient_reproduce_call, bind, get_drugs.
    destruct (heap w' !! p) as [[| |]|]; try done.
    apply ResistantVirus_reproduce_fueled.
Qed.

(** C5 as stated fails for a drug-treated patient.  One virus that is not
    resistant to guttagonol, the drug administered, with [maxBirthProb = 1]
    and [clearProb = 0.25], in a patient of capacity 1000; every draw is 0.5.
    The clearance draw yields survival and any draw would give birth (0.5 is
    below [1 * (1 - 1/1000)]), yet the virus is turned away by the drug check
    of [reproduce] before it draws: [update] returns 1, not 2, after the one
    clearance draw, and the patient holds the virus it held. *)
Lemma update_doubles_population_counterexample :
  let v := ResistantVirus.mk 0 1 0.25 (profile false true) 0.5 in
  let vs := [v] in
  let w := sample_world [] vs ["guttagonol"] in
  let d := (1 / 1000)%float in
  wf w ∧ population w 101 = Some vs ∧
  drugs_of w 101 = Some ["guttagonol"] ∧
  density (length vs) 1000 = Ok d ∧
  (∀ j v', vs !! j = Some v' →
     ¬ fle (draws w (j + pos w)) (ResistantVirus.clearProb v')) ∧
  (∀ k, fle (draws w k) (birth_prob (ResistantVirus.maxBirthProb v) d)) ∧
  fst (Patient.update 2 101 w) = Ok 1 ∧
  fst (Patient.update 2 101 w) ≠ Ok (2 * length vs) ∧
  pos (snd (Patient.update 2 101 w)) = 1 ∧
  population (snd (Patient.update 2 101 w)) 101 = Some vs.
Proof.
  intros v vs w d.
  split; [apply sample_world_wf|]. split; [reflexivity|].
  split; [reflexivity|]. split; [by vm_compute|]. split.
  { intros [|j] v' Hj; simpl in Hj; [|discriminate Hj].
    injection Hj as <-. vm_compute. discriminate. }
  split.
  { intros k. assert (Hk : draws w k = 0.5%float) by (by destruct k).
    rewrite Hk. by vm_compute. }
  repeat split; by vm_compute.
Qed.

(** C5, amended: a step in which every virus survives and every virus
    reproduces doubles the population.  With [N] viruses, [N] clearance draws none of
    which clears, and [N] births (for a drug-treated patient every virus is
    resistant to every administered drug, so that each one makes its birth
    draw, followed by its mutation draw), [update] returns [2 * N]: the
    population is the [N] viruses followed by [N] offspring.  The draws
    consumed are those of the [N] parents, so no offspring was asked to
    reproduce: the second loop runs over [virus_pop], and the offspring are
    appended to another list object. *)
Theorem update_doubles_population :
  (∀ fuel self l mp vs d (w : World SimpleVirus.t),
     wf w →
     heap w !! self = Some (SimplePatientObj l mp) →
     heap w !! l = Some (ListObj vs) →
     length vs < fuel →
     density (length vs) mp = Ok d →
     (∀ j v, vs !! j = Some v →
        ¬ fle (draws w (j + pos w)) (SimpleVirus.clearProb v)) →
     (∀ j v, vs !! j = Some v →
        fle (draws w (j + (length vs + pos w)))
            (birth_prob (SimpleVirus.maxBirthProb v) d)) →
     ∃ children w',
       SimplePatient.update fuel self w = (Ok (2 * length vs), w') ∧
       length children = length vs ∧
       population w' self = Some (vs ++ children) ∧
       pos w' = 2 * length vs + pos w) ∧
  (∀ fuel self l mp drugs vs d (w : World ResistantVirus.t),
     wf w →
     heap w !! self = Some (PatientObj l mp drugs) →
     heap w !! l = Some (ListObj vs) →
     length vs < fuel →
     density (length vs) mp = Ok d →
     (∀ j v, vs !! j = Some v →
        ¬ fle (draws w (j + pos w)) (ResistantVirus.clearProb v)) →
     (∀ v, v ∈ vs → resistant_to_all v drugs) →
     (∀ j v, vs !! j = Some v →
        fle (draws w (2 * j + (length vs + pos w)))
            (birth_prob (ResistantVirus.maxBirthProb v) d)) →
     ∃ children w',
       Patient.update fuel self w = (Ok (2 * length vs), w') ∧
       length children = length vs ∧
       population w' self = Some (vs ++ children) ∧
       pos w' = 3 * length vs + pos w).
Proof.
  split.
  - intros fuel self l mp vs d w Hwf Hs Hl Hfuel Hd Hclear Hbirth.
    destruct (update_with_doubles (λ v, v)
                (λ _ v d, SimpleVirus.reproduce v d)
                (λ _ v d, SimpleVirus_reproduce_quiet v d)
                1 fuel self _ l mp vs d w Hwf Hs eq_refl eq_refl Hl Hfuel Hd
                Hclear)
      as (children & w' & Hrun & Hlen & Hpop & Hpos).
    { intros j v w' Hj Hdr Hp _. eexists.
      apply SimpleVirus_reproduce_born. rewrite Hdr, Hp.
      replace (1 * j + (length vs + pos w)) with (j + (length vs + pos w))
        by lia.
      by apply Hbirth. }
    exists children, w'. split; [|split; [done|split; [done|lia]]].
    replace (2 * length vs) with (length vs + length vs) by lia.
    exact Hrun.
  - intros fuel self l mp drugs vs d w Hwf Hs Hl Hfuel Hd Hclear Hres Hbirth.
    destruct (update_with_doubles ResistantVirus.as_simple
                Patient_reproduce_call Patient_reproduce_call_quiet
                2 fuel self _ l mp vs d w Hwf Hs eq_refl eq_refl Hl Hfuel Hd
                Hclear)
      as (children & w' & Hrun & Hlen & Hpop & Hpos).
    { intros j v w' Hj Hdr Hp Hdrugs.
      assert (Hv : v ∈ vs) by (apply list_elem_of_lookup; eauto).
      unfold Patient_reproduce_call.
      assert (Hg : get_drugs self w' = (Ok drugs, w')).
      { unfold drugs_of in Hdrugs. rewrite Hs in Hdrugs.
        unfold get_drugs. destruct (heap w' !! self) as [[| |]|]; try done.
        by injection Hdrugs as ->. }
      erewrite bind_Ok by exact Hg.
      rewrite reproduce_eligible.
      - rewrite Hdr, Hp. rewrite decide_True by (by apply Hbirth).
        by eexists.
      - intros drug Hdrug. by rewrite (Hres v Hv drug Hdrug).
      - right. by apply Hres. }
    exists children, w'. split; [|split; [done|split; [done|lia]]].
    replace (2 * length vs) with (length vs + length vs) by lia.
    exact Hrun.
Qed.

Lemma simple_world_wf l vs maxPop : wf (simple_world l vs maxPop).
Proof.
  intros k [o Hk]. unfold simple_world in *. simpl in *.
  destruct (decide (k = 100)) as [->|]; [lia|].
  destruct (decide (k = 101)) as [->|]; [lia|].
  by rewrite !lookup_insert_ne, lookup_empty in Hk.
Qed.

(** Two viruses each: no draw clears, every birth draw succeeds. *)
Lemma update_doubles_population_witness :
  (let vs := [SimpleVirus.mk 0 0.5 0.25; SimpleVirus.mk 1 0.5 0.25] in
   let w := simple_world [0.5; 0.5; 0.25; 0.25]%float vs 4 in
   ∃ children w',
     SimplePatient.update 3 101 w = (Ok (2 * length vs), w') ∧
     length children = length vs ∧
     population w' 101 = Some (vs ++ children) ∧
     pos w' = 2 * length vs + pos w) ∧
  (let vs := [sample_virus 0 true false; sample_virus 1 true true] in
   let w := sample_world [0.5; 0.5; 0.25; 0.75; 0.25; 0.75]%float vs
              ["guttagonol"] in
   ∃ children w',
     Patient.update 3 101 w = (Ok (2 * length vs), w') ∧
     length children = length vs ∧
     population w' 101 = Some (vs ++ children) ∧
     pos w' = 3 * length vs + pos w).
Proof.
  destruct update_doubles_population as [Hsimple Hpatient]. split.
  - intros vs w.
    apply (Hsimple 3 101 100 4%Z vs 0.5%float w).
    + apply simple_world_wf.
    + reflexivity.
    + reflexivity.
    + simpl. lia.
    + reflexivity.
    + intros [|[|j]] v Hj; simpl in Hj; try discriminate Hj;
        injection Hj as <-; vm_compute; discriminate.
    + intros [|[|j]] v Hj; simpl in Hj; try discriminate Hj;
        injection Hj as <-; vm_compute; reflexivity.
  - intros vs w.
    apply (Hpatient 3 101 100 1000%Z ["guttagonol"] vs (2 / 1000)%float w).
    + apply sample_world_wf.
    + reflexivity.
    + reflexivity.
    + simpl. lia.
    + reflexivity.
    + intros [|[|j]] v Hj; simpl in Hj; try discriminate Hj;
        injection Hj as <-; vm_compute; discriminate.
    + intros v Hv drug Hdrug.
      apply list_elem_of_In in Hdrug. destruct Hdrug as [<-|[]].
      apply list_elem_of_In in Hv. destruct Hv as [<-|[<-|[]]]; reflexivity.
    + intros [|[|j]] v Hj; simpl in Hj; try discriminate Hj;
        injection Hj as <-; vm_compute; reflexivity.
Defined.

(** ** Two steps worked out *)

(** Two viruses with the same parameters: the first survives (draw 0.5),
    the second is cleared (draw 0.125) and removed as the object it is.  The
    survivor reproduces (draw 0.25, mutation draw 0.75: no flip). *)
Example update_clears_one_of_two :
  let vs := [sample_virus 0 true false; sample_virus 1 true false] in
  let w := sample_world [0.5; 0.125; 0.25; 0.75]%float vs [] in
  fst (Patient.update 3 101 w) = Ok 2 ∧
  population (snd (Patient.update 3 101 w)) 101
  = Some [sample_virus 0 true false; sample_virus 104 true false] ∧
  population w 101 = Some vs ∧
  heap (snd (Patient.update 3 101 w)) !! 100 = Some (ListObj vs).
Proof. repeat split; by vm_compute. Qed.

(** Under guttagonol a virus that is not resistant to it makes no draw
    after its clearance draw and leaves the population as it is. *)
Example update_under_drug_no_birth :
  let vs := [sample_virus 0 false true] in
  let w := sample_world [0.5; 0.125]%float vs ["guttagonol"] in
  fst (Patient.update 2 101 w) = Ok 1 ∧
  pos (snd (Patient.update 2 101 w)) = 1 ∧
  population (snd (Patient.update 2 101 w)) 101 = Some vs.
Proof. repeat split; by vm_compute. Qed.

(** A capacity of 0 is accepted by the constructor and makes [update]
    raise [ZeroDivisionError], after the clearance draws. *)
Example update_zero_capacity :
  let w := simple_world [0.5]%float [SimpleVirus.mk 0 0.5 0.25] 0 in
  fst (SimplePatient.update 2 101 w) = Raise ZeroDivisionError ∧
  pos (snd (SimplePatient.update 2 101 w)) = 1.
Proof. repeat split; by vm_compute. Qed.

(** * Further properties of the classes *)

(** ** Counting resistant viruses, in general *)

(** The outer loop of [getResistPop] either finds every listed drug
    tracked by every virus and keeps those whose flag is [True], or raises
    [KeyError] for a listed drug; it leaves the world alone. *)
Lemma getResistPop_loop_cases {V} (vs : list ResistantVirus.t) drugs acc
    (w : World V) :
  let run :=
    foldM (λ (resistPop : list ResistantVirus.t) virus,
             let! resistance := Patient.resist_flag virus drugs in
             if resistance then ret (resistPop ++ [virus]) else ret resistPop)
          vs acc w in
  ((∀ v, v ∈ vs → tracks v drugs) ∧
   run = (Ok (acc ++ filter (λ v, last_resistant v drugs = true) vs), w)) ∨
  (∃ k, k ∈ drugs ∧ run = (Raise (KeyError k), w)).
Proof.
  revert acc. induction vs as [|v vs IH]; intros acc; simpl.
  - left. split; [by intros v Hv; apply elem_of_nil in Hv|].
    by rewrite app_nil_r.
  - destruct (resist_flag_loop_cases v drugs false w)
      as [[Ht [b Hb]]|(k & Hk & _ & Hrun)].
    + assert (b = last_resistant v drugs) as ->.
      { pose proof (resist_flag_tracked v drugs w Ht) as Hb'.
        unfold Patient.resist_flag in Hb'. congruence. }
      assert (Hstep :
        (let! resistance := Patient.resist_flag v drugs in
         if resistance then ret (acc ++ [v]) else ret acc) w
        = (Ok (if last_resistant v drugs then acc ++ [v] else acc), w)).
      { erewrite bind_Ok by exact Hb. by destruct (last_resistant v drugs). }
      rewrite !(bind_Ok _ _ _ _ _ Hstep).
      destruct (IH (if last_resistant v drugs then acc ++ [v] else acc))
        as [[Hall Hrun]|(k & Hk & Hrun)].
      * left. split.
        { intros v' [->|Hv']%elem_of_cons; [done|by apply Hall]. }
        simpl in Hrun. rewrite Hrun. rewrite filter_cons.
        destruct (last_resistant v drugs); case_decide; try done.
        by rewrite <- app_assoc.
      * right. exists k. split; [done|]. exact Hrun.
    + right. exists k. split; [done|].
      erewrite bind_Raise; [done|]. erewrite bind_Raise; [done|]. exact Hrun.
Qed.

(** X1: with every listed drug tracked by every virus, [getResistPop]
    returns the number of viruses resistant to the last drug of the list (0
    for an empty list), and leaves the world as it is. *)
Theorem getResistPop_counts_last_drug (w : World ResistantVirus.t) self vs
    drugs :
  population w self = Some vs →
  (∀ v, v ∈ vs → tracks v drugs) →
  Patient.getResistPop self drugs w
  = (Ok (length (filter (λ v, last_resistant v drugs = true) vs)), w).
Proof. apply getResistPop_tracked. Qed.

Lemma getResistPop_counts_last_drug_witness :
  let vs := [sample_virus 0 true false; sample_virus 1 false true;
             sample_virus 2 false true] in
  let w := sample_world [] vs [] in
  Patient.getResistPop 101 ["guttagonol"; "grimpex"] w
  = (Ok (length (filter (λ v, last_resistant v ["guttagonol"; "grimpex"] = true)
                   vs)), w).
Proof.
  intros vs w.
  apply (getResistPop_counts_last_drug w 101 vs ["guttagonol"; "grimpex"]).
  - reflexivity.
  - intros v Hv d Hd. apply list_elem_of_In in Hv, Hd.
    destruct Hv as [<-|[<-|[<-|[]]]]; destruct Hd as [<-|[<-|[]]]; by eexists.
Defined.

Lemma filter_length_ext {A} (P Q : A → Prop) `{∀ x, Decision (P x)}
    `{∀ x, Decision (Q x)} (l : list A) :
  (∀ x, x ∈ l → P x ↔ Q x) → length (filter P l) = length (filter Q l).
Proof.
  induction l as [|x l IH]; intros Hext; [done|].
  rewrite !filter_cons.
  assert (P x ↔ Q x) as Hx by (apply Hext; left).
  assert (length (filter P l) = length (filter Q l)) as Hl.
  { apply IH. intros y Hy. apply Hext. by right. }
  do 2 case_decide; simpl; try tauto; by rewrite ?Hl.
Qed.

(** X2: for a list of one tracked drug, [getResistPop] returns what its
    docstring says: the number of viruses resistant to that drug. *)
Theorem getResistPop_one_drug (w : World ResistantVirus.t) self vs drug :
  population w self = Some vs →
  (∀ v, v ∈ vs → is_Some (ResistantVirus.resistances v !! drug)) →
  Patient.getResistPop self [drug] w
  = (Ok (count_resistant_to_all vs [drug]), w).
Proof.
  intros Hp Ht. rewrite (getResistPop_tracked w self vs [drug] Hp).
  - do 2 f_equal. unfold count_resistant_to_all.
    apply filter_length_ext. intros v _.
    unfold last_resistant. simpl. by rewrite andb_true_r.
  - intros v Hv d ->%list_elem_of_singleton. by apply Ht.
Qed.

Lemma getResistPop_one_drug_witness :
  let vs := [sample_virus 0 true false; sample_virus 1 false true] in
  let w := sample_world [] vs [] in
  Patient.getResistPop 101 ["guttagonol"] w
  = (Ok (count_resistant_to_all vs ["guttagonol"]), w).
Proof.
  intros vs w. apply (getResistPop_one_drug w 101 vs "guttagonol").
  - reflexivity.
  - intros v Hv. apply list_elem_of_In in Hv.
    destruct Hv as [<-|[<-|[]]]; by eexists.
Defined.

(** X3: whatever the drug list, [getResistPop] on a patient with a
    population leaves the world as it is and either returns a count that is
    at most the population size, every listed drug being tracked by every
    virus, or raises [KeyError] for a listed drug. *)
Theorem getResistPop_outcomes (w : World ResistantVirus.t) self vs drugs :
  population w self = Some vs →
  (∃ n, Patient.getResistPop self drugs w = (Ok n, w) ∧ n ≤ length vs ∧
        ∀ v, v ∈ vs → tracks v drugs) ∨
  (∃ k, k ∈ drugs ∧ Patient.getResistPop self drugs w = (Raise (KeyError k), w)).
Proof.
  intros (l & Hg & Hr & _)%population_get_viruses.
  unfold Patient.getResistPop.
  erewrite bind_Ok by exact Hg. erewrite bind_Ok by exact Hr.
  destruct (getResistPop_loop_cases vs drugs [] w)
    as [[Hall Hrun]|(k & Hk & Hrun)].
  - left. eexists. split; [by erewrite bind_Ok by exact Hrun|].
    split; [|done]. simpl. apply length_filter.
  - right. exists k. split; [done|]. by erewrite bind_Raise by exact Hrun.
Qed.

Lemma getResistPop_outcomes_witness :
  let vs := [sample_virus 0 true false; sample_virus 1 false true] in
  let w := sample_world [] vs [] in
  (∃ n, Patient.getResistPop 101 ["grimpex"; "zidovudine"] w = (Ok n, w) ∧
        n ≤ length vs ∧ ∀ v, v ∈ vs → tracks v ["grimpex"; "zidovudine"]) ∨
  (∃ k, k ∈ ["grimpex"; "zidovudine"] ∧
        Patient.getResistPop 101 ["grimpex"; "zidovudine"] w
        = (Raise (KeyError k), w)).
Proof.
  intros vs w.
  apply (getResistPop_outcomes w 101 vs ["grimpex"; "zidovudine"]).
  reflexivity.
Defined.

(** ** Reproduction of resistant viruses, in general *)

Lemma tracks_cases (self : ResistantVirus.t) drugs :
  tracks self drugs ∨
  ∃ d, d ∈ drugs ∧ ResistantVirus.resistances self !! d = None.
Proof.
  induction drugs as [|d drugs IH].
  - left. by intros d Hd; apply elem_of_nil in Hd.
  - destruct (ResistantVirus.resistances self !! d) as [b|] eqn:Hd.
    + destruct IH as [Ht|(k & Hk & Hkn)].
      * left. intros d' [->|Hd']%elem_of_cons; [by rewrite Hd|by apply Ht].
      * right. exists k. split; [by right|done].
    + right. exists d. split; [by left|done].
Qed.

Lemma eligible_cases (self : ResistantVirus.t) drugs :
  tracks self drugs →
  (drugs = [] ∨ resistant_to_all self drugs) ∨
  (drugs ≠ [] ∧ ¬ resistant_to_all self drugs).
Proof.
  intros Ht. destruct (forallb (resistantb self) drugs) eqn:Hall.
  - left. right. by apply forallb_resistantb.
  - destruct drugs; [by left; left|]. right. split; [done|].
    intros Hr%forallb_resistantb. congruence.
Qed.

(** X5: the outcomes of [ResistantVirus.reproduce], for any virus, density
    and drug list.  It returns an offspring after exactly two draws, or
    raises [NoChildException] after no draw (drug check failed) or one draw
    (birth draw failed), or raises [KeyError] after no draw for a listed drug
    the virus does not track.  It never touches the store. *)
Theorem ResistantVirus_reproduce_outcomes V (self : ResistantVirus.t) d drugs
    (w : World V) :
  let r := ResistantVirus.reproduce self d drugs w in
  (∃ child, r = (Ok child, created 1 (consume 2 w)) ∧
     fle (draws w (pos w)) (birth_prob (ResistantVirus.maxBirthProb self) d)) ∨
  (r = (Raise NoChildException, w) ∧
     drugs ≠ [] ∧ ¬ resistant_to_all self drugs) ∨
  (r = (Raise NoChildException, consume 1 w) ∧
     ¬ fle (draws w (pos w)) (birth_prob (ResistantVirus.maxBirthProb self) d)) ∨
  (∃ k, r = (Raise (KeyError k), w) ∧ k ∈ drugs ∧
     ResistantVirus.resistances self !! k = None).
Proof.
  intros r. subst r.
  destruct (tracks_cases self drugs) as [Ht|(k & Hk & Hkn)].
  - destruct (eligible_cases self drugs Ht) as [Hel|[Hne Hnot]].
    + rewrite (reproduce_eligible _ _ _ _ Ht Hel).
      case_decide; [left; by eexists|right; right; left; done].
    + right. left. split; [|done]. by apply reproduce_ineligible.
  - right. right. right.
    destruct (eligibility_loop_missing self drugs true w k Hk Hkn)
      as (k' & Hk' & Hkn' & Hrun).
    exists k'. split; [|done].
    unfold ResistantVirus.reproduce. by erewrite bind_Raise.
Qed.

(** X4: what an offspring inherits.  When [ResistantVirus.reproduce]
    returns an offspring, it is a new object with the parent's
    [maxBirthProb], [clearProb] and [mutProb]; its resistance dict has the
    parent's keys and is the parent's dict, or its negation on every key when
    the mutation draw (the second draw) is [<=] [mutProb]. *)
Theorem ResistantVirus_offspring_inherits V (self child : ResistantVirus.t) d
    drugs (w w' : World V) :
  ResistantVirus.reproduce self d drugs w = (Ok child, w') →
  w' = created 1 (consume 2 w) ∧
  ResistantVirus.id child = next_oid w ∧
  ResistantVirus.maxBirthProb child = ResistantVirus.maxBirthProb self ∧
  ResistantVirus.clearProb child = ResistantVirus.clearProb self ∧
  ResistantVirus.mutProb child = ResistantVirus.mutProb self ∧
  dom (ResistantVirus.resistances child) = dom (ResistantVirus.resistances self) ∧
  ResistantVirus.resistances child
  = (if decide (fle (draws w (S (pos w))) (ResistantVirus.mutProb self))
     then negb <$> ResistantVirus.resistances self
     else ResistantVirus.resistances self).
Proof.
  intros Hrun.
  destruct (tracks_cases self drugs) as [Ht|(k & Hk & Hkn)].
  - destruct (eligible_cases self drugs Ht) as [Hel|[Hne Hnot]].
    + rewrite (reproduce_eligible _ _ _ _ Ht Hel) in Hrun.
      case_decide; [|done]. injection Hrun as <- <-. simpl.
      repeat split. case_decide; [|done]. apply dom_fmap_L.
    + by rewrite reproduce_ineligible in Hrun.
  - destruct (eligibility_loop_missing self drugs true w k Hk Hkn)
      as (k' & _ & _ & Hloop).
    unfold ResistantVirus.reproduce in Hrun.
    by erewrite bind_Raise in Hrun by exact Hloop.
Qed.

Lemma ResistantVirus_offspring_inherits_witness :
  let w := empty_world (V := ResistantVirus.t) [0.25; 0.25]%float 1 in
  let parent := sample_virus 0 true false in
  let child := sample_virus 1 false true in
  created 1 (consume 2 w) = created 1 (consume 2 w) ∧
  ResistantVirus.id child = next_oid w ∧
  ResistantVirus.maxBirthProb child = ResistantVirus.maxBirthProb parent ∧
  ResistantVirus.clearProb child = ResistantVirus.clearProb parent ∧
  ResistantVirus.mutProb child = ResistantVirus.mutProb parent ∧
  dom (ResistantVirus.resistances child)
  = dom (ResistantVirus.resistances parent) ∧
  ResistantVirus.resistances child
  = (if decide (fle (draws w (S (pos w))) (ResistantVirus.mutProb parent))
     then negb <$> ResistantVirus.resistances parent
     else ResistantVirus.resistances parent).
Proof.
  intros w parent child.
  apply (ResistantVirus_offspring_inherits ResistantVirus.t parent child
           0%float [] w (created 1 (consume 2 w))).
  by vm_compute.
Defined.

(** X6: the dict built by the mutation branch of [reproduce] negates each
    flag and keeps the keys, so that two mutations in a row give back the
    first dict. *)
Theorem flipped_negates_and_returns (res : gmap string bool) :
  (∀ k, ResistantVirus.flipped res !! k = negb <$> res !! k) ∧
  dom (ResistantVirus.flipped res) = dom res ∧
  ResistantVirus.flipped (ResistantVirus.flipped res) = res.
Proof.
  rewrite !flipped_fmap. split; [|split].
  - intros k. apply lookup_fmap.
  - apply dom_fmap_L.
  - rewrite <- map_fmap_compose. rewrite <- (map_fmap_id res) at 2.
    apply map_fmap_ext. intros k b _. simpl. apply negb_involutive.
Qed.

(** ** What [update] leaves alone *)

Lemma same_patient_maxPop {V} (o o' : option (obj V)) :
  same_patient o o' → maxPop_of o' = maxPop_of o.
Proof.
  destruct o as [[| |]|], o' as [[| |]|]; simpl; intuition congruence.
Qed.

Lemma SimplePatient_update_footprint fuel self (w : World SimpleVirus.t) :
  wf w →
  wf (snd (SimplePatient.update fuel self w)) ∧
  footprint self (next_oid w) w (snd (SimplePatient.update fuel self w)).
Proof.
  intros Hwf. rewrite SimplePatient_update_with.
  apply update_with_footprint; [|intros p v d|done].
  - apply SimpleVirus_doesClear_quiet.
  - apply SimpleVirus_reproduce_quiet.
Qed.

(** X7: whatever its outcome (a count or an exception), an [update] of
    either class keeps the capacity of the patient, the drug list of a
    drug-treated patient and the sequence of draws; it changes no object that
    existed before the call other than the patient, so the list the patient
    referred to, seen by whoever passed it to the constructor, still holds
    what it held. *)
Theorem update_leaves_rest_alone :
  (∀ fuel self (w : World SimpleVirus.t),
     wf w →
     let w' := snd (SimplePatient.update fuel self w) in
     wf w' ∧ draws w' = draws w ∧
     maxPop_of (heap w' !! self) = maxPop_of (heap w !! self) ∧
     (∀ k, k < next_oid w → k ≠ self → heap w' !! k = heap w !! k) ∧
     (∀ l vs, viruses_of (heap w !! self) = Some l →
        heap w !! l = Some (ListObj vs) → heap w' !! l = Some (ListObj vs))) ∧
  (∀ fuel self (w : World ResistantVirus.t),
     wf w →
     let w' := snd (Patient.update fuel self w) in
     wf w' ∧ draws w' = draws w ∧
     maxPop_of (heap w' !! self) = maxPop_of (heap w !! self) ∧
     drugs_of w' self = drugs_of w self ∧
     (∀ k, k < next_oid w → k ≠ self → heap w' !! k = heap w !! k) ∧
     (∀ l vs, viruses_of (heap w !! self) = Some l →
        heap w !! l = Some (ListObj vs) → heap w' !! l = Some (ListObj vs))).
Proof.
  assert (Hlist : ∀ V (w w' : World V) self l vs,
            wf w →
            (∀ k, k < next_oid w → k ≠ self → heap w' !! k = heap w !! k) →
            viruses_of (heap w !! self) = Some l →
            heap w !! l = Some (ListObj vs) → heap w' !! l = Some (ListObj vs)).
  { intros V w w' self l vs Hwf Hk Hv Hl. rewrite Hk; [done| |].
    - apply Hwf. by rewrite Hl.
    - intros ->. by rewrite Hl in Hv. }
  split; intros fuel self w Hwf w'.
  - destruct (SimplePatient_update_footprint fuel self w Hwf) as [Hwf' Hfp].
    split; [done|]. split; [apply Hfp|]. split.
    { apply same_patient_maxPop, Hfp. }
    split; [apply Hfp|].
    intros l vs. apply Hlist; [done|apply Hfp].
  - destruct (Patient_update_footprint fuel self w Hwf) as [Hwf' Hfp].
    split; [done|]. split; [apply Hfp|]. split.
    { apply same_patient_maxPop, Hfp. }
    split; [apply same_patient_drugs, Hfp|]. split; [apply Hfp|].
    intros l vs. apply Hlist; [done|apply Hfp].
Qed.

Lemma update_leaves_rest_alone_witness :
  let vs := [sample_virus 0 true false; sample_virus 1 false true] in
  let w := sample_world [0.125; 0.5; 0.25; 0.25]%float vs ["grimpex"] in
  let w' := snd (Patient.update 3 101 w) in
  wf w' ∧ draws w' = draws w ∧
  maxPop_of (heap w' !! 101) = maxPop_of (heap w !! 101) ∧
  drugs_of w' 101 = drugs_of w 101 ∧
  (∀ k, k < next_oid w → k ≠ 101 → heap w' !! k = heap w !! k) ∧
  (∀ l vs, viruses_of (heap w !! 101) = Some l →
     heap w !! l = Some (ListObj vs) → heap w' !! l = Some (ListObj vs)).
Proof.
  intros vs w.
  apply (proj2 update_leaves_rest_alone 3 101 w), sample_world_wf.
Defined.

(** X8: both [update] methods terminate.  Each loop runs over a list its
    body does not extend, so a number of rounds above the population size is
    never exhausted: the call returns a count or raises a Python exception. *)
Theorem update_terminates :
  (∀ fuel self vs (w : World SimpleVirus.t),
     wf w → population w self = Some vs → length vs < fuel →
     fst (SimplePatient.update fuel self w) ≠ Raise OutOfFuel) ∧
  (∀ fuel self vs (w : World ResistantVirus.t),
     wf w → population w self = Some vs → length vs < fuel →
     fst (Patient.update fuel self w) ≠ Raise OutOfFuel).
Proof. exact update_enough_fuel. Qed.

Lemma update_terminates_witness :
  let vs := [sample_virus 0 true false; sample_virus 1 false true] in
  let w := sample_world [0.125; 0.5; 0.25; 0.25]%float vs ["zidovudine"] in
  fst (Patient.update 3 101 w) ≠ Raise OutOfFuel.
Proof.
  intros vs w. apply (proj2 update_terminates 3 101 vs w).
  - apply sample_world_wf.
  - reflexivity.
  - simpl. lia.
Defined.

(** ** Prescriptions, in general *)

(** X13: [addPrescription] keeps the drug list free of duplicates.  On a
    list without duplicates it returns a list without duplicates that holds
    the drugs administered before and the new one, in the order of their
    first prescription; that list is what [getPrescriptions] returns
    afterwards, and the viruses and the capacity of the patient are as
    before. *)
Theorem addPrescription_no_duplicates V (w : World V) self l mp ds d :
  heap w !! self = Some (PatientObj l mp ds) → NoDup ds →
  ∃ ds' w',
    Patient.addPrescription self d w = (Ok ds', w') ∧
    heap w' !! self = Some (PatientObj l mp ds') ∧
    Patient.getPrescriptions self w' = (Ok ds', w') ∧
    NoDup ds' ∧ ds `prefix_of` ds' ∧
    (∀ x, x ∈ ds' ↔ x ∈ ds ∨ x = d).
Proof.
  intros Hs Hnd. destruct (decide (d ∈ ds)) as [Hin|Hin].
  - exists ds, w. rewrite (addPrescription_present w self l mp ds d) by done.
    split; [done|]. split; [done|]. split.
    { unfold Patient.getPrescriptions, get_drugs. by rewrite Hs. }
    split; [done|]. split; [done|].
    intros x. split; [by left|]. intros [Hx|Hx]; [done|by subst x].
  - eexists _, _. rewrite (addPrescription_new w self l mp ds d) by done.
    split; [done|]. simpl. split; [apply lookup_insert_eq|]. split.
    { unfold Patient.getPrescriptions, get_drugs. simpl.
      by rewrite lookup_insert_eq. }
    split.
    { apply NoDup_app. split; [done|]. split; [|apply NoDup_singleton].
      intros x Hx ->%list_elem_of_singleton. done. }
    split; [by apply prefix_app_r|].
    intros x. rewrite elem_of_app, list_elem_of_singleton. done.
Qed.

Lemma addPrescription_no_duplicates_witness :
  let w := sample_world [] [sample_virus 0 true true] ["guttagonol"] in
  ∃ ds' w',
    Patient.addPrescription 101 "grimpex" w = (Ok ds', w') ∧
    heap w' !! 101 = Some (PatientObj 100 1000 ds') ∧
    Patient.getPrescriptions 101 w' = (Ok ds', w') ∧
    NoDup ds' ∧ ["guttagonol"] `prefix_of` ds' ∧
    (∀ x, x ∈ ds' ↔ x ∈ ["guttagonol"] ∨ x = "grimpex").
Proof.
  intros w.
  apply (addPrescription_no_duplicates _ w 101 100 1000%Z ["guttagonol"]
           "grimpex").
  - reflexivity.
  - apply NoDup_singleton.
Defined.

(** ** One [update], exactly *)

Section Exact.
Context {V : Type} {Hid : Identity V}.
Variable as_simple : V → SimpleVirus.t.
Variable reproduce_call : nat → V → float → M V V.
Hypothesis reproduce_call_quiet : ∀ p v d, quiet_M (reproduce_call p v d).
(** The call of [reproduce] reads nothing of the store but the drug list of
    the patient. *)
Hypothesis reproduce_call_blind : ∀ p v d (w : World V) h,
  drugs_of (with_heap h w) p = drugs_of w p →
  reproduce_call p v d (with_heap h w)
  = (fst (reproduce_call p v d w), with_heap h (snd (reproduce_call p v d w))).

Abbreviation doesClear := (λ v : V, SimpleVirus.doesClear (V := V) (as_simple v)).
Abbreviation clearProb_of := (λ v : V, SimpleVirus.clearProb (as_simple v)).

Lemma remove_first_middle (x : V) kept rest :
  oid x ∉ (oid <$> kept) →
  remove_first x (kept ++ x :: rest) = Some (kept ++ rest).
Proof.
  induction kept as [|k kept IH]; simpl; intros Hx.
  - by rewrite Nat.eqb_refl.
  - apply not_elem_of_cons in Hx as [Hne Hx].
    destruct (Nat.eqb_spec (oid k) (oid x)) as [Heq|_]; [congruence|].
    by rewrite IH.
Qed.

Lemma NoDup_ids_middle (v : V) kept rest :
  NoDup (oid <$> (kept ++ v :: rest)) →
  (oid v ∉ (oid <$> kept)) ∧ NoDup (oid <$> (kept ++ rest)).
Proof.
  rewrite !fmap_app, fmap_cons. intros Hnd.
  apply NoDup_app in Hnd as (Hk & Hdisj & Hr).
  apply NoDup_cons in Hr as [Hv Hr]. split.
  - intros Hin. apply (Hdisj _ Hin). by left.
  - apply NoDup_app. split; [done|]. split; [|done].
    intros x Hx Hxr. apply (Hdisj _ Hx). by right.
Qed.

Lemma survivors_sublist (f : V → float) tape p vs :
  survivors f tape p vs `sublist_of` vs.
Proof.
  revert p. induction vs as [|v vs IH]; intros p; simpl; [done|].
  destruct (_ <=? _)%float; [by apply sublist_cons|by apply sublist_skip].
Qed.

Lemma survivors_ids_sublist (f : V → float) tape p vs :
  (oid <$> survivors f tape p vs) `sublist_of` (oid <$> vs).
Proof.
  revert p. induction vs as [|v vs IH]; intros p; simpl; [done|].
  destruct (_ <=? _)%float; [by apply sublist_cons|by apply sublist_skip].
Qed.

(** The first loop, for distinct viruses: it consumes one draw per virus
    and leaves the survivors, in order, in [virus_pop]. *)
Lemma clear_pass_survivors n0 kept rest (w : World V) :
  heap w !! n0 = Some (ListObj (kept ++ rest)) →
  NoDup (oid <$> (kept ++ rest)) →
  for_each rest (clear_body doesClear n0) w
  = (Ok tt,
     with_heap
       (<[n0 := ListObj (kept ++ survivors clearProb_of (draws w) (pos w) rest)]>
          (heap w))
       (consume (length rest) w)).
Proof.
  revert kept w. induction rest as [|v rest IH]; intros kept w Hh Hnd.
  - simpl. rewrite app_nil_r in *. rewrite insert_id by done. by destruct w.
  - destruct (NoDup_ids_middle v kept rest Hnd) as [Hv Hnd'].
    cbn [for_each survivors]. unfold bind at 1, clear_body at 1, bind at 1.
    rewrite SimpleVirus_doesClear_run.
    destruct (draws w (pos w) <=? clearProb_of v)%float eqn:Hc.
    + unfold list_remove, bind, read_list. cbn [heap consume]. rewrite Hh.
      rewrite remove_first_middle by done. cbn [store].
      rewrite (IH kept); cbn [heap draws pos next_oid consume];
        [|apply lookup_insert_eq|done].
      unfold with_heap, consume. cbn. rewrite insert_insert_eq.
      do 2 f_equal. lia.
    + cbn [ret]. rewrite (IH (kept ++ [v]));
        cbn [heap draws pos next_oid consume];
        [|by rewrite <- app_assoc|by rewrite <- app_assoc].
      unfold with_heap, consume. cbn. rewrite <- app_assoc.
      do 2 f_equal. lia.
Qed.

(** The second loop: the calls of [reproduce] go as in [births], and the
    offspring are appended to the list the patient refers to. *)
Lemma reproduce_pass_births self copy d rest cur (w : World V) h :
  viruses_of (h !! self) = Some copy →
  h !! copy = Some (ListObj cur) →
  drugs_of (with_heap h w) self = drugs_of w self →
  for_each rest (reproduce_body reproduce_call self d) (with_heap h w)
  = (match snd (fst (births (λ v, reproduce_call self v d) rest w)) with
     | None => Ok tt
     | Some e => Raise e
     end,
     with_heap
       (<[copy := ListObj
            (cur ++ fst (fst (births (λ v, reproduce_call self v d) rest w)))]> h)
       (snd (births (λ v, reproduce_call self v d) rest w))).
Proof.
  revert cur w h. induction rest as [|v rest IH]; intros cur w h Hs Hc Hd.
  - simpl. rewrite app_nil_r. by rewrite insert_id.
  - assert (Hne : self ≠ copy).
    { intros ->. by rewrite Hc in Hs. }
    cbn [for_each births]. unfold bind at 1, reproduce_body at 1.
    unfold except_NoChild, bind at 1.
    rewrite (reproduce_call_blind self v d w h Hd).
    pose proof (reproduce_call_quiet self v d w) as (_ & Hq & _).
    destruct (reproduce_call self v d w) as [[c|e] w1] eqn:Hcall;
      cbn [fst snd] in *.
    + assert (Hstep :
        (let! viruses := get_viruses self in list_append viruses c)
          (with_heap h w1)
        = (Ok tt, with_heap (<[copy := ListObj (cur ++ [c])]> h) w1)).
      { erewrite bind_Ok by (by apply get_viruses_run).
        unfold list_append. by erewrite bind_Ok by (by apply read_list_run). }
      rewrite Hstep.
      rewrite (IH (cur ++ [c]) w1).
      * destruct (births _ rest w1) as [[cs e] w2]. cbn [fst snd].
        rewrite insert_insert_eq. by rewrite <- app_assoc.
      * by rewrite lookup_insert_ne.
      * apply lookup_insert_eq.
      * unfold drugs_of in *. cbn [heap with_heap] in *.
        rewrite lookup_insert_ne by done. by rewrite Hd, Hq.
    + assert (Hd1 : drugs_of (with_heap h w1) self = drugs_of w1 self).
      { unfold drugs_of in *. cbn [heap with_heap] in *. by rewrite Hd, Hq. }
      destruct e; cbn [fst snd];
        try (rewrite app_nil_r; by rewrite insert_id).
      by rewrite (IH cur w1).
Qed.

Lemma births_quiet self d rest (w : World V) :
  quiet w (snd (births (λ v, reproduce_call self v d) rest w)) ∧
  length (fst (fst (births (λ v, reproduce_call self v d) rest w)))
  ≤ length rest.
Proof.
  revert w. induction rest as [|v rest IH]; intros w; simpl.
  - split; [apply quiet_refl|done].
  - pose proof (reproduce_call_quiet self v d w) as Hq.
    destruct (reproduce_call self v d w) as [[c|e] w1]; simpl in Hq.
    + destruct (IH w1) as [Hq1 Hlen].
      destruct (births _ rest w1) as [[cs e] w2]. simpl in *.
      split; [by eapply quiet_trans|lia].
    + destruct (IH w1) as [Hq1 Hlen].
      destruct e; simpl; try (split; [done|lia]).
      split; [by eapply quiet_trans|lia].
Qed.

(** [update] up to the computation of the density: the survivors are in
    [virus_pop], object [next_oid w0], and the patient is as it was. *)
Lemma update_with_prefix fuel self o l mp vs (w0 : World V) :
  wf w0 →
  heap w0 !! self = Some o →
  viruses_of (Some o) = Some l → maxPop_of (Some o) = Some mp →
  heap w0 !! l = Some (ListObj vs) →
  NoDup (oid <$> vs) →
  length vs < fuel →
  let n0 := next_oid w0 in
  let sv := survivors clearProb_of (draws w0) (pos w0) vs in
  let w2 := mkWorld (draws w0) (length vs + pos w0) (S n0)
              (<[n0 := ListObj sv]> (heap w0)) in
  update_with doesClear reproduce_call fuel self w0
  = (let! m := py_float mp in
     let! popDensity := py_div (float_of_int (Z.of_nat (length sv))) m in
     let! copy := list_copy n0 in
     do! set_viruses self copy in
     do! for_in fuel n0 0 (reproduce_body reproduce_call self popDensity) in
     SimplePatient.getTotalPop self) w2.
Proof.
  intros Hwf Hs Hv Hmp Hl Hnd Hfuel n0 sv w2.
  assert (Hself : self < n0) by (apply Hwf; by rewrite Hs).
  assert (Hllt : l < n0) by (apply Hwf; by rewrite Hl).
  set (w1 := mkWorld (draws w0) (pos w0) (S n0)
               (<[n0 := ListObj vs]> (heap w0))).
  assert (H1 : list_copy l w0 = (Ok n0, w1)).
  { unfold list_copy. by erewrite bind_Ok by (by apply read_list_run). }
  assert (H2 : for_in fuel l 0 (clear_body doesClear n0) w1 = (Ok tt, w2)).
  { rewrite (for_in_snapshot (λ _, True) fuel l 0 _ vs w1); [| |done| |lia].
    - rewrite drop_0. rewrite (clear_pass_survivors n0 [] vs w1).
      + unfold with_heap, consume, w2, w1. cbn.
        by rewrite insert_insert_eq.
      + cbn. apply lookup_insert_eq.
      + done.
    - intros v w _ Hw. split; [done|].
      rewrite (clear_body_frame as_simple); [done|lia].
    - cbn. rewrite lookup_insert_ne by lia. done. }
  assert (H3 : list_len n0 w2 = (Ok (length sv), w2)).
  { unfold list_len.
    erewrite bind_Ok; [|apply read_list_run; cbn; apply lookup_insert_eq].
    done. }
  assert (H4 : get_maxPop self w2 = (Ok mp, w2)).
  { apply get_maxPop_run. cbn. rewrite lookup_insert_ne by lia.
    by rewrite Hs. }
  unfold update_with.
  erewrite bind_Ok by (apply get_viruses_run; by rewrite Hs).
  erewrite bind_Ok by exact H1.
  erewrite bind_Ok
    by (apply get_viruses_run; cbn; rewrite lookup_insert_ne by lia;
        by rewrite Hs).
  erewrite bind_Ok by exact H2. erewrite bind_Ok by exact H3.
  by erewrite bind_Ok by exact H4.
Qed.

(** When the density cannot be computed, [update] raises after the first
    loop: the patient still refers to the list it referred to. *)
Lemma update_with_density_error fuel self o l mp vs e (w0 : World V) :
  wf w0 →
  heap w0 !! self = Some o →
  viruses_of (Some o) = Some l → maxPop_of (Some o) = Some mp →
  heap w0 !! l = Some (ListObj vs) →
  NoDup (oid <$> vs) →
  length vs < fuel →
  let n0 := next_oid w0 in
  let sv := survivors clearProb_of (draws w0) (pos w0) vs in
  density (length sv) mp = Raise e →
  update_with doesClear reproduce_call fuel self w0
  = (Raise e,
     mkWorld (draws w0) (length vs + pos w0) (S n0)
       (<[n0 := ListObj sv]> (heap w0))).
Proof.
  intros Hwf Hs Hv Hmp Hl Hnd Hfuel n0 sv Hd.
  rewrite (update_with_prefix fuel self o l mp vs w0) by done.
  fold n0 sv. unfold density in Hd. unfold bind at 1, py_float, lift.
  destruct (to_float mp) as [m|e']; [|by injection Hd as ->].
  unfold bind at 1, py_div, lift. by rewrite Hd.
Qed.

(** When the density is [d], [update] goes on with the second loop over
    the survivors, whose offspring are given by [births]. *)
Lemma update_with_exact fuel self o l mp vs d (w0 : World V) :
  wf w0 →
  heap w0 !! self = Some o →
  viruses_of (Some o) = Some l → maxPop_of (Some o) = Some mp →
  heap w0 !! l = Some (ListObj vs) →
  NoDup (oid <$> vs) →
  length vs < fuel →
  let n0 := next_oid w0 in
  let sv := survivors clearProb_of (draws w0) (pos w0) vs in
  let w3 := mkWorld (draws w0) (length vs + pos w0) (S (S n0)) (heap w0) in
  let b := births (λ v, reproduce_call self v d) sv w3 in
  let h4 := <[self := rebind o (S n0)]>
              (<[S n0 := ListObj sv]> (<[n0 := ListObj sv]> (heap w0))) in
  density (length sv) mp = Ok d →
  update_with doesClear reproduce_call fuel self w0
  = (match snd (fst b) with
     | None => Ok (length sv + length (fst (fst b)))
     | Some e => Raise e
     end,
     with_heap (<[S n0 := ListObj (sv ++ fst (fst b))]> h4) (snd b)).
Proof.
  intros Hwf Hs Hv Hmp Hl Hnd Hfuel n0 sv w3 b h4 Hd.
  assert (Hself : self < n0) by (apply Hwf; by rewrite Hs).
  rewrite (update_with_prefix fuel self o l mp vs w0) by done.
  fold n0 sv.
  set (w2 := mkWorld (draws w0) (length vs + pos w0) (S n0)
               (<[n0 := ListObj sv]> (heap w0))).
  destruct (density_run _ _ _ w2 Hd) as (m & H5 & H6).
  erewrite bind_Ok by exact H5. erewrite bind_Ok by exact H6.
  assert (H7 : list_copy n0 w2
               = (Ok (S n0),
                  mkWorld (draws w0) (length vs + pos w0) (S (S n0))
                    (<[S n0 := ListObj sv]> (heap w2)))).
  { unfold list_copy.
    erewrite bind_Ok; [|apply read_list_run; cbn; apply lookup_insert_eq].
    done. }
  erewrite bind_Ok by exact H7.
  assert (H8 : set_viruses self (S n0)
                 (mkWorld (draws w0) (length vs + pos w0) (S (S n0))
                    (<[S n0 := ListObj sv]> (heap w2)))
               = (Ok tt, with_heap h4 w3)).
  { erewrite (set_viruses_run _ self o l); [done| |done].
    cbn. rewrite !lookup_insert_ne by lia. done. }
  erewrite bind_Ok by exact H8.
  assert (Hv4 : viruses_of (h4 !! self) = Some (S n0)).
  { unfold h4. rewrite lookup_insert_eq. by eapply viruses_of_rebind. }
  assert (Hc4 : h4 !! S n0 = Some (ListObj sv)).
  { unfold h4. rewrite lookup_insert_ne by lia. apply lookup_insert_eq. }
  assert (Hn4 : h4 !! n0 = Some (ListObj sv)).
  { unfold h4. rewrite !lookup_insert_ne by lia. apply lookup_insert_eq. }
  assert (Hd4 : drugs_of (with_heap h4 w3) self = drugs_of w3 self).
  { unfold drugs_of, h4. cbn. rewrite lookup_insert_eq, Hs. by destruct o. }
  assert (Hlen : length sv ≤ length vs).
  { apply sublist_length, survivors_sublist. }
  unfold bind at 1.
  rewrite (for_in_snapshot (λ w, viruses_of (heap w !! self) = Some (S n0))
             fuel n0 0 _ sv (with_heap h4 w3)); [| |done|done|lia].
  2:{ intros v w Hw Hn.
      destruct (reproduce_body_frame reproduce_call reproduce_call_quiet
                  self (S n0) d v n0 w Hw) as [? Hsame]; [lia..|].
      split; [done|]. by rewrite Hsame. }
  rewrite drop_0.
  rewrite (reproduce_pass_births self (S n0) d sv sv w3 h4 Hv4 Hc4 Hd4).
  fold b. destruct (snd (fst b)) as [e|]; [done|].
  rewrite (getTotalPop_population _ self (sv ++ fst (fst b))).
  - by rewrite length_app.
  - apply population_intro with (l := S n0); cbn.
    + rewrite lookup_insert_ne by lia. exact Hv4.
    + apply lookup_insert_eq.
Qed.

(** Offspring are new objects, created one after the other. *)
Hypothesis reproduce_call_fresh : ∀ p v d (w w' : World V) c,
  reproduce_call p v d w = (Ok c, w') →
  oid c = next_oid w ∧ next_oid w' = S (next_oid w).

Lemma births_fresh self d rest (w : World V) :
  let '(cs, _, w') := births (λ v, reproduce_call self v d) rest w in
  Forall (λ c, next_oid w ≤ oid c ∧ oid c < next_oid w') cs ∧
  NoDup (oid <$> cs).
Proof.
  revert w. induction rest as [|v rest IH]; intros w; simpl.
  - split; [done|apply NoDup_nil_2].
  - pose proof (reproduce_call_quiet self v d w) as (_ & _ & _ & Ho).
    destruct (reproduce_call self v d w) as [[c|e] w1] eqn:Hcall;
      simpl in Ho.
    + destruct (reproduce_call_fresh _ _ _ _ _ _ Hcall) as [Hc Hn].
      specialize (IH w1).
      pose proof (births_quiet self d rest w1) as [(_ & _ & _ & Ho1) _].
      destruct (births _ rest w1) as [[cs e] w2]. simpl in *.
      destruct IH as [Hall Hnd]. split.
      * constructor; [lia|].
        eapply Forall_impl; [exact Hall|]. simpl. intros; lia.
      * rewrite ?fmap_cons. apply NoDup_cons. split; [|done].
        intros (c' & Heq & Hc')%list_elem_of_fmap.
        rewrite Forall_forall in Hall. specialize (Hall c' Hc'). lia.
    + specialize (IH w1).
      destruct e; simpl; try (split; [done|apply NoDup_nil_2]).
      destruct (births _ rest w1) as [[cs e] w2].
      destruct IH as [Hall Hnd]. split; [|done].
      eapply Forall_impl; [exact Hall|]. simpl. intros; lia.
Qed.

(** A patient object has a capacity. *)
Lemma patient_has_maxPop (o : obj V) l :
  viruses_of (Some o) = Some l → ∃ mp, maxPop_of (Some o) = Some mp.
Proof. destruct o; simpl; intros; by eauto. Qed.

(** An [update] that returns leaves the survivors of the first loop
    followed by their offspring, all distinct objects. *)
Lemma update_with_healthy fuel self vs n (w w' : World V) :
  healthy w self vs → length vs < fuel →
  update_with doesClear reproduce_call fuel self w = (Ok n, w') →
  let sv := survivors clearProb_of (draws w) (pos w) vs in
  ∃ cs, population w' self = Some (sv ++ cs) ∧
        n = length sv + length cs ∧ length cs ≤ length sv ∧
        Forall (λ c, next_oid w ≤ oid c) cs ∧
        healthy w' self (sv ++ cs).
Proof.
  intros (Hwf & Hpop & Hnd & Hold) Hfuel Hrun sv.
  destruct (population_get_viruses _ _ _ Hpop) as (l & _ & _ & Hv & Hl).
  destruct (heap w !! self) as [o|] eqn:Hs; [|done].
  destruct (patient_has_maxPop o l Hv) as [mp Hmp].
  assert (Hself : self < next_oid w) by (apply Hwf; by rewrite Hs).
  destruct (density (length sv) mp) as [d|e] eqn:Hd.
  2:{ rewrite (update_with_density_error fuel self o l mp vs e w) in Hrun
        by done. done. }
  pose proof (update_with_exact fuel self o l mp vs d w
                Hwf Hs Hv Hmp Hl Hnd Hfuel Hd) as Hex.
  cbv zeta in Hex. rewrite Hex in Hrun. clear Hex. fold sv in Hrun.
  set (w3 := mkWorld (draws w) (length vs + pos w) (S (S (next_oid w)))
               (heap w)) in *.
  pose proof (births_quiet self d sv w3) as [(_ & _ & _ & Ho) Hlen].
  pose proof (births_fresh self d sv w3) as Hfresh.
  destruct (births _ sv w3) as [[cs e] w5]. simpl in *.
  destruct e as [e|]; [done|]. injection Hrun as <- <-.
  destruct Hfresh as [Hall Hndc]. exists cs.
  assert (Hsv : ∀ x, x ∈ oid <$> sv → x < next_oid w).
  { intros x Hx.
    eapply elem_of_sublist in Hx; [|apply survivors_ids_sublist].
    apply list_elem_of_fmap in Hx as (v & -> & Hin).
    rewrite Forall_forall in Hold. by apply Hold. }
  assert (Hp' : population
                  (with_heap
                     (<[S (next_oid w) := ListObj (sv ++ cs)]>
                        (<[self := rebind o (S (next_oid w))]>
                           (<[S (next_oid w) := ListObj sv]>
                              (<[next_oid w := ListObj sv]> (heap w))))) w5)
                  self = Some (sv ++ cs)).
  { apply population_intro with (l := S (next_oid w)); cbn.
    - rewrite lookup_insert_ne by lia. rewrite lookup_insert_eq.
      by eapply viruses_of_rebind.
    - apply lookup_insert_eq. }
  split; [done|]. split; [done|]. split; [done|]. split.
  { eapply Forall_impl; [exact Hall|]. simpl. intros; lia. }
  split; [|split; [done|split]].
  - intros k. cbn. rewrite !lookup_insert_is_Some'. intros Hk.
    assert (is_Some (heap w !! k) → k < next_oid w) by apply Hwf.
    intuition lia.
  - rewrite fmap_app. apply NoDup_app. split; [|split; [|done]].
    + eapply sublist_NoDup; [exact Hnd|apply survivors_ids_sublist].
    + intros x Hx (c & -> & Hc)%list_elem_of_fmap.
      apply Hsv in Hx. rewrite Forall_forall in Hall.
      specialize (Hall c Hc). simpl in Hall. lia.
  - apply Forall_app. split.
    + apply Forall_forall. intros v Hv'. cbn.
      assert (oid v < next_oid w); [|lia].
      apply Hsv, list_elem_of_fmap. by exists v.
    + eapply Forall_impl; [exact Hall|]. simpl. intros; lia.
Qed.

End Exact.

(** ** The two kinds of patient as instances *)

Lemma SimpleVirus_call_blind p (v : SimpleVirus.t) d
    (w : World SimpleVirus.t) h :
  drugs_of (with_heap h w) p = drugs_of w p →
  SimpleVirus.reproduce v d (with_heap h w)
  = (fst (SimpleVirus.reproduce v d w),
     with_heap h (snd (SimpleVirus.reproduce v d w))).
Proof.
  intros _. unfold SimpleVirus.reproduce, SimpleVirus.__init__, bind, random,
    fresh, ret, raise. cbn.
  by destruct (_ <=? _)%float.
Qed.

Lemma SimpleVirus_call_fresh (p : nat) (v : SimpleVirus.t) d
    (w w' : World SimpleVirus.t) c :
  SimpleVirus.reproduce v d w = (Ok c, w') →
  oid c = next_oid w ∧ next_oid w' = S (next_oid w).
Proof.
  unfold SimpleVirus.reproduce, SimpleVirus.__init__, bind, random,
    fresh, ret, raise. cbn.
  destruct (_ <=? _)%float; [|done]. by intros [= <- <-].
Qed.

(** The eligibility loop of [reproduce] reads the virus only. *)
Lemma eligibility_loop_pure {V} (self : ResistantVirus.t) drugs acc
    (w w0 : World V) :
  foldM (λ (resistance : bool) drug,
           let! r := ResistantVirus.getResistance self drug in
           if negb r then ret false else ret resistance) drugs acc w
  = (fst (foldM (λ (resistance : bool) drug,
                   let! r := ResistantVirus.getResistance self drug in
                   if negb r then ret false else ret resistance)
                drugs acc w0), w).
Proof.
  revert acc. induction drugs as [|drug drugs IH]; intros acc; [done|].
  simpl. unfold bind at 1 3, ResistantVirus.getResistance.
  destruct (ResistantVirus.resistances self !! drug) as [[|]|]; simpl;
    [apply IH|apply IH|done].
Qed.

Lemma bind_pure {V A B} (m : M V A) (k : A → M V B) (w : World V) r :
  m w = (r, w) →
  bind m k w = match r with Ok a => k a w | Raise e => (Raise e, w) end.
Proof. unfold bind. by intros ->. Qed.

Lemma ResistantVirus_reproduce_blind (v : ResistantVirus.t) d drugs
    (w : World ResistantVirus.t) h :
  ResistantVirus.reproduce v d drugs (with_heap h w)
  = (fst (ResistantVirus.reproduce v d drugs w),
     with_heap h (snd (ResistantVirus.reproduce v d drugs w))).
Proof.
  unfold ResistantVirus.reproduce.
  rewrite (bind_pure _ _ (with_heap h w) _
             (eligibility_loop_pure v drugs true (with_heap h w) w)).
  rewrite !(bind_pure _ _ w _ (eligibility_loop_pure v drugs true w w)).
  destruct (fst (foldM _ drugs true w)) as [r|e]; [|done].
  destruct (r || _); [|done].
  unfold ResistantVirus.__init__, bind, random, fresh, ret, raise. cbn.
  destruct (_ <=? _)%float; [|done].
  by destruct (_ <=? _)%float.
Qed.

Lemma Patient_call_blind p (v : ResistantVirus.t) d
    (w : World ResistantVirus.t) h :
  drugs_of (with_heap h w) p = drugs_of w p →
  Patient_reproduce_call p v d (with_heap h w)
  = (fst (Patient_reproduce_call p v d w),
     with_heap h (snd (Patient_reproduce_call p v d w))).
Proof.
  unfold drugs_of, Patient_reproduce_call, bind, get_drugs. cbn.
  intros Hd.
  destruct (h !! p) as [[| |]|], (heap w !! p) as [[| |]|];
    try done; try (by injection Hd as ->; apply ResistantVirus_reproduce_blind).
Qed.

Lemma ResistantVirus_reproduce_fresh (v : ResistantVirus.t) d drugs
    (w w' : World ResistantVirus.t) c :
  ResistantVirus.reproduce v d drugs w = (Ok c, w') →
  oid c = next_oid w ∧ next_oid w' = S (next_oid w).
Proof.
  unfold ResistantVirus.reproduce.
  rewrite (bind_pure _ _ w _ (eligibility_loop_pure v drugs true w w)).
  destruct (fst (foldM _ drugs true w)) as [r|e]; [|done].
  destruct (r || _); [|done].
  unfold ResistantVirus.__init__, bind, random, fresh, ret, raise. cbn.
  destruct (_ <=? _)%float; [|done].
  by destruct (_ <=? _)%float; intros [= <- <-].
Qed.

Lemma Patient_call_fresh p (v : ResistantVirus.t) d
    (w w' : World ResistantVirus.t) c :
  Patient_reproduce_call p v d w = (Ok c, w') →
  oid c = next_oid w ∧ next_oid w' = S (next_oid w).
Proof.
  unfold Patient_reproduce_call, bind, get_drugs.
  destruct (heap w !! p) as [[| |]|]; try done.
  apply ResistantVirus_reproduce_fresh.
Qed.


(** ** What [update] leaves behind *)

Lemma healthy_unpack {V} `{Identity V} (w : World V) self vs :
  healthy w self vs →
  ∃ o l mp, wf w ∧ heap w !! self = Some o ∧ viruses_of (Some o) = Some l ∧
    maxPop_of (Some o) = Some mp ∧ heap w !! l = Some (ListObj vs) ∧
    NoDup (oid <$> vs) ∧ self < next_oid w ∧ l < next_oid w.
Proof.
  intros (Hwf & Hpop & Hnd & _).
  destruct (population_get_viruses _ _ _ Hpop) as (l & _ & _ & Hv & Hl).
  destruct (heap w !! self) as [o|] eqn:Hs; [|done].
  destruct (patient_has_maxPop o l Hv) as [mp Hmp].
  exists o, l, mp. repeat split; try done.
  - apply Hwf. by rewrite Hs.
  - apply Hwf. by rewrite Hl.
Qed.

Lemma healthy_sample (vs : list SimpleVirus.t) l maxPop :
  NoDup (oid <$> vs) → Forall (λ v, oid v < 102) vs →
  healthy (simple_world l vs maxPop) 101 vs.
Proof. intros Hnd Hall. split; [apply simple_world_wf|done]. Qed.

Lemma healthy_sample_patient (vs : list ResistantVirus.t) l drugs :
  NoDup (oid <$> vs) → Forall (λ v, oid v < 102) vs →
  healthy (sample_world l vs drugs) 101 vs.
Proof. intros Hnd Hall. split; [apply sample_world_wf|done]. Qed.

(** X9: the population a basic patient holds after [update].  For a patient
    whose viruses are distinct objects, an [update] that returns [n] leaves
    the viruses that survived the clearance draws, in their order, followed
    by the offspring born in this step: [n] is the size of that list, there
    is at most one offspring per survivor, every offspring is an object
    created during the call, and the viruses of the patient are again
    distinct objects. *)
Theorem SimplePatient_update_population fuel self vs n
    (w w' : World SimpleVirus.t) :
  healthy w self vs → length vs < fuel →
  SimplePatient.update fuel self w = (Ok n, w') →
  let sv := survivors SimpleVirus.clearProb (draws w) (pos w) vs in
  ∃ cs, population w' self = Some (sv ++ cs) ∧
        n = length sv + length cs ∧ length cs ≤ length sv ∧
        Forall (λ c, next_oid w ≤ oid c) cs ∧
        healthy w' self (sv ++ cs).
Proof.
  exact (update_with_healthy (λ v, v) (λ _ v d, SimpleVirus.reproduce v d)
           (λ _ v d, SimpleVirus_reproduce_quiet v d)
           SimpleVirus_call_blind SimpleVirus_call_fresh
           fuel self vs n w w').
Qed.

(** The first virus is cleared, the second survives and has an offspring. *)
Lemma SimplePatient_update_population_witness :
  let vs := [SimpleVirus.mk 0 0.5 0.25; SimpleVirus.mk 1 0.5 0.25] in
  let w := simple_world [0.125; 0.5; 0.25]%float vs 1000 in
  let w' := snd (SimplePatient.update 3 101 w) in
  let sv := survivors SimpleVirus.clearProb (draws w) (pos w) vs in
  ∃ cs, population w' 101 = Some (sv ++ cs) ∧
        2 = length sv + length cs ∧ length cs ≤ length sv ∧
        Forall (λ c, next_oid w ≤ oid c) cs ∧
        healthy w' 101 (sv ++ cs).
Proof.
  intros vs w w'.
  apply (SimplePatient_update_population 3 101 vs 2 w w').
  - apply healthy_sample.
    + apply (bool_decide_unpack _). by vm_compute.
    + repeat constructor; simpl; lia.
  - simpl. lia.
  - by vm_compute.
Defined.

(** X10: the population a drug-treated patient holds after [update]: as
    for the basic patient, the survivors of the clearance draws in their
    order, followed by the offspring, which are new objects. *)
Theorem Patient_update_population fuel self vs n
    (w w' : World ResistantVirus.t) :
  healthy w self vs → length vs < fuel →
  Patient.update fuel self w = (Ok n, w') →
  let sv := survivors ResistantVirus.clearProb (draws w) (pos w) vs in
  ∃ cs, population w' self = Some (sv ++ cs) ∧
        n = length sv + length cs ∧ length cs ≤ length sv ∧
        Forall (λ c, next_oid w ≤ oid c) cs ∧
        healthy w' self (sv ++ cs).
Proof.
  exact (update_with_healthy ResistantVirus.as_simple Patient_reproduce_call
           Patient_reproduce_call_quiet Patient_call_blind Patient_call_fresh
           fuel self vs n w w').
Qed.

(** Of two survivors, the one resistant to the drug has an offspring. *)
Lemma Patient_update_population_witness :
  let vs := [sample_virus 0 true false; sample_virus 1 false true] in
  let w := sample_world [0.5; 0.5; 0.25; 0.75]%float vs ["guttagonol"] in
  let w' := snd (Patient.update 3 101 w) in
  let sv := survivors ResistantVirus.clearProb (draws w) (pos w) vs in
  ∃ cs, population w' 101 = Some (sv ++ cs) ∧
        3 = length sv + length cs ∧ length cs ≤ length sv ∧
        Forall (λ c, next_oid w ≤ oid c) cs ∧
        healthy w' 101 (sv ++ cs).
Proof.
  intros vs w w'.
  apply (Patient_update_population 3 101 vs 3 w w').
  - apply healthy_sample_patient.
    + apply (bool_decide_unpack _). by vm_compute.
    + repeat constructor; simpl; lia.
  - simpl. lia.
  - by vm_compute.
Defined.

Lemma density_zero_capacity n : density n 0 = Raise ZeroDivisionError.
Proof. unfold density. by vm_compute (to_float 0). Qed.

Lemma update_with_zero_capacity {V} `{Identity V}
    (as_simple : V → SimpleVirus.t) reproduce_call fuel self vs
    (w : World V) :
  healthy w self vs → maxPop_of (heap w !! self) = Some 0%Z →
  length vs < fuel →
  let r := update_with (λ v, SimpleVirus.doesClear (as_simple v))
             reproduce_call fuel self w in
  fst r = Raise ZeroDivisionError ∧
  pos (snd r) = length vs + pos w ∧
  heap (snd r) !! self = heap w !! self ∧
  population (snd r) self = Some vs.
Proof.
  intros Hh Hz Hfuel.
  destruct (healthy_unpack _ _ _ Hh)
    as (o & l & mp & Hwf & Hs & Hv & Hmp & Hl & Hnd & Hself & Hlt).
  rewrite Hs, Hmp in Hz. injection Hz as ->.
  rewrite (update_with_density_error as_simple reproduce_call fuel self o l
             0%Z vs ZeroDivisionError w)
    by (done || apply density_zero_capacity).
  cbn. rewrite lookup_insert_ne by lia.
  split; [done|]. split; [done|]. split; [done|].
  apply population_intro with (l := l); cbn.
  - rewrite lookup_insert_ne by lia. by rewrite Hs.
  - rewrite lookup_insert_ne by lia. done.
Qed.

(** X11: a capacity of 0.  [update] of a patient whose [maxPop] is 0,
    basic or drug-treated, raises [ZeroDivisionError] once the clearance
    draws are made, one per virus; the patient object is as it was and holds
    the viruses it held, the cleared ones included. *)
Theorem update_zero_capacity_raises :
  (∀ fuel self vs (w : World SimpleVirus.t),
     healthy w self vs → maxPop_of (heap w !! self) = Some 0%Z →
     length vs < fuel →
     let r := SimplePatient.update fuel self w in
     fst r = Raise ZeroDivisionError ∧
     pos (snd r) = length vs + pos w ∧
     heap (snd r) !! self = heap w !! self ∧
     population (snd r) self = Some vs) ∧
  (∀ fuel self vs (w : World ResistantVirus.t),
     healthy w self vs → maxPop_of (heap w !! self) = Some 0%Z →
     length vs < fuel →
     let r := Patient.update fuel self w in
     fst r = Raise ZeroDivisionError ∧
     pos (snd r) = length vs + pos w ∧
     heap (snd r) !! self = heap w !! self ∧
     population (snd r) self = Some vs).
Proof.
  split; intros fuel self vs w.
  - exact (update_with_zero_capacity (λ v, v)
             (λ _ v d, SimpleVirus.reproduce v d) fuel self vs w).
  - exact (update_with_zero_capacity ResistantVirus.as_simple
             Patient_reproduce_call fuel self vs w).
Qed.

(** Both viruses draw below [clearProb], and both are still there. *)
Lemma update_zero_capacity_raises_witness :
  let vs := [SimpleVirus.mk 0 0.5 0.25; SimpleVirus.mk 1 0.5 0.25] in
  let w := simple_world [0.125; 0.125]%float vs 0 in
  let r := SimplePatient.update 3 101 w in
  fst r = Raise ZeroDivisionError ∧
  pos (snd r) = length vs + pos w ∧
  heap (snd r) !! 101 = heap w !! 101 ∧
  population (snd r) 101 = Some vs.
Proof.
  intros vs w.
  apply (proj1 update_zero_capacity_raises 3 101 vs w).
  - apply healthy_sample.
    + apply (bool_decide_unpack _). by vm_compute.
    + repeat constructor; simpl; lia.
  - reflexivity.
  - simpl. lia.
Defined.

Lemma survivors_all {V} (f : V → float) tape p (vs : list V) :
  (∀ k v, v ∈ vs → ¬ fle (tape k) (f v)) →
  survivors f tape p vs = vs.
Proof.
  revert p. induction vs as [|v vs IH]; intros p Hno; simpl; [done|].
  destruct (tape p <=? f v)%float eqn:Hle.
  - destruct (Hno p v); [by left|done].
  - rewrite IH; [done|]. intros k v' Hv'. apply Hno. by right.
Qed.

Lemma survivors_elem_of {V} (f : V → float) tape p (vs : list V) v :
  v ∈ survivors f tape p vs → v ∈ vs.
Proof. intros Hv. eapply elem_of_sublist; [exact Hv|apply survivors_sublist]. Qed.

(** No birth draw succeeds: no offspring, one draw per parent. *)
Lemma births_none_simple d (vs : list SimpleVirus.t)
    (w : World SimpleVirus.t) :
  (∀ k v, v ∈ vs →
     ¬ fle (draws w k) (birth_prob (SimpleVirus.maxBirthProb v) d)) →
  births (λ v, SimpleVirus.reproduce v d) vs w
  = ([], None, consume (length vs) w).
Proof.
  revert w. induction vs as [|v vs IH]; intros w Hno; simpl.
  - by destruct w.
  - rewrite SimpleVirus_reproduce_not_born by (apply Hno; by left).
    rewrite IH by (intros k v' Hv'; apply (Hno k v'); by right).
    unfold consume. simpl. do 2 f_equal. lia.
Qed.

(** One step of a patient in which nothing happens. *)
Lemma SimplePatient_update_steady fuel self vs mp d
    (w : World SimpleVirus.t) :
  healthy w self vs → maxPop_of (heap w !! self) = Some mp →
  density (length vs) mp = Ok d → length vs < fuel →
  (∀ k v, v ∈ vs →
     ¬ fle (draws w k) (SimpleVirus.clearProb v) ∧
     ¬ fle (draws w k) (birth_prob (SimpleVirus.maxBirthProb v) d)) →
  ∃ w', SimplePatient.update fuel self w = (Ok (length vs), w') ∧
        healthy w' self vs ∧ maxPop_of (heap w' !! self) = Some mp ∧
        draws w' = draws w ∧ pos w' = 2 * length vs + pos w.
Proof.
  intros Hh Hm Hd Hfuel Hno.
  destruct (healthy_unpack _ _ _ Hh)
    as (o & l & mp' & Hwf & Hs & Hv & Hmp & Hl & Hnd & Hself & Hlt).
  rewrite Hs, Hmp in Hm. injection Hm as ->.
  assert (Hsv : survivors SimpleVirus.clearProb (draws w) (pos w) vs = vs).
  { apply survivors_all. intros k v Hin. by apply Hno. }
  pose proof (update_with_exact (λ v, v) (λ _ v d, SimpleVirus.reproduce v d)
                (λ _ v d, SimpleVirus_reproduce_quiet v d)
                SimpleVirus_call_blind fuel self o l mp vs d w
                Hwf Hs Hv Hmp Hl Hnd Hfuel) as Hex.
  cbv zeta in Hex.
  set (sv := survivors _ (draws w) (pos w) vs) in Hex.
  assert (Hsv' : sv = vs) by exact Hsv. clearbody sv. subst sv.
  specialize (Hex Hd).
  rewrite births_none_simple in Hex
    by (intros k v Hin; cbn; by apply Hno).
  cbn in Hex. rewrite app_nil_r, Nat.add_0_r in Hex.
  eexists. split; [exact Hex|].
  pose proof (update_with_healthy (λ v, v)
                (λ _ v d, SimpleVirus.reproduce v d)
                (λ _ v d, SimpleVirus_reproduce_quiet v d)
                SimpleVirus_call_blind SimpleVirus_call_fresh
                fuel self vs _ w _ Hh Hfuel Hex) as (cs & Hp & _ & _ & _ & Hh').
  cbv zeta in Hp, Hh'.
  set (sv := survivors _ (draws w) (pos w) vs) in Hp, Hh'.
  assert (Hsv' : sv = vs) by exact Hsv. clearbody sv. subst sv.
  assert (Hp2 : population
                  (with_heap
                     (<[S (next_oid w) := ListObj vs]>
                        (<[self := rebind o (S (next_oid w))]>
                           (<[S (next_oid w) := ListObj vs]>
                              (<[next_oid w := ListObj vs]> (heap w)))))
                     (consume (length vs)
                        (mkWorld (draws w) (length vs + pos w)
                           (S (S (next_oid w))) (heap w))))
                  self = Some vs).
  { apply population_intro with (l := S (next_oid w)); cbn.
    - rewrite lookup_insert_ne by lia. rewrite lookup_insert_eq.
      by eapply viruses_of_rebind.
    - apply lookup_insert_eq. }
  rewrite Hp2 in Hp. injection Hp as Hp. rewrite <- Hp in Hh'.
  split; [exact Hh'|]. cbn.
  rewrite lookup_insert_ne by lia. rewrite lookup_insert_eq.
  split; [by destruct o|]. split; [done|lia].
Qed.

(** X14: a patient in which nothing happens.  When no draw clears a virus
    and no draw gives birth, every call of [SimplePatient.update] in a row
    of calls returns the size of the population, the patient holds the same
    viruses after the last call, and each call has consumed two draws per
    virus. *)
Theorem run_steps_steady steps fuel self vs mp d (w : World SimpleVirus.t) :
  healthy w self vs → maxPop_of (heap w !! self) = Some mp →
  density (length vs) mp = Ok d → length vs < fuel →
  (∀ k v, v ∈ vs →
     ¬ fle (draws w k) (SimpleVirus.clearProb v) ∧
     ¬ fle (draws w k) (birth_prob (SimpleVirus.maxBirthProb v) d)) →
  let r := run_steps steps fuel self w in
  fst r = Ok (replicate steps (length vs)) ∧
  population (snd r) self = Some vs ∧
  pos (snd r) = steps * (2 * length vs) + pos w.
Proof.
  intros Hh Hm Hd Hfuel Hno. revert w Hh Hm Hno.
  induction steps as [|steps IH]; intros w Hh Hm Hno.
  - cbn. split; [done|]. split; [apply Hh|done].
  - destruct (SimplePatient_update_steady fuel self vs mp d w
                Hh Hm Hd Hfuel Hno) as (w' & Hrun & Hh' & Hm' & Hdr & Hpos).
    cbn [run_steps]. erewrite bind_Ok by exact Hrun.
    assert (Hno' : ∀ k v, v ∈ vs →
              ¬ fle (draws w' k) (SimpleVirus.clearProb v) ∧
              ¬ fle (draws w' k)
                  (birth_prob (SimpleVirus.maxBirthProb v) d))
      by (rewrite Hdr; exact Hno).
    destruct (IH w' Hh' Hm' Hno') as (Hr & Hp & Hps).
    unfold bind.
    destruct (run_steps steps fuel self w') as [[ns|e] w2]; [|done].
    simpl in *. injection Hr as ->. split; [done|]. split; [done|lia].
Qed.

(** Two viruses, draws of 0.5 for ever, a clearance probability and a
    maximal birth probability of 0.25: three steps return 2 each. *)
Lemma run_steps_steady_witness :
  let vs := [SimpleVirus.mk 0 0.25 0.25; SimpleVirus.mk 1 0.25 0.25] in
  let w := simple_world [] vs 4 in
  let r := run_steps 3 3 101 w in
  fst r = Ok (replicate 3 (length vs)) ∧
  population (snd r) 101 = Some vs ∧
  pos (snd r) = 3 * (2 * length vs) + pos w.
Proof.
  intros vs w.
  apply (run_steps_steady 3 3 101 vs 4%Z 0.5%float w).
  - apply healthy_sample.
    + apply (bool_decide_unpack _). by vm_compute.
    + repeat constructor; simpl; lia.
  - reflexivity.
  - by vm_compute.
  - simpl. lia.
  - intros k v Hv.
    assert (Hk : draws w k = 0.5%float) by (by destruct k).
    rewrite Hk.
    apply elem_of_cons in Hv as [->|Hv];
      [|apply elem_of_cons in Hv as [->|Hv]; [|by apply elem_of_nil in Hv]];
      split; by vm_compute.
Defined.

(** ** Drug-treated patients *)

Lemma Patient_call_run self l mp drugs (v : ResistantVirus.t) d
    (w : World ResistantVirus.t) :
  heap w !! self = Some (PatientObj l mp drugs) →
  Patient_reproduce_call self v d w = ResistantVirus.reproduce v d drugs w.
Proof.
  intros Hs. unfold Patient_reproduce_call.
  erewrite bind_Ok; [done|]. unfold get_drugs. by rewrite Hs.
Qed.

(** No parent is resistant to the drugs: no offspring, and no draw. *)
Lemma births_none_resistant self l mp drugs d (vs : list ResistantVirus.t)
    (w : World ResistantVirus.t) :
  heap w !! self = Some (PatientObj l mp drugs) → drugs ≠ [] →
  (∀ v, v ∈ vs → tracks v drugs ∧ ¬ resistant_to_all v drugs) →
  births (λ v, Patient_reproduce_call self v d) vs w = ([], None, w).
Proof.
  intros Hs Hne. induction vs as [|v vs IH]; intros Hno; simpl; [done|].
  destruct (Hno v) as [Ht Hnr]; [by left|].
  rewrite (Patient_call_run self l mp drugs) by done.
  rewrite reproduce_ineligible by done.
  apply IH. intros v' Hv'. apply Hno. by right.
Qed.

(** A parent does not track an administered drug: the loop stops at the
    first such parent with [KeyError]. *)
Lemma births_untracked self l mp drugs d (vs : list ResistantVirus.t) v drug
    (w : World ResistantVirus.t) :
  heap w !! self = Some (PatientObj l mp drugs) →
  v ∈ vs → drug ∈ drugs → ResistantVirus.resistances v !! drug = None →
  ∃ k cs w', births (λ v, Patient_reproduce_call self v d) vs w
             = (cs, Some (KeyError k), w') ∧
             k ∈ drugs ∧ length cs < length vs.
Proof.
  intros Hs Hv Hdrug Hnone. revert w Hs.
  induction vs as [|p vs IH]; intros w Hs; [by apply elem_of_nil in Hv|].
  simpl. rewrite (Patient_call_run self l mp drugs) by done.
  destruct (tracks_cases p drugs) as [Ht|(k & Hk & Hkn)].
  - assert (Hin : v ∈ vs).
    { apply elem_of_cons in Hv as [->|Hv]; [|done].
      destruct (Ht drug Hdrug) as [b Hb]. congruence. }
    destruct (eligible_cases p drugs Ht) as [Hel|[Hne Hnot]].
    + rewrite (reproduce_eligible _ _ _ _ Ht Hel).
      case_decide.
      * destruct (IH Hin (created 1 (consume 2 w)) Hs)
          as (k & cs & w' & Hb & Hk & Hlen).
        rewrite Hb. eexists k, (_ :: cs), w'.
        split; [reflexivity|]. split; [done|simpl; lia].
      * destruct (IH Hin (consume 1 w) Hs) as (k & cs & w' & Hb & Hk & Hlen).
        rewrite Hb. exists k, cs, w'. split; [done|]. split; [done|lia].
    + rewrite reproduce_ineligible by done.
      destruct (IH Hin w Hs) as (k & cs & w' & Hb & Hk & Hlen).
      rewrite Hb. exists k, cs, w'. split; [done|]. split; [done|lia].
  - destruct (eligibility_loop_missing p drugs true w k Hk Hkn)
      as (k' & Hk' & Hkn' & Hrun).
    unfold ResistantVirus.reproduce. erewrite bind_Raise by exact Hrun.
    exists k', [], w. split; [done|]. split; [done|simpl; lia].
Qed.

Lemma Patient_update_exact fuel self l mp drugs vs d
    (w : World ResistantVirus.t) :
  healthy w self vs → heap w !! self = Some (PatientObj l mp drugs) →
  length vs < fuel →
  let n0 := next_oid w in
  let sv := survivors ResistantVirus.clearProb (draws w) (pos w) vs in
  let w3 := mkWorld (draws w) (length vs + pos w) (S (S n0)) (heap w) in
  let b := births (λ v, Patient_reproduce_call self v d) sv w3 in
  let h4 := <[self := PatientObj (S n0) mp drugs]>
              (<[S n0 := ListObj sv]> (<[n0 := ListObj sv]> (heap w))) in
  density (length sv) mp = Ok d →
  Patient.update fuel self w
  = (match snd (fst b) with
     | None => Ok (length sv + length (fst (fst b)))
     | Some e => Raise e
     end,
     with_heap (<[S n0 := ListObj (sv ++ fst (fst b))]> h4) (snd b)).
Proof.
  intros Hh Hs Hfuel.
  destruct (healthy_unpack _ _ _ Hh)
    as (o & l' & mp' & Hwf & Hs' & Hv & Hmp & Hl & Hnd & Hself & Hlt).
  rewrite Hs in Hs'. injection Hs' as <-.
  injection Hv as <-. injection Hmp as <-.
  exact (update_with_exact ResistantVirus.as_simple Patient_reproduce_call
           Patient_reproduce_call_quiet Patient_call_blind
           fuel self (PatientObj l mp drugs) l mp vs d w
           Hwf Hs eq_refl eq_refl Hl Hnd Hfuel).
Qed.

(** X12: an extinct population.  [update] of a drug-treated patient without
    viruses returns 0 and consumes no draw, whatever drugs are administered:
    the patient still has no virus.  (The capacity must allow the density
    [0 / float(maxPop)] to be computed.) *)
Theorem Patient_update_extinct fuel self l mp drugs d
    (w : World ResistantVirus.t) :
  healthy w self [] → heap w !! self = Some (PatientObj l mp drugs) →
  density 0 mp = Ok d → 0 < fuel →
  let r := Patient.update fuel self w in
  fst r = Ok 0 ∧ pos (snd r) = pos w ∧ population (snd r) self = Some [].
Proof.
  intros Hh Hs Hd Hfuel.
  destruct (healthy_unpack _ _ _ Hh) as (_ & _ & _ & _ & _ & _ & _ & _ & _ & Hself & _).
  pose proof (Patient_update_exact fuel self l mp drugs [] d w Hh Hs Hfuel Hd)
    as Hex.
  cbn in Hex. cbv zeta. rewrite Hex. cbn.
  split; [done|]. split; [done|].
  apply population_intro with (l := S (next_oid w)); cbn.
  - rewrite lookup_insert_ne by lia. by rewrite lookup_insert_eq.
  - apply lookup_insert_eq.
Qed.

Lemma Patient_update_extinct_witness :
  let w := sample_world [] [] ["guttagonol"; "grimpex"] in
  let r := Patient.update 1 101 w in
  fst r = Ok 0 ∧ pos (snd r) = pos w ∧ population (snd r) 101 = Some [].
Proof.
  intros w.
  apply (Patient_update_extinct 1 101 100 1000%Z ["guttagonol"; "grimpex"]
           0%float w).
  - apply healthy_sample_patient; constructor.
  - reflexivity.
  - by vm_compute.
  - lia.
Defined.

(** X15: treatment no virus resists.  When drugs are administered and no
    virus of the patient is resistant to all of them (each virus tracking
    them all), [Patient.update] makes the clearance draws only, one per
    virus: no virus reproduces, the call returns the number of survivors and
    the patient holds exactly the survivors. *)
Theorem Patient_update_no_resistant fuel self l mp drugs vs d
    (w : World ResistantVirus.t) :
  healthy w self vs → heap w !! self = Some (PatientObj l mp drugs) →
  length vs < fuel → drugs ≠ [] →
  (∀ v, v ∈ vs → tracks v drugs ∧ ¬ resistant_to_all v drugs) →
  let sv := survivors ResistantVirus.clearProb (draws w) (pos w) vs in
  density (length sv) mp = Ok d →
  let r := Patient.update fuel self w in
  fst r = Ok (length sv) ∧ pos (snd r) = length vs + pos w ∧
  population (snd r) self = Some sv.
Proof.
  intros Hh Hs Hfuel Hne Hno sv Hd.
  destruct (healthy_unpack _ _ _ Hh) as (_ & _ & _ & _ & _ & _ & _ & _ & _ & Hself & _).
  pose proof (Patient_update_exact fuel self l mp drugs vs d w Hh Hs Hfuel Hd)
    as Hex.
  cbv zeta in Hex. fold sv in Hex.
  rewrite (births_none_resistant self l mp drugs) in Hex;
    [|done|done|intros v Hv; apply Hno; by eapply survivors_elem_of].
  cbv zeta. rewrite Hex. cbn. rewrite Nat.add_0_r, app_nil_r.
  split; [done|]. split; [done|].
  apply population_intro with (l := S (next_oid w)); cbn.
  - rewrite lookup_insert_ne by lia. by rewrite lookup_insert_eq.
  - apply lookup_insert_eq.
Qed.

(** Under guttagonol and grimpex: one virus resists the first only, the
    other the second only; the first is cleared. *)
Lemma Patient_update_no_resistant_witness :
  let vs := [sample_virus 0 true false; sample_virus 1 false true] in
  let w := sample_world [0.125; 0.5]%float vs ["guttagonol"; "grimpex"] in
  let sv := survivors ResistantVirus.clearProb (draws w) (pos w) vs in
  let r := Patient.update 3 101 w in
  fst r = Ok (length sv) ∧ pos (snd r) = length vs + pos w ∧
  population (snd r) 101 = Some sv.
Proof.
  intros vs w.
  apply (Patient_update_no_resistant 3 101 100 1000%Z
           ["guttagonol"; "grimpex"] vs (1 / 1000)%float w).
  - apply healthy_sample_patient.
    + apply (bool_decide_unpack _). by vm_compute.
    + repeat constructor; simpl; lia.
  - reflexivity.
  - simpl. lia.
  - done.
  - intros v Hv.
    apply elem_of_cons in Hv as [->|Hv];
      [|apply elem_of_cons in Hv as [->|Hv]; [|by apply elem_of_nil in Hv]].
    + split.
      * intros k Hk.
        apply elem_of_cons in Hk as [->|Hk];
          [|apply elem_of_cons in Hk as [->|Hk];
            [|by apply elem_of_nil in Hk]];
          apply not_eq_None_Some; by vm_compute.
      * intros Hall. specialize (Hall "grimpex").
        assert (Hin : "grimpex" ∈ ["guttagonol"; "grimpex"])
          by (right; left).
        specialize (Hall Hin). by vm_compute in Hall.
    + split.
      * intros k Hk.
        apply elem_of_cons in Hk as [->|Hk];
          [|apply elem_of_cons in Hk as [->|Hk];
            [|by apply elem_of_nil in Hk]];
          apply not_eq_None_Some; by vm_compute.
      * intros Hall. specialize (Hall "guttagonol").
        assert (Hin : "guttagonol" ∈ ["guttagonol"; "grimpex"]) by left.
        specialize (Hall Hin). by vm_compute in Hall.
  - by vm_compute.
Defined.

(** X16: an administered drug a surviving virus does not track.
    [Patient.update] then raises [KeyError] for an administered drug, in the
    second loop: the clearance draws are made and the patient has already
    been given its new list, which holds the survivors and the offspring born
    before the exception; the list it held before still holds all the
    viruses. *)
Theorem Patient_update_untracked fuel self l mp drugs vs d v drug
    (w : World ResistantVirus.t) :
  healthy w self vs → heap w !! self = Some (PatientObj l mp drugs) →
  length vs < fuel →
  let sv := survivors ResistantVirus.clearProb (draws w) (pos w) vs in
  density (length sv) mp = Ok d →
  v ∈ sv → drug ∈ drugs → ResistantVirus.resistances v !! drug = None →
  let r := Patient.update fuel self w in
  ∃ k cs, fst r = Raise (KeyError k) ∧ k ∈ drugs ∧
          population (snd r) self = Some (sv ++ cs) ∧
          length cs < length sv ∧
          heap (snd r) !! l = Some (ListObj vs).
Proof.
  intros Hh Hs Hfuel sv Hd Hv Hdrug Hnone.
  destruct (healthy_unpack _ _ _ Hh)
    as (o & l' & mp' & Hwf & Hs' & Hvo & Hmp & Hl & Hnd & Hself & Hlt).
  rewrite Hs in Hs'. injection Hs' as <-. injection Hvo as <-.
  pose proof (Patient_update_exact fuel self l mp drugs vs d w Hh Hs Hfuel Hd)
    as Hex.
  cbv zeta in Hex. fold sv in Hex.
  destruct (births_untracked self l mp drugs d sv v drug
              (mkWorld (draws w) (length vs + pos w) (S (S (next_oid w)))
                 (heap w)) Hs Hv Hdrug Hnone)
    as (k & cs & w' & Hb & Hk & Hlen).
  rewrite Hb in Hex. cbv zeta. rewrite Hex. cbn.
  exists k, cs. split; [done|]. split; [done|]. split; [|split; [done|]].
  - apply population_intro with (l := S (next_oid w)); cbn.
    + rewrite lookup_insert_ne by lia. by rewrite lookup_insert_eq.
    + apply lookup_insert_eq.
  - assert (self ≠ l) by (intros ->; congruence).
    rewrite !lookup_insert_ne by (done || lia). done.
Qed.

(** The first virus is cleared; the second, resistant to both drugs, has
    an offspring; the third does not track grimpex. *)
Lemma Patient_update_untracked_witness :
  let v := ResistantVirus.mk 2 0.5 0.25 (<["guttagonol" := true]> ∅) 0.5 in
  let vs := [sample_virus 0 true false; sample_virus 1 true true; v] in
  let w := sample_world [0.125; 0.5; 0.5; 0.25; 0.75]%float vs
             ["guttagonol"; "grimpex"] in
  let sv := survivors ResistantVirus.clearProb (draws w) (pos w) vs in
  let r := Patient.update 4 101 w in
  ∃ k cs, fst r = Raise (KeyError k) ∧
          k ∈ ["guttagonol"; "grimpex"] ∧
          population (snd r) 101 = Some (sv ++ cs) ∧
          length cs < length sv ∧
          heap (snd r) !! 100 = Some (ListObj vs).
Proof.
  intros v vs w.
  apply (Patient_update_untracked 4 101 100 1000%Z
           ["guttagonol"; "grimpex"] vs (2 / 1000)%float v "grimpex" w).
  - apply healthy_sample_patient.
    + apply (bool_decide_unpack _). by vm_compute.
    + repeat constructor; simpl; lia.
  - reflexivity.
  - simpl. lia.
  - by vm_compute.
  - vm_compute. right. left.
  - right. left.
  - by vm_compute.
Defined.

Example update_untracked_after_birth :
  let v := ResistantVirus.mk 2 0.5 0.25 (<["guttagonol" := true]> ∅) 0.5 in
  let vs := [sample_virus 0 true false; sample_virus 1 true true; v] in
  let w := sample_world [0.125; 0.5; 0.5; 0.25; 0.75]%float vs
             ["guttagonol"; "grimpex"] in
  fst (Patient.update 4 101 w) = Raise (KeyError "grimpex") ∧
  population (snd (Patient.update 4 101 w)) 101
  = Some [sample_virus 1 true true; v; sample_virus 104 true true] ∧
  pos (snd (Patient.update 4 101 w)) = 5.
Proof. repeat split; by vm_compute. Qed.

(** ** Accounting for draws and offspring *)

(** The second loop over simple viruses never stops early: one draw per
    parent, and an offspring with the parent's parameters for each draw
    that succeeds. *)
Lemma births_simple d (vs : list SimpleVirus.t) (w : World SimpleVirus.t) :
  ∃ cs w', births (λ v, SimpleVirus.reproduce v d) vs w = (cs, None, w') ∧
           pos w' = length vs + pos w ∧ length cs ≤ length vs ∧
           Forall (λ c, ∃ v, v ∈ vs ∧
                     SimpleVirus.maxBirthProb c = SimpleVirus.maxBirthProb v ∧
                     SimpleVirus.clearProb c = SimpleVirus.clearProb v) cs.
Proof.
  revert w. induction vs as [|v vs IH]; intros w.
  - exists [], w. simpl. repeat split; by auto.
  - simpl.
    destruct (decide (fle (draws w (pos w))
                        (birth_prob (SimpleVirus.maxBirthProb v) d)))
      as [Hb|Hb].
    + rewrite (SimpleVirus_reproduce_born _ _ _ Hb).
      destruct (IH (created 1 (consume 1 w)))
        as (cs & w' & Hrun & Hpos & Hlen & Hall).
      rewrite Hrun. eexists (_ :: cs), w'. split; [reflexivity|].
      simpl in *. split; [lia|]. split; [lia|].
      constructor.
      * exists v. split; [by left|done].
      * eapply Forall_impl; [exact Hall|].
        intros c (v' & Hv' & Hc). exists v'. split; [by right|done].
    + rewrite (SimpleVirus_reproduce_not_born _ _ _ Hb).
      destruct (IH (consume 1 w)) as (cs & w' & Hrun & Hpos & Hlen & Hall).
      rewrite Hrun. exists cs, w'. split; [done|].
      simpl in *. split; [lia|]. split; [lia|].
      eapply Forall_impl; [exact Hall|].
      intros c (v' & Hv' & Hc). exists v'. split; [by right|done].
Qed.

Lemma density_errors n mp e :
  density n mp = Raise e → e = ZeroDivisionError ∨ e = OverflowError.
Proof.
  unfold density, to_float, float_div.
  destruct (is_infinity _); [intros [= <-]; by right|].
  destruct (_ =? _)%float; [intros [= <-]; by left|done].
Qed.

(** X17: how [SimplePatient.update] ends.  For a patient whose viruses are
    distinct objects the only exceptions are those of the density
    [len(virus_pop) / float(self.maxPop)]: [ZeroDivisionError] or
    [OverflowError], raised after one draw per virus.  Otherwise the call
    returns: it has made one draw per virus and one more per survivor, the
    count is between the number of survivors and its double, and every virus
    of the new population that was not there before has the [maxBirthProb]
    and [clearProb] of a survivor. *)
Theorem SimplePatient_update_outcome fuel self vs mp
    (w : World SimpleVirus.t) :
  healthy w self vs → maxPop_of (heap w !! self) = Some mp →
  length vs < fuel →
  let sv := survivors SimpleVirus.clearProb (draws w) (pos w) vs in
  let r := SimplePatient.update fuel self w in
  match density (length sv) mp with
  | Ok d =>
      ∃ cs, fst r = Ok (length sv + length cs) ∧
            population (snd r) self = Some (sv ++ cs) ∧
            length cs ≤ length sv ∧
            pos (snd r) = length vs + length sv + pos w ∧
            Forall (λ c, ∃ v, v ∈ sv ∧
                      SimpleVirus.maxBirthProb c = SimpleVirus.maxBirthProb v ∧
                      SimpleVirus.clearProb c = SimpleVirus.clearProb v) cs
  | Raise e =>
      fst r = Raise e ∧ (e = ZeroDivisionError ∨ e = OverflowError) ∧
      pos (snd r) = length vs + pos w
  end.
Proof.
  intros Hh Hm Hfuel sv r.
  destruct (healthy_unpack _ _ _ Hh)
    as (o & l & mp' & Hwf & Hs & Hv & Hmp & Hl & Hnd & Hself & Hlt).
  rewrite Hs, Hmp in Hm. injection Hm as ->.
  destruct (density (length sv) mp) as [d|e] eqn:Hd.
  - pose proof (update_with_exact (λ v, v)
                  (λ _ v d, SimpleVirus.reproduce v d)
                  (λ _ v d, SimpleVirus_reproduce_quiet v d)
                  SimpleVirus_call_blind fuel self o l mp vs d w
                  Hwf Hs Hv Hmp Hl Hnd Hfuel Hd) as Hex.
    cbv zeta in Hex.
    change (survivors _ (draws w) (pos w) vs) with sv in Hex.
    destruct (births_simple d sv
                (mkWorld (draws w) (length vs + pos w) (S (S (next_oid w)))
                   (heap w)))
      as (cs & w' & Hrun & Hpos & Hlen & Hall).
    cbv beta in Hex. rewrite Hrun in Hex. cbn in Hex.
    change (update_with _ _ fuel self w)
      with (SimplePatient.update fuel self w) in Hex.
    subst r. rewrite Hex. cbn. cbn in Hpos. exists cs.
    split; [done|]. split; [|split; [done|split; [lia|done]]].
    apply population_intro with (l := S (next_oid w)); cbn.
    + rewrite lookup_insert_ne by lia. rewrite lookup_insert_eq.
      by eapply viruses_of_rebind.
    + apply lookup_insert_eq.
  - pose proof (update_with_density_error (λ v, v)
                  (λ _ v d, SimpleVirus.reproduce v d) fuel self o l mp vs e w
                  Hwf Hs Hv Hmp Hl Hnd Hfuel Hd) as Hex.
    change (update_with _ _ fuel self w)
      with (SimplePatient.update fuel self w) in Hex.
    subst r. rewrite Hex.
    cbn. split; [done|]. split; [by eapply density_errors|done].
Qed.

(** The first virus is cleared, the second survives and has an offspring. *)
Lemma SimplePatient_update_outcome_witness :
  let vs := [SimpleVirus.mk 0 0.5 0.25; SimpleVirus.mk 1 0.5 0.25] in
  let w := simple_world [0.125; 0.5; 0.25]%float vs 1000 in
  let sv := survivors SimpleVirus.clearProb (draws w) (pos w) vs in
  let r := SimplePatient.update 3 101 w in
  match density (length sv) 1000 with
  | Ok d =>
      ∃ cs, fst r = Ok (length sv + length cs) ∧
            population (snd r) 101 = Some (sv ++ cs) ∧
            length cs ≤ length sv ∧
            pos (snd r) = length vs + length sv + pos w ∧
            Forall (λ c, ∃ v, v ∈ sv ∧
                      SimpleVirus.maxBirthProb c = SimpleVirus.maxBirthProb v ∧
                      SimpleVirus.clearProb c = SimpleVirus.clearProb v) cs
  | Raise e =>
      fst r = Raise e ∧ (e = ZeroDivisionError ∨ e = OverflowError) ∧
      pos (snd r) = length vs + pos w
  end.
Proof.
  intros vs w.
  apply (SimplePatient_update_outcome 3 101 vs 1000%Z w).
  - apply healthy_sample.
    + apply (bool_decide_unpack _). by vm_compute.
    + repeat constructor; simpl; lia.
  - reflexivity.
  - simpl. lia.
Defined.



